(** * ImageRequest: a shallow embedding of image-handler/image-request.js

    The request-dialect translator of the serverless image handler:
    classification of the request path, key and bucket resolution, origin
    fetch with the default-image substitution, content-type sniffing,
    output-format negotiation and signature validation.

    Conventions of the embedding.
    - A JavaScript string is a [string]; the model is exact for strings whose
      code units are below 256.
    - A JavaScript value (the decoded JSON record, the edits) is a [value].
    - A thrown exception is a value of [exn]; a method that can throw returns
      [result].
    - What the Node.js runtime provides (JSON.parse, Buffer, RegExp,
      decodeURIComponent, crypto) is the interface [Runtime]; the theorems
      hold for every runtime, the examples run on [MiniRuntime.mini].
    - The two injected collaborators (object store, secret provider) are
      stateful oracles threaded through the monad [M], which also keeps the
      trace of the calls made. *)

From Stdlib Require Import String Ascii List Bool Arith ZArith QArith Lia.
From Stdlib Require Import DecimalString.
Import ListNotations.

Set Implicit Arguments.
Close Scope Q_scope.
Local Open Scope list_scope.
Local Open Scope string_scope.

(** ** JavaScript strings *)

Module JsString.

Fixpoint to_list (s : string) : list ascii :=
  match s with
  | EmptyString => []
  | String c r => c :: to_list r
  end.

Fixpoint of_list (l : list ascii) : string :=
  match l with
  | [] => EmptyString
  | c :: r => String c (of_list r)
  end.

(** [s.charAt(0) === c] *)
Definition starts_with_char (c : ascii) (s : string) : bool :=
  match s with
  | String d _ => Ascii.eqb c d
  | EmptyString => false
  end.

(** JavaScript's index clamping for [slice]: a negative index counts from
    the end, and the result is clamped to [0, len]. *)
Definition clamp_index (len : nat) (i : Z) : nat :=
  if (i <? 0)%Z then Z.to_nat (Z.max 0 (Z.of_nat len + i))
  else Nat.min len (Z.to_nat i).

(** [s.slice(b, e)] *)
Definition slice (s : string) (b e : Z) : string :=
  let len := String.length s in
  let from := clamp_index len b in
  let to := clamp_index len e in
  of_list (firstn (to - from) (skipn from (to_list s))).

(** [s.slice(b)] *)
Definition slice_from (s : string) (b : Z) : string :=
  slice s b (Z.of_nat (String.length s)).

(** [s.substring(0, n)] for a natural number [n]. *)
Definition substring0 (s : string) (n : nat) : string :=
  of_list (firstn n (to_list s)).

(** [s.split(c)] for a one-character separator: the pieces between the
    occurrences of [c]; never the empty list. *)
Fixpoint split_chars (c : ascii) (cur : list ascii) (l : list ascii)
  : list string :=
  match l with
  | [] => [of_list (rev cur)]
  | d :: r =>
      if Ascii.eqb d c then of_list (rev cur) :: split_chars c [] r
      else split_chars c (d :: cur) r
  end.

Definition split (c : ascii) (s : string) : list string :=
  split_chars c [] (to_list s).

(** [s.lastIndexOf(c) + 1]: the length of the longest prefix of [s] that
    ends with [c], 0 when [c] does not occur (lastIndexOf gives -1). *)
Fixpoint lastIndexOf_succ (c : ascii) (l : list ascii) : nat :=
  match l with
  | [] => 0
  | d :: r =>
      match lastIndexOf_succ c r with
      | 0 => if Ascii.eqb d c then 1 else 0
      | S n => S (S n)
      end
  end.

Fixpoint is_prefix (p s : string) : bool :=
  match p, s with
  | EmptyString, _ => true
  | String a p', String b s' => Ascii.eqb a b && is_prefix p' s'
  | String _ _, EmptyString => false
  end.

(** [s.includes(t)] *)
Fixpoint includes (s t : string) : bool :=
  is_prefix t s ||
  match s with
  | EmptyString => false
  | String _ s' => includes s' t
  end.

(** The array method [arr.includes(x)] on an array of strings. *)
Definition mem (x : string) (l : list string) : bool :=
  existsb (String.eqb x) l.

End JsString.

(** ** JavaScript values and exceptions *)

(** A JavaScript number. A finite double is represented by the rational it
    denotes (negative zero is identified with zero). *)
Inductive number : Type :=
| NaN
| Infinity (negative : bool)
| Finite (q : Q).

(** The values the decoded request and the edits are made of. The fields of
    an object are kept in the order [Object.keys] lists them. *)
#[warnings="-register-all"]
Inductive value : Type :=
| VUndefined
| VNull
| VBool (b : bool)
| VNumber (n : number)
| VString (s : string)
| VArray (elems : list value)
| VObject (fields : list (string * value)).

(** Modelled from the spec: the status codes of ./lib (not under src/), one
    constructor for each status the spec's error taxonomy names. *)
Inductive StatusCodes : Type :=
| BAD_REQUEST
| FORBIDDEN
| NOT_FOUND
| INTERNAL_SERVER_ERROR.

(** What a [throw] carries: the handler's own [ImageHandlerError(status,
    code, message)], or an error object of the runtime or of a collaborator
    (a TypeError, a SyntaxError, a storage error), of which the code reads
    the fields [code] and [message]. *)
Inductive exn : Type :=
| ImageHandlerError (status : StatusCodes) (code : option string)
    (message : string)
| NativeError (name : string) (code : option string) (message : string).

Definition exn_code (e : exn) : option string :=
  match e with
  | ImageHandlerError _ c _ => c
  | NativeError _ c _ => c
  end.

Definition exn_message (e : exn) : string :=
  match e with
  | ImageHandlerError _ _ m => m
  | NativeError _ _ m => m
  end.

Definition exn_status (e : exn) : option StatusCodes :=
  match e with
  | ImageHandlerError s _ _ => Some s
  | NativeError _ _ _ => None
  end.

(** The outcome of a method that can throw. *)
Inductive result (A : Type) : Type :=
| Return (a : A)
| Throw (e : exn).

Arguments Return {A} a.
Arguments Throw {A} e.

Definition TypeError (message : string) : exn :=
  NativeError "TypeError" None message.

Module JsValue.

(** [typeof v !== 'undefined'] *)
Definition defined (v : value) : bool :=
  match v with
  | VUndefined => false
  | _ => true
  end.

Definition number_truthy (n : number) : bool :=
  match n with
  | NaN => false
  | Infinity _ => true
  | Finite q => negb (Qeq_bool q (0 # 1))
  end.

(** ToBoolean *)
Definition truthy (v : value) : bool :=
  match v with
  | VUndefined | VNull => false
  | VBool b => b
  | VNumber n => number_truthy n
  | VString s => negb (String.eqb s "")
  | VArray _ | VObject _ => true
  end.

Fixpoint lookup (k : string) (fields : list (string * value)) : value :=
  match fields with
  | [] => VUndefined
  | (k', v) :: r => if String.eqb k k' then v else lookup k r
  end.

(** The property read [v.k] for [k] a name that is neither an array index
    nor a built-in property: reading from undefined or null throws, a
    primitive or an array has no such property. *)
Definition get (v : value) (k : string) : result value :=
  match v with
  | VUndefined | VNull =>
      Throw (TypeError ("Cannot read property '" ++ k ++ "'"))
  | VObject fields => Return (lookup k fields)
  | _ => Return VUndefined
  end.

(** [v === s] for a string [s]. *)
Definition strict_eq_string (v : value) (s : string) : bool :=
  match v with
  | VString t => String.eqb t s
  | _ => false
  end.

End JsValue.

(** ** The runtime *)

(** What the code takes from Node.js. Each field is the built-in named in its
    comment; [None] or [Throw] stands for the exception the built-in raises. *)
Class Runtime : Type := {
  (** [Buffer.from(s, 'base64').toString()] *)
  Buffer_base64_toString : string -> string;
  (** [JSON.parse(s)]; [None] is the SyntaxError. *)
  JSON_parse : string -> option value;
  (** Compiled regular expressions. *)
  RegExp : Type;
  (** A regular-expression literal [/source/flags] of the program text. *)
  RegExp_literal : string -> string -> RegExp;
  (** [new RegExp(source, flags)]; throws a SyntaxError on a bad pattern or
      bad flags. *)
  RegExp_new : string -> string -> result RegExp;
  (** [re.test(s)], also the truth value of [s.match(re)], for a regular
      expression without the g and y flags. *)
  RegExp_test : RegExp -> string -> bool;
  (** [s.replace(re, replacement)] *)
  RegExp_replace : RegExp -> string -> string -> string;
  (** [s.replace(pattern, replacement)] for a string [pattern]. *)
  String_replace : string -> string -> string -> string;
  (** [decodeURIComponent(s)]; throws a URIError. *)
  decodeURIComponent : string -> result string;
  (** [createHmac('sha256', key).update(data).digest('hex')]; throws a
      TypeError when [key] is not a string. *)
  createHmac_sha256_hex : value -> string -> result string;
  (** ToNumber on a string. *)
  StringToNumber : string -> number;
  (** ToString on a number. *)
  NumberToString : number -> string;
  (** [new Date(d).toUTCString()] for a timestamp of the object store. *)
  Date_toUTCString : Z -> string
}.

(** ** Configuration, events and collaborators *)

(** [process.env]: a variable is a string or undefined. *)
Record Env : Type := {
  SOURCE_BUCKETS : option string;
  DEFAULT_FALLBACK_IMAGE_BUCKET : option string;
  REWRITE_MATCH_PATTERN : option string;
  REWRITE_SUBSTITUTION : option string;
  AUTO_WEBP : option string;
  ENABLE_SIGNATURE : option string;
  SECRETS_MANAGER : option string;
  SECRET_KEY : option string
}.

(** The Lambda request body: [path], [headers] and the optional
    [queryStringParameters]. *)
Record Event : Type := {
  path : string;
  headers : list (string * string);
  queryStringParameters : option (list (string * string))
}.

(** [{Bucket, Key}] *)
Record ImageLocation : Type := {
  Bucket : value;
  Key : value
}.

(** What [s3Client.getObject(...).promise()] resolves to. *)
Record GetObjectOutput : Type := {
  Body : list Byte.byte;
  ContentType : option string;
  Expires : option Z;
  LastModified : option Z;
  CacheControl : option string
}.

(** A call to a collaborator. *)
Inductive call : Type :=
| GetObject (location : ImageLocation)
| GetSecret (secretId : option string).

(** The two collaborators given to the constructor, as oracles over a world
    [W] that they may inspect and change. *)
Class Collaborators (W : Type) : Type := {
  s3Client_getObject : ImageLocation -> W -> result GetObjectOutput * W;
  secretProvider_getSecret : option string -> W -> result string * W
}.

(** ** The monad of asynchronous methods *)

(** The state an asynchronous method runs in: the world of the collaborators
    and the calls made so far, most recent last. *)
Record State (W : Type) : Type := {
  world : W;
  trace : list call
}.

Definition M (W A : Type) : Type := State W -> result A * State W.

Definition ret {W A} (a : A) : M W A := fun s => (Return a, s).

Definition throw {W A} (e : exn) : M W A := fun s => (Throw e, s).

Definition bind {W A B} (m : M W A) (f : A -> M W B) : M W B :=
  fun s =>
    match m s with
    | (Return a, s') => f a s'
    | (Throw e, s') => (Throw e, s')
    end.

(** [try { m } catch (error) { h error }] *)
Definition try_catch {W A} (m : M W A) (h : exn -> M W A) : M W A :=
  fun s =>
    match m s with
    | (Return a, s') => (Return a, s')
    | (Throw e, s') => h e s'
    end.

(** A synchronous method run inside an asynchronous one. *)
Definition lift {W A} (r : result A) : M W A := fun s => (r, s).

Declare Scope js_scope.
Delimit Scope js_scope with js.

Notation "x <- m ;; k" := (bind m (fun x => k))
  (at level 61, m at next level, right associativity) : js_scope.
Notation "m ;;; k" := (bind m (fun _ => k))
  (at level 61, right associativity) : js_scope.

(** Sequencing of synchronous code. *)
Definition rbind {A B} (r : result A) (f : A -> result B) : result B :=
  match r with
  | Return a => f a
  | Throw e => Throw e
  end.

Notation "'let*' x := r 'in' k" := (rbind r (fun x => k))
  (at level 10, x name, r at level 100, k at level 200).

(** [yield this.s3Client.getObject(location).promise()] *)
Definition getObject {W} `{Collaborators W} (location : ImageLocation)
  : M W GetObjectOutput :=
  fun s =>
    let (r, w) := s3Client_getObject location s.(world) in
    (r, {| world := w; trace := (s.(trace) ++ [GetObject location])%list |}).

(** [yield this.secretProvider.getSecret(id)] *)
Definition getSecret {W} `{Collaborators W} (id : option string)
  : M W string :=
  fun s =>
    let (r, w) := secretProvider_getSecret id s.(world) in
    (r, {| world := w; trace := (s.(trace) ++ [GetSecret id])%list |}).

(** ** Conversions and object operations of the language *)

Module Js.

Section WithRuntime.
Context {rt : Runtime}.

Fixpoint join (sep : string) (l : list string) : string :=
  match l with
  | [] => ""
  | [x] => x
  | x :: r => x ++ sep ++ join sep r
  end.

(** ToString, as a template literal applies it. *)
Fixpoint ToString (v : value) : string :=
  match v with
  | VUndefined => "undefined"
  | VNull => "null"
  | VBool true => "true"
  | VBool false => "false"
  | VNumber n => NumberToString n
  | VString s => s
  | VArray elems =>
      join ","
        (map (fun x =>
                match x with
                | VUndefined | VNull => ""
                | _ => ToString x
                end) elems)
  | VObject _ => "[object Object]"
  end.

(** ToNumber *)
Definition ToNumber (v : value) : number :=
  match v with
  | VUndefined => NaN
  | VNull => Finite (0 # 1)
  | VBool true => Finite (1 # 1)
  | VBool false => Finite (0 # 1)
  | VNumber n => n
  | VString s => StringToNumber s
  | VArray _ | VObject _ => StringToNumber (ToString v)
  end.

(** [Math.trunc(v)]: rounding towards zero. *)
Definition Math_trunc (v : value) : number :=
  match ToNumber v with
  | NaN => NaN
  | Infinity s => Infinity s
  | Finite q => Finite (Z.quot (Qnum q) (Z.pos (Qden q)) # 1)
  end.

Definition isNaN (n : number) : bool :=
  match n with
  | NaN => true
  | _ => false
  end.

(** [n >= k] and [n <= k] for an integer constant [k]. *)
Definition ge_int (n : number) (k : Z) : bool :=
  match n with
  | NaN => false
  | Infinity negative => negb negative
  | Finite q => Qle_bool (k # 1) q
  end.

Definition le_int (n : number) (k : Z) : bool :=
  match n with
  | NaN => false
  | Infinity negative => negative
  | Finite q => Qle_bool q (k # 1)
  end.

Definition index_key (i : nat) : string :=
  NilZero.string_of_uint (Nat.to_uint i).

(** [Object.keys(v)]: throws on undefined and null; the indices of a string
    or an array; the own keys of an object. *)
Definition Object_keys (v : value) : result (list string) :=
  match v with
  | VUndefined | VNull =>
      Throw (TypeError "Cannot convert undefined or null to object")
  | VBool _ | VNumber _ => Return []
  | VString s => Return (map index_key (seq 0 (String.length s)))
  | VArray elems => Return (map index_key (seq 0 (List.length elems)))
  | VObject fields => Return (map fst fields)
  end.

(** [obj[k] = v] on the fields of an object, for [k] that is not an array
    index: an existing key keeps its place, a new key goes last. *)
Fixpoint set_field (k : string) (v : value) (fields : list (string * value))
  : list (string * value) :=
  match fields with
  | [] => [(k, v)]
  | (k', v') :: r =>
      if String.eqb k k' then (k', v) :: r else (k', v') :: set_field k v r
  end.

(** [delete obj[k]] *)
Fixpoint delete_field (k : string) (fields : list (string * value))
  : list (string * value) :=
  match fields with
  | [] => []
  | (k', v') :: r =>
      if String.eqb k k' then delete_field k r
      else (k', v') :: delete_field k r
  end.

End WithRuntime.

(** The lower-case hexadecimal digit of a number below 16. *)
Definition hex_digit (n : N) : ascii :=
  match n with
  | 0%N => "0" | 1%N => "1" | 2%N => "2" | 3%N => "3"
  | 4%N => "4" | 5%N => "5" | 6%N => "6" | 7%N => "7"
  | 8%N => "8" | 9%N => "9" | 10%N => "a" | 11%N => "b"
  | 12%N => "c" | 13%N => "d" | 14%N => "e" | _ => "f"
  end%char.

(** [buffer.toString('hex')] *)
Fixpoint Buffer_toString_hex (buffer : list Byte.byte) : string :=
  match buffer with
  | [] => ""
  | b :: r =>
      let n := Byte.to_N b in
      String (hex_digit (N.div n 16))
        (String (hex_digit (N.modulo n 16)) (Buffer_toString_hex r))
  end.

(** [c.toUpperCase()] on an ASCII character. *)
Definition toUpperCase_char (c : ascii) : ascii :=
  let n := nat_of_ascii c in
  if ((97 <=? n) && (n <=? 122))%nat then ascii_of_nat (n - 32) else c.

(** [s.toUpperCase()] on an ASCII string. *)
Fixpoint toUpperCase (s : string) : string :=
  match s with
  | EmptyString => EmptyString
  | String c r => String (toUpperCase_char c) (toUpperCase r)
  end.

(** [buffer.slice(0, n)] *)
Definition Buffer_slice0 (buffer : list Byte.byte) (n : nat)
  : list Byte.byte :=
  firstn n buffer.

(** [mapping[k]] on a mapping from strings to strings. *)
Fixpoint assoc (k : string) (m : list (string * string)) : option string :=
  match m with
  | [] => None
  | (k', v) :: r => if String.eqb k k' then Some v else assoc k r
  end.

(** ToString on a configuration variable. *)
Definition env_ToString (v : option string) : string :=
  match v with
  | Some s => s
  | None => "undefined"
  end.

(** [v !== undefined] on a configuration variable. *)
Definition env_defined (v : option string) : bool :=
  match v with
  | Some _ => true
  | None => false
  end.

(** A configuration variable as a value. *)
Definition env_value (v : option string) : value :=
  match v with
  | Some s => VString s
  | None => VUndefined
  end.

(** [v === s] on a configuration variable. *)
Definition env_is (v : option string) (s : string) : bool :=
  match v with
  | Some t => String.eqb t s
  | None => false
  end.

End Js.

(** ** Constants of ./lib and the mapper of ./thumbor-mapper *)

(** Modelled from the spec: the enumeration [RequestTypes] of ./lib (not
    under src/), the three dialects Default, Thumbor and Custom, each with
    its name as its string value. *)
Module RequestTypes.
Definition DEFAULT : string := "Default".
Definition THUMBOR : string := "Thumbor".
Definition CUSTOM : string := "Custom".
End RequestTypes.

(** Modelled from the spec: the enumeration [ImageFormatTypes] of ./lib (not
    under src/), the recognized encodings jpeg, png, webp, tiff and heif. *)
Module ImageFormatTypes.
Definition JPEG : string := "jpeg".
Definition PNG : string := "png".
Definition WEBP : string := "webp".
Definition TIFF : string := "tiff".
Definition HEIF : string := "heif".
End ImageFormatTypes.

(** The class [ThumborMapper] of ./thumbor-mapper (not under src/), taken as
    a parameter: the two methods the request calls. *)
Class ThumborMapper : Type := {
  mapPathToEdits : string -> result value;
  parseCustomPath : string -> result string
}.

(** ** Records built by the request *)

(** What getOriginalImage returns. *)
Module OriginalImage.
Record t : Type := {
  contentType : string;
  expires : option string;
  lastModified : option string;
  cacheControl : string;
  originalImage : list Byte.byte
}.
End OriginalImage.

(** The image request information that setup returns. An absent property
    is [VUndefined] or [None]. *)
Module Info.
Record t : Type := {
  requestType : string;
  key : value;
  bucket : value;
  edits : value;
  headers : value;
  outputFormat : value;
  contentType : string;
  expires : option string;
  lastModified : option string;
  cacheControl : string;
  originalImage : list Byte.byte;
  reductionEffort : option number
}.

Definition set_outputFormat (v : value) (i : t) : t :=
  {| requestType := i.(requestType); key := i.(key); bucket := i.(bucket);
     edits := i.(edits); headers := i.(headers); outputFormat := v;
     contentType := i.(contentType); expires := i.(expires);
     lastModified := i.(lastModified); cacheControl := i.(cacheControl);
     originalImage := i.(originalImage);
     reductionEffort := i.(reductionEffort) |}.

Definition set_contentType (v : string) (i : t) : t :=
  {| requestType := i.(requestType); key := i.(key); bucket := i.(bucket);
     edits := i.(edits); headers := i.(headers);
     outputFormat := i.(outputFormat);
     contentType := v; expires := i.(expires);
     lastModified := i.(lastModified); cacheControl := i.(cacheControl);
     originalImage := i.(originalImage);
     reductionEffort := i.(reductionEffort) |}.

Definition set_edits (v : value) (i : t) : t :=
  {| requestType := i.(requestType); key := i.(key); bucket := i.(bucket);
     edits := v; headers := i.(headers);
     outputFormat := i.(outputFormat);
     contentType := i.(contentType); expires := i.(expires);
     lastModified := i.(lastModified); cacheControl := i.(cacheControl);
     originalImage := i.(originalImage);
     reductionEffort := i.(reductionEffort) |}.

Definition set_reductionEffort (v : option number) (i : t) : t :=
  {| requestType := i.(requestType); key := i.(key); bucket := i.(bucket);
     edits := i.(edits); headers := i.(headers);
     outputFormat := i.(outputFormat);
     contentType := i.(contentType); expires := i.(expires);
     lastModified := i.(lastModified); cacheControl := i.(cacheControl);
     originalImage := i.(originalImage);
     reductionEffort := v |}.
End Info.

(** ** The class ImageRequest *)

Module ImageRequest.

Definition DEFAULT_REDUCTION_EFFORT : number := Finite (4 # 1).

(** The regular-expression literals of the program text, source and flags. *)
Definition matchDefault_source : string :=
  "^(\/?)([0-9a-zA-Z+/]{4})*(([0-9a-zA-Z+/]{2}==)|([0-9a-zA-Z+/]{3}=))?$".

Definition matchThumbor_source : string :=
  "^(\/?)((fit-in)?|(filters:.+\(.?\))?|(unsafe)?)(((.(?!(\.[^.\\/]+$)))*$)|.*(\.jpg$|.\.png$|\.webp$|\.tiff$|\.jpeg$|\.svg$))".

Definition thumborTokens_source : string :=
  "\/\d+x\d+:\d+x\d+\/|(?<=\/)\d+x\d+\/|filters:[^/]+|\/fit-in(?=\/)|^\/+".

Definition leadingSlashes_source : string := "^\/+".

Definition whitespace_source : string := "\s+".

Section Methods.
Context {rt : Runtime} {mapper : ThumborMapper}.
Variable env : Env.

(** decodeRequest(event) *)
Definition decodeRequest (event : Event) : result value :=
  let path := event.(path) in
  if negb (String.eqb path "") then
    let encoded :=
      if JsString.starts_with_char "/" path then JsString.slice_from path 1
      else path in
    let toBuffer_toString := Buffer_base64_toString encoded in
    match JSON_parse toBuffer_toString with
    | Some decoded => Return decoded
    | None =>
        Throw (ImageHandlerError BAD_REQUEST
          (Some "DecodeRequest::CannotDecodeRequest")
          "The image request you provided could not be decoded. Please check that your request is base64 encoded properly and refer to the documentation for additional guidance.")
    end
  else
    Throw (ImageHandlerError BAD_REQUEST
      (Some "DecodeRequest::CannotReadPath")
      "The URL path you provided could not be read. Please ensure that it is properly formed according to the solution documentation.").

(** parseRequestType(event) *)
Definition parseRequestType (event : Event) : result string :=
  let path := event.(path) in
  let matchDefault := RegExp_literal matchDefault_source "" in
  let matchThumbor := RegExp_literal matchThumbor_source "i" in
  let definedEnvironmentVariables :=
    negb (Js.env_is env.(REWRITE_MATCH_PATTERN) "") &&
    negb (Js.env_is env.(REWRITE_SUBSTITUTION) "") &&
    Js.env_defined env.(REWRITE_MATCH_PATTERN) &&
    Js.env_defined env.(REWRITE_SUBSTITUTION) in
  let isBase64Encoded :=
    match decodeRequest event with
    | Return _ => true
    | Throw _ => false
    end in
  if RegExp_test matchDefault path && isBase64Encoded then
    Return RequestTypes.DEFAULT
  else if definedEnvironmentVariables then
    Return RequestTypes.CUSTOM
  else if RegExp_test matchThumbor path then
    Return RequestTypes.THUMBOR
  else
    Throw (ImageHandlerError BAD_REQUEST (Some "RequestTypeError")
      "The type of request you are making could not be processed. Please ensure that your original image is of a supported file type (jpg, png, tiff, webp, svg) and that your image request is provided in the correct syntax. Refer to the documentation for additional guidance on forming image requests.").

(** getAllowedSourceBuckets() *)
Definition getAllowedSourceBuckets : result (list string) :=
  match env.(SOURCE_BUCKETS) with
  | None =>
      Throw (ImageHandlerError BAD_REQUEST
        (Some "GetAllowedSourceBuckets::NoSourceBuckets")
        "The SOURCE_BUCKETS variable could not be read. Please check that it is not empty and contains at least one source bucket, or multiple buckets separated by commas. Spaces can be provided between commas and bucket names, these will be automatically parsed out when decoding.")
  | Some SOURCE_BUCKETS =>
      Return
        (JsString.split ","
           (RegExp_replace (RegExp_literal whitespace_source "g")
              SOURCE_BUCKETS ""))
  end.

(** The body of the [forEach] of checkImageBucket, run over the list. *)
Fixpoint checkImageBucket_forEach (targetBucket : string)
  (find_bucket_name : option string) (sourceBuckets : list string)
  : option string :=
  match sourceBuckets with
  | [] => find_bucket_name
  | currentElement :: rest =>
      checkImageBucket_forEach targetBucket
        (if JsString.includes currentElement targetBucket
         then Some currentElement
         else find_bucket_name)
        rest
  end.

(** checkImageBucket(sourceBuckets, targetBucket) *)
Definition checkImageBucket (sourceBuckets : list string)
  (targetBucket : string) : option string :=
  let find_bucket_name := env.(DEFAULT_FALLBACK_IMAGE_BUCKET) in
  checkImageBucket_forEach targetBucket find_bucket_name sourceBuckets.

(** [sourceBuckets[0]] inside a string concatenation. *)
Definition first_entry (sourceBuckets : list string) : string :=
  match sourceBuckets with
  | [] => "undefined"
  | b :: _ => b
  end.

(** The test of the explicit bucket against the allowed list:
    [sourceBuckets.includes(bucket) ||
     bucket.match(new RegExp('^' + sourceBuckets[0] + '$'))].
    An array of strings includes no other value than a string; [match] is a
    method of strings only, and the argument of the call is evaluated before
    the call is attempted. *)
Definition bucket_allowed (sourceBuckets : list string) (bucket : value)
  : result bool :=
  match bucket with
  | VString b =>
      if JsString.mem b sourceBuckets then Return true
      else
        let* re := RegExp_new ("^" ++ first_entry sourceBuckets ++ "$") "" in
        Return (RegExp_test re b)
  | VUndefined | VNull =>
      Throw (TypeError "Cannot read property 'match'")
  | _ =>
      let* re := RegExp_new ("^" ++ first_entry sourceBuckets ++ "$") "" in
      Throw (TypeError "request.bucket.match is not a function")
  end.

(** parseImageBucket(event, requestType, image_key) *)
Definition parseImageBucket (event : Event) (requestType : string)
  (image_key : value) : result value :=
  let* sourceBuckets := getAllowedSourceBuckets in
  let* targetBucket :=
    match image_key with
    | VString k => Return (hd "" (JsString.split "/" k))
    | _ => Throw (TypeError "image_key.split is not a function")
    end in
  if String.eqb requestType RequestTypes.DEFAULT then
    let* request := decodeRequest event in
    let* bucket := JsValue.get request "bucket" in
    if JsValue.defined bucket then
      let* allowed := bucket_allowed sourceBuckets bucket in
      if (allowed : bool) then Return bucket
      else
        Throw (ImageHandlerError FORBIDDEN
          (Some "ImageBucket::CannotAccessBucket")
          "The bucket you specified could not be accessed. Please check that the bucket is specified in your SOURCE_BUCKETS.")
    else Return (Js.env_value (checkImageBucket sourceBuckets targetBucket))
  else if String.eqb requestType RequestTypes.THUMBOR
          || String.eqb requestType RequestTypes.CUSTOM then
    Return (Js.env_value (checkImageBucket sourceBuckets targetBucket))
  else
    Throw (ImageHandlerError NOT_FOUND
      (Some "ImageBucket::CannotFindBucket")
      "The bucket you specified could not be found. Please check the spelling of the bucket name in your request.").

(** parseImageEdits(event, requestType) *)
Definition parseImageEdits (event : Event) (requestType : string)
  : result value :=
  if String.eqb requestType RequestTypes.DEFAULT then
    let* decoded := decodeRequest event in
    JsValue.get decoded "edits"
  else if String.eqb requestType RequestTypes.THUMBOR then
    mapPathToEdits event.(path)
  else if String.eqb requestType RequestTypes.CUSTOM then
    let* parsedPath := parseCustomPath event.(path) in
    mapPathToEdits parsedPath
  else
    Throw (ImageHandlerError BAD_REQUEST
      (Some "ImageEdits::CannotParseEdits")
      "The edits you provided could not be parsed. Please check the syntax of your request and refer to the documentation for additional guidance.").

(** The rewrite of the Custom dialect, as the call it makes on the path:
    a replace with a regular expression built from a pattern and flags, or a
    replace with a string pattern; both with the replacement string. *)
Inductive rewrite_call : Type :=
| ReplaceRegExp (pattern flags replacement : string)
| ReplaceString (pattern replacement : string).

(** parseImageKey, lines 305-317: the branch on
    [typeof REWRITE_MATCH_PATTERN === 'string']; which replace is called,
    with which arguments. *)
Definition rewrite_rule : rewrite_call :=
  match env.(REWRITE_MATCH_PATTERN) with
  | Some REWRITE_MATCH_PATTERN' =>
      let patternStrings := JsString.split "/" REWRITE_MATCH_PATTERN' in
      let flags := last patternStrings "" in
      let parsedPatternString :=
        JsString.slice REWRITE_MATCH_PATTERN' 1
          (Z.of_nat (String.length REWRITE_MATCH_PATTERN') - 1
           - Z.of_nat (String.length flags)) in
      ReplaceRegExp parsedPatternString flags
        (Js.env_ToString env.(REWRITE_SUBSTITUTION))
  | None =>
      ReplaceString (Js.env_ToString env.(REWRITE_MATCH_PATTERN))
        (Js.env_ToString env.(REWRITE_SUBSTITUTION))
  end.

(** The call carried out on the path. *)
Definition apply_rewrite (c : rewrite_call) (path : string) : result string :=
  match c with
  | ReplaceRegExp pattern flags replacement =>
      let* regExp := RegExp_new pattern flags in
      Return (RegExp_replace regExp path replacement)
  | ReplaceString pattern replacement =>
      Return (String_replace path pattern replacement)
  end.

(** The expression both [result_path] and the returned value are computed
    by: the Thumbor tokens and the leading slashes are removed, the rest is
    URI-decoded. *)
Definition strip_and_decode (path : string) : result string :=
  decodeURIComponent
    (RegExp_replace (RegExp_literal leadingSlashes_source "")
       (RegExp_replace (RegExp_literal thumborTokens_source "g") path "")
       "").

(** parseImageKey(event, requestType) *)
Definition parseImageKey (event : Event) (requestType : string)
  : result value :=
  if String.eqb requestType RequestTypes.DEFAULT then
    let* decoded := decodeRequest event in
    JsValue.get decoded "key"
  else if String.eqb requestType RequestTypes.THUMBOR
          || String.eqb requestType RequestTypes.CUSTOM then
    let path := event.(path) in
    let* path :=
      if String.eqb requestType RequestTypes.CUSTOM
      then apply_rewrite rewrite_rule path
      else Return path in
    let* result_path := strip_and_decode path in
    let* key := strip_and_decode path in
    Return (VString key)
  else
    Throw (ImageHandlerError NOT_FOUND
      (Some "ImageEdits::CannotFindImage")
      "The image you specified could not be found. Please check your request syntax as well as the bucket you specified to ensure it exists.").

(** parseImageHeaders(event, requestType) *)
Definition parseImageHeaders (event : Event) (requestType : string)
  : result value :=
  if String.eqb requestType RequestTypes.DEFAULT then
    let* decoded := decodeRequest event in
    let* headers := JsValue.get decoded "headers" in
    if JsValue.truthy headers then Return headers else Return VUndefined
  else Return VUndefined.

(** getOutputFormat(event, requestType) *)
Definition getOutputFormat (event : Event) (requestType : string)
  : result value :=
  if Js.env_is env.(AUTO_WEBP) "Yes"
     && match Js.assoc "Accept" event.(headers) with
        | Some Accept =>
            negb (String.eqb Accept "")
            && JsString.includes Accept "image/webp"
        | None => false
        end
  then Return (VString ImageFormatTypes.WEBP)
  else if String.eqb requestType RequestTypes.DEFAULT then
    let* decoded := decodeRequest event in
    JsValue.get decoded "outputFormat"
  else Return VNull.

(** inferImageType(imageBuffer) *)
Definition inferImageType (imageBuffer : list Byte.byte) : result string :=
  let imageSignature :=
    Js.toUpperCase (Js.Buffer_toString_hex (Js.Buffer_slice0 imageBuffer 4)) in
  if String.eqb imageSignature "89504E47" then Return "image/png"
  else if String.eqb imageSignature "FFD8FFDB"
          || String.eqb imageSignature "FFD8FFE0"
          || String.eqb imageSignature "FFD8FFEE"
          || String.eqb imageSignature "FFD8FFE1" then Return "image/jpeg"
  else if String.eqb imageSignature "52494646" then Return "image/webp"
  else if String.eqb imageSignature "49492A00" then Return "image/tiff"
  else if String.eqb imageSignature "4D4D002A" then Return "image/tiff"
  else
    Throw (ImageHandlerError INTERNAL_SERVER_ERROR (Some "RequestTypeError")
      "The file does not have an extension and the file type could not be inferred. Please ensure that your original image is of a supported file type (jpg, png, tiff, webp, svg). Refer to the documentation for additional guidance on forming image requests.").

End Methods.

Section Setup.
Context {rt : Runtime} {mapper : ThumborMapper}.
Variable env : Env.

(** setup, lines 79-86: the test on an SVG original; it has edits, and no
    output format among them, so the output format becomes PNG. *)
Definition setup_svg (info : Info.t) : result Info.t :=
  if String.eqb info.(Info.contentType) "image/svg+xml"
     && JsValue.truthy info.(Info.edits) then
    let* keys := Js.Object_keys info.(Info.edits) in
    if (0 <? List.length keys)%nat then
      let* toFormat := JsValue.get info.(Info.edits) "toFormat" in
      if negb (JsValue.truthy toFormat)
      then Return (Info.set_outputFormat (VString ImageFormatTypes.PNG) info)
      else Return info
    else Return info
  else Return info.

(** setup, lines 99-112: the reduction effort of a WebP output of a Default
    request. *)
Definition setup_reductionEffort (event : Event) (outputFormat : value)
  (info : Info.t) : result Info.t :=
  if JsValue.strict_eq_string outputFormat ImageFormatTypes.WEBP
     && String.eqb info.(Info.requestType) RequestTypes.DEFAULT then
    let* decoded := decodeRequest event in
    let* decoded_reductionEffort := JsValue.get decoded "reductionEffort" in
    if JsValue.defined decoded_reductionEffort then
      let reductionEffort := Js.Math_trunc decoded_reductionEffort in
      let isValid :=
        negb (Js.isNaN reductionEffort)
        && Js.ge_int reductionEffort 0 && Js.le_int reductionEffort 6 in
      Return
        (Info.set_reductionEffort
           (Some (if isValid then reductionEffort
                  else DEFAULT_REDUCTION_EFFORT)) info)
    else Return info
  else Return info.

(** setup, lines 92-118: the decision on the output format. *)
Definition setup_outputFormat (event : Event) (info : Info.t)
  : result Info.t :=
  let* decide :=
    if negb (String.eqb info.(Info.contentType) "image/svg+xml")
    then Return true
    else
      let* toFormat := JsValue.get info.(Info.edits) "toFormat" in
      Return (JsValue.truthy toFormat
              || JsValue.truthy info.(Info.outputFormat)) in
  if (decide : bool) then
    let* outputFormat := getOutputFormat env event info.(Info.requestType) in
    let* info := setup_reductionEffort event outputFormat info in
    let* edits_toFormat :=
      if JsValue.truthy info.(Info.edits)
      then JsValue.get info.(Info.edits) "toFormat"
      else Return VUndefined in
    if JsValue.truthy edits_toFormat
    then Return (Info.set_outputFormat edits_toFormat info)
    else if JsValue.truthy outputFormat
    then Return (Info.set_outputFormat outputFormat info)
    else Return info
  else Return info.

Definition acceptedValues : list string :=
  [ImageFormatTypes.JPEG; ImageFormatTypes.PNG; ImageFormatTypes.WEBP;
   ImageFormatTypes.TIFF; ImageFormatTypes.HEIF].

(** [acceptedValues.includes(v)] *)
Definition accepted (v : value) : bool :=
  match v with
  | VString s => JsString.mem s acceptedValues
  | _ => false
  end.

(** The two assignments on the edits:
    [edits[outputFormat] = edits[qualityKey]; delete edits[qualityKey]]. *)
Definition rename_key (qualityKey outputFormat : string) (edits : value)
  : value :=
  match edits with
  | VObject fields =>
      VObject
        (Js.delete_field qualityKey
           (Js.set_field outputFormat (JsValue.lookup qualityKey fields)
              fields))
  | _ => edits
  end.

(** setup, lines 120-143: the quality key of a Thumbor or Custom request is
    made the one of the output format. *)
Definition setup_quality (info : Info.t) : result Info.t :=
  if JsValue.truthy info.(Info.outputFormat) then
    let requestType := [RequestTypes.CUSTOM; RequestTypes.THUMBOR] in
    let info :=
      Info.set_contentType ("image/" ++ Js.ToString info.(Info.outputFormat))
        info in
    if JsString.mem info.(Info.requestType) requestType
       && accepted info.(Info.outputFormat) then
      let* keys := Js.Object_keys info.(Info.edits) in
      match filter (fun key => JsString.mem key acceptedValues) keys with
      | qualityKey :: _ =>
          if negb (String.eqb qualityKey "")
             && negb (JsValue.strict_eq_string info.(Info.outputFormat)
                        qualityKey)
          then
            Return
              (Info.set_edits
                 (rename_key qualityKey (Js.ToString info.(Info.outputFormat))
                    info.(Info.edits)) info)
          else Return info
      | [] => Return info
      end
    else Return info
  else Return info.

Section Async.
Context {W : Type} {collaborators : Collaborators W}.

Local Open Scope js_scope.

(** getOriginalImage(bucket, key) *)
Definition getOriginalImage (bucket key : value) : M W OriginalImage.t :=
  try_catch
    (let imageLocation := {| Bucket := bucket; Key := key |} in
     originalImage <- getObject imageLocation ;;
     let imageBuffer := originalImage.(Body) in
     contentType <-
       lift
         (match originalImage.(ContentType) with
          | Some ContentType' =>
              if negb (String.eqb ContentType' "") then
                if JsString.mem ContentType'
                     ["binary/octet-stream"; "application/octet-stream"]
                then inferImageType imageBuffer
                else Return ContentType'
              else Return "image"
          | None => Return "image"
          end) ;;
     ret {| OriginalImage.contentType := contentType;
            OriginalImage.expires :=
              option_map Date_toUTCString originalImage.(Expires);
            OriginalImage.lastModified :=
              option_map Date_toUTCString originalImage.(LastModified);
            OriginalImage.cacheControl :=
              match originalImage.(CacheControl) with
              | Some c => c
              | None => "max-age=31536000,public"
              end;
            OriginalImage.originalImage := imageBuffer |})
    (fun error =>
       let noSuchKey :=
         match exn_code error with
         | Some c => String.eqb c "NoSuchKey"
         | None => false
         end in
       let status := if noSuchKey then NOT_FOUND else INTERNAL_SERVER_ERROR in
       let message :=
         if noSuchKey then
           "The image " ++ Js.ToString key
           ++ " does not exist or the request may not be base64 encoded properly."
         else exn_message error in
       throw (ImageHandlerError status (exn_code error) message)).

(** validateRequestSignature(event) *)
Definition validateRequestSignature (event : Event) : M W unit :=
  if Js.env_is env.(ENABLE_SIGNATURE) "Yes" then
    let path := event.(path) in
    let queryStringParameters := event.(queryStringParameters) in
    match
      match queryStringParameters with
      | None => None
      | Some parameters => Js.assoc "signature" parameters
      end
    with
    | Some signature =>
        if negb (String.eqb signature "") then
          try_catch
            (secretString <- getSecret env.(SECRETS_MANAGER) ;;
             secret <-
               lift
                 (match JSON_parse secretString with
                  | Some v => Return v
                  | None =>
                      Throw (NativeError "SyntaxError" None
                               "Unexpected token in JSON")
                  end) ;;
             key <- lift (JsValue.get secret (Js.env_ToString env.(SECRET_KEY))) ;;
             hash <- lift (createHmac_sha256_hex key path) ;;
             if negb (String.eqb signature hash) then
               throw (ImageHandlerError FORBIDDEN
                        (Some "SignatureDoesNotMatch")
                        "Signature does not match.")
             else ret tt)
            (fun error =>
               if match exn_code error with
                  | Some c => String.eqb c "SignatureDoesNotMatch"
                  | None => false
                  end
               then throw error
               else
                 throw (ImageHandlerError INTERNAL_SERVER_ERROR
                          (Some "SignatureValidationFailure")
                          "Signature validation failed."))
        else
          throw (ImageHandlerError BAD_REQUEST
                   (Some "AuthorizationQueryParametersError")
                   "Query-string requires the signature parameter.")
    | None =>
        throw (ImageHandlerError BAD_REQUEST
                 (Some "AuthorizationQueryParametersError")
                 "Query-string requires the signature parameter.")
    end
  else ret tt.

(** The key of the default image: [originKey.substring(0,
    originKey.lastIndexOf('/') + 1) + 'default.jpg']. *)
Definition default_key (originKey : string) : string :=
  JsString.substring0 originKey
    (JsString.lastIndexOf_succ "/" (JsString.to_list originKey))
  ++ "default.jpg".

(** setup, lines 63-70: the first fetch of the object and its [catch]. *)
Definition setup_probe (bucket key : value) : M W value :=
  try_catch
    (let imageLocation := {| Bucket := bucket; Key := key |} in
     getObject imageLocation ;;; ret key)
    (fun _ =>
       let originKey := key in
       match originKey with
       | VString originKey' => ret (VString (default_key originKey'))
       | _ => throw (TypeError "originKey.substring is not a function")
       end).

(** setup(event), lines 51-150; the [catch] of the whole body logs the error
    and throws it again. *)
Definition setup (event : Event) : M W Info.t :=
  try_catch
    (validateRequestSignature event ;;;
     requestType <- lift (parseRequestType env event) ;;
     key <- lift (parseImageKey env event requestType) ;;
     bucket <- lift (parseImageBucket env event requestType key) ;;
     key <- setup_probe bucket key ;;
     edits <- lift (parseImageEdits event requestType) ;;
     originalImage <- getOriginalImage bucket key ;;
     headers <- lift (parseImageHeaders event requestType) ;;
     let imageRequestInfo :=
       {| Info.requestType := requestType;
          Info.key := key;
          Info.bucket := bucket;
          Info.edits := edits;
          Info.headers := headers;
          Info.outputFormat := VUndefined;
          Info.contentType := originalImage.(OriginalImage.contentType);
          Info.expires := originalImage.(OriginalImage.expires);
          Info.lastModified := originalImage.(OriginalImage.lastModified);
          Info.cacheControl := originalImage.(OriginalImage.cacheControl);
          Info.originalImage := originalImage.(OriginalImage.originalImage);
          Info.reductionEffort := None |} in
     imageRequestInfo <- lift (setup_svg imageRequestInfo) ;;
     imageRequestInfo <- lift (setup_outputFormat event imageRequestInfo) ;;
     imageRequestInfo <- lift (setup_quality imageRequestInfo) ;;
     ret imageRequestInfo)
    (fun error => throw error).

End Async.
End Setup.
End ImageRequest.

(** * A small runtime, for running the model on examples *)

(** ** Regular expressions

    A backtracking matcher for the part of the regular-expression syntax
    that the literals of the program use: alternation, groups, the
    quantifiers [*], [+], [?], [{n}], [{n,}] and [{n,m}], character classes,
    the escapes [\d], [\w], [\s] and their negations, the dot, the anchors,
    look-ahead and look-behind, and the flags [g] and [i]. *)

Module MiniRegExp.

(** An item of a character class. *)
Inductive item : Type :=
| IChar (c : ascii)
| IRange (lo hi : ascii)
| IDigit (negated : bool)
| IWord (negated : bool)
| ISpace (negated : bool).

Inductive regex : Type :=
| Empty
| Class (negated : bool) (items : list item)
| Dot
| Seq (a b : regex)
| Alt (a b : regex)
| Star (a : regex)
| Bol
| Eol
| LookAhead (negated : bool) (a : regex)
| LookBehind (negated : bool) (a : regex).

Definition is_digit (c : ascii) : bool :=
  let n := nat_of_ascii c in ((48 <=? n) && (n <=? 57))%nat.

Definition is_word (c : ascii) : bool :=
  let n := nat_of_ascii c in
  (((48 <=? n) && (n <=? 57)) || ((65 <=? n) && (n <=? 90))
   || ((97 <=? n) && (n <=? 122)) || (n =? 95))%nat.

(** White space and line terminators below 256. *)
Definition is_space (c : ascii) : bool :=
  let n := nat_of_ascii c in
  (((9 <=? n) && (n <=? 13)) || (n =? 32) || (n =? 160))%nat.

Definition is_line_terminator (c : ascii) : bool :=
  let n := nat_of_ascii c in ((n =? 10) || (n =? 13))%nat.

Definition lower (c : ascii) : ascii :=
  let n := nat_of_ascii c in
  if ((65 <=? n) && (n <=? 90))%nat then ascii_of_nat (n + 32) else c.

Definition upper (c : ascii) : ascii :=
  let n := nat_of_ascii c in
  if ((97 <=? n) && (n <=? 122))%nat then ascii_of_nat (n - 32) else c.

Definition item_has (c : ascii) (i : item) : bool :=
  match i with
  | IChar d => Ascii.eqb c d
  | IRange lo hi =>
      ((nat_of_ascii lo <=? nat_of_ascii c)
       && (nat_of_ascii c <=? nat_of_ascii hi))%nat
  | IDigit negated => xorb negated (is_digit c)
  | IWord negated => xorb negated (is_word c)
  | ISpace negated => xorb negated (is_space c)
  end.

(** The character is in the class; with the flag i, one of its two cases
    is. *)
Definition class_has (ignoreCase negated : bool) (items : list item)
  (c : ascii) : bool :=
  xorb negated
    (if ignoreCase
     then existsb (item_has (lower c)) items
          || existsb (item_has (upper c)) items
     else existsb (item_has c) items).

(** A position in the input: the characters before it, the nearest first,
    and the characters from it on. *)
Definition position : Type := (list ascii * list ascii)%type.

Definition rest_length (p : position) : nat := List.length (snd p).

(** The positions at and before a position, the nearest first. *)
Fixpoint positions_back (before after : list ascii) : list position :=
  (before, after) ::
  match before with
  | [] => []
  | c :: before' => positions_back before' (c :: after)
  end.

(** [run ignoreCase r p k]: the first way, in the order of priority of a
    backtracking matcher, to match [r] from [p] so that the continuation [k]
    accepts the position reached. An iteration of a star that matches the
    empty string is rejected. *)
Fixpoint run (ignoreCase : bool) (r : regex) (p : position)
  (k : position -> option position) {struct r} : option position :=
  match r with
  | Empty => k p
  | Class negated items =>
      match snd p with
      | c :: after =>
          if class_has ignoreCase negated items c
          then k (c :: fst p, after)
          else None
      | [] => None
      end
  | Dot =>
      match snd p with
      | c :: after =>
          if is_line_terminator c then None else k (c :: fst p, after)
      | [] => None
      end
  | Seq a b => run ignoreCase a p (fun p' => run ignoreCase b p' k)
  | Alt a b =>
      match run ignoreCase a p k with
      | Some q => Some q
      | None => run ignoreCase b p k
      end
  | Star a =>
      (fix iterate (fuel : nat) (p : position) {struct fuel}
         : option position :=
         match fuel with
         | 0 => k p
         | S fuel' =>
             match
               run ignoreCase a p
                 (fun p' =>
                    if (rest_length p' <? rest_length p)%nat
                    then iterate fuel' p'
                    else None)
             with
             | Some q => Some q
             | None => k p
             end
         end) (rest_length p) p
  | Bol => match fst p with [] => k p | _ :: _ => None end
  | Eol => match snd p with [] => k p | _ :: _ => None end
  | LookAhead negated a =>
      match run ignoreCase a p (fun p' => Some p') with
      | Some _ => if negated then None else k p
      | None => if negated then k p else None
      end
  | LookBehind negated a =>
      if existsb
           (fun start =>
              match
                run ignoreCase a start
                  (fun p' =>
                     if (rest_length p' =? rest_length p)%nat
                     then Some p' else None)
              with
              | Some _ => true
              | None => false
              end)
           (positions_back (fst p) (snd p))
      then (if negated then None else k p)
      else (if negated then k p else None)
  end.

(** The match of [r] that starts at [p], if any: the position it ends at. *)
Definition match_at (ignoreCase : bool) (r : regex) (p : position)
  : option position :=
  run ignoreCase r p (fun p' => Some p').

(** The leftmost match from [p] on: where it starts and where it ends. *)
Fixpoint search (ignoreCase : bool) (r : regex) (before after : list ascii)
  {struct after} : option (position * position) :=
  match match_at ignoreCase r (before, after) with
  | Some q => Some ((before, after), q)
  | None =>
      match after with
      | [] => None
      | c :: after' => search ignoreCase r (c :: before) after'
      end
  end.

(** *** The syntax *)

Fixpoint repeat_exact (n : nat) (a : regex) : regex :=
  match n with
  | 0 => Empty
  | S n' => Seq a (repeat_exact n' a)
  end.

Fixpoint repeat_upto (n : nat) (a : regex) : regex :=
  match n with
  | 0 => Empty
  | S n' => Alt (Seq a (repeat_upto n' a)) Empty
  end.

(** The number a run of decimal digits stands for, and what follows it. *)
Fixpoint digits (acc : nat) (seen : bool) (s : list ascii)
  : option (nat * list ascii) :=
  match s with
  | c :: r =>
      if is_digit c
      then digits (10 * acc + (nat_of_ascii c - 48)) true r
      else if seen then Some (acc, s) else None
  | [] => if seen then Some (acc, s) else None
  end.

(** A quantifier after the atom [a], if there is one. A lazy quantifier does
    not parse. *)
Definition quantified (a : regex) (s : list ascii)
  : option (regex * list ascii) :=
  let not_lazy (r : regex) (rest : list ascii) :=
    match rest with
    | "?"%char :: _ => None
    | _ => Some (r, rest)
    end in
  match s with
  | "*"%char :: rest => not_lazy (Star a) rest
  | "+"%char :: rest => not_lazy (Seq a (Star a)) rest
  | "?"%char :: rest => not_lazy (Alt a Empty) rest
  | "{"%char :: rest =>
      match digits 0 false rest with
      | Some (n, "}"%char :: rest') => not_lazy (repeat_exact n a) rest'
      | Some (n, ","%char :: "}"%char :: rest') =>
          not_lazy (Seq (repeat_exact n a) (Star a)) rest'
      | Some (n, ","%char :: rest') =>
          match digits 0 false rest' with
          | Some (m, "}"%char :: rest'') =>
              if (n <=? m)%nat
              then not_lazy
                     (Seq (repeat_exact n a) (repeat_upto (m - n) a)) rest''
              else None
          | _ => None
          end
      | _ => None
      end
  | _ => Some (a, s)
  end.

Definition is_alphanumeric (c : ascii) : bool :=
  is_word c && negb (Ascii.eqb c "_").

(** The item an escape [\c] stands for. *)
Definition escape (c : ascii) : option item :=
  match c with
  | "d"%char => Some (IDigit false)
  | "D"%char => Some (IDigit true)
  | "w"%char => Some (IWord false)
  | "W"%char => Some (IWord true)
  | "s"%char => Some (ISpace false)
  | "S"%char => Some (ISpace true)
  | "n"%char => Some (IChar (ascii_of_nat 10))
  | "r"%char => Some (IChar (ascii_of_nat 13))
  | "t"%char => Some (IChar (ascii_of_nat 9))
  | _ => if is_alphanumeric c then None else Some (IChar c)
  end.

(** One member of a character class: a character or an escape. *)
Definition class_atom (s : list ascii) : option (item * list ascii) :=
  match s with
  | "\"%char :: c :: rest =>
      match escape c with
      | Some i => Some (i, rest)
      | None => None
      end
  | "\"%char :: [] => None
  | c :: rest => Some (IChar c, rest)
  | [] => None
  end.

(** The items of a character class, up to its closing bracket. *)
Fixpoint class_items (fuel : nat) (s : list ascii)
  : option (list item * list ascii) :=
  match fuel with
  | 0 => None
  | S fuel' =>
      match s with
      | "]"%char :: rest => Some ([], rest)
      | _ =>
          match class_atom s with
          | Some (IChar lo, "-"%char :: rest) =>
              match rest with
              | "]"%char :: _ =>
                  match class_items fuel' rest with
                  | Some (more, rest') =>
                      Some (IChar lo :: IChar "-" :: more, rest')
                  | None => None
                  end
              | _ =>
                  match class_atom rest with
                  | Some (IChar hi, rest') =>
                      if (nat_of_ascii lo <=? nat_of_ascii hi)%nat then
                        match class_items fuel' rest' with
                        | Some (more, rest'') => Some (IRange lo hi :: more, rest'')
                        | None => None
                        end
                      else None
                  | _ => None
                  end
              end
          | Some (i, rest) =>
              match class_items fuel' rest with
              | Some (more, rest') => Some (i :: more, rest')
              | None => None
              end
          | None => None
          end
      end
  end.

(** The three levels of the grammar: a disjunction of alternatives, an
    alternative of terms, a term. *)
Fixpoint disjunction (fuel : nat) (s : list ascii)
  : option (regex * list ascii) :=
  match fuel with
  | 0 => None
  | S fuel' =>
      match alternative fuel' s with
      | Some (a, "|"%char :: rest) =>
          match disjunction fuel' rest with
          | Some (b, rest') => Some (Alt a b, rest')
          | None => None
          end
      | other => other
      end
  end
with alternative (fuel : nat) (s : list ascii)
  : option (regex * list ascii) :=
  match fuel with
  | 0 => None
  | S fuel' =>
      match s with
      | [] => Some (Empty, s)
      | "|"%char :: _ => Some (Empty, s)
      | ")"%char :: _ => Some (Empty, s)
      | _ =>
          match term fuel' s with
          | Some (a, rest) =>
              match alternative fuel' rest with
              | Some (Empty, rest') => Some (a, rest')
              | Some (b, rest') => Some (Seq a b, rest')
              | None => None
              end
          | None => None
          end
      end
  end
with term (fuel : nat) (s : list ascii) : option (regex * list ascii) :=
  match fuel with
  | 0 => None
  | S fuel' =>
      let group (wrap : regex -> regex) (quantify : bool)
                (body : list ascii) :=
        match disjunction fuel' body with
        | Some (a, ")"%char :: rest) =>
            if quantify then quantified (wrap a) rest
            else Some (wrap a, rest)
        | _ => None
        end in
      match s with
      | "^"%char :: rest => Some (Bol, rest)
      | "$"%char :: rest => Some (Eol, rest)
      | "("%char :: "?"%char :: ":"%char :: rest =>
          group (fun a => a) true rest
      | "("%char :: "?"%char :: "="%char :: rest =>
          group (LookAhead false) false rest
      | "("%char :: "?"%char :: "!"%char :: rest =>
          group (LookAhead true) false rest
      | "("%char :: "?"%char :: "<"%char :: "="%char :: rest =>
          group (LookBehind false) false rest
      | "("%char :: "?"%char :: "<"%char :: "!"%char :: rest =>
          group (LookBehind true) false rest
      | "("%char :: "?"%char :: _ => None
      | "("%char :: rest => group (fun a => a) true rest
      | "["%char :: "^"%char :: rest =>
          match class_items fuel' rest with
          | Some (more, rest') => quantified (Class true more) rest'
          | None => None
          end
      | "["%char :: rest =>
          match class_items fuel' rest with
          | Some (more, rest') => quantified (Class false more) rest'
          | None => None
          end
      | "."%char :: rest => quantified Dot rest
      | "\"%char :: c :: rest =>
          match escape c with
          | Some i => quantified (Class false [i]) rest
          | None => None
          end
      | "\"%char :: [] => None
      | "*"%char :: _ => None
      | "+"%char :: _ => None
      | "?"%char :: _ => None
      | "{"%char :: _ => None
      | "}"%char :: _ => None
      | "]"%char :: _ => None
      | c :: rest => quantified (Class false [IChar c]) rest
      | [] => None
      end
  end.

Fixpoint list_of_string (s : string) : list ascii :=
  match s with
  | EmptyString => []
  | String c r => c :: list_of_string r
  end.

Fixpoint string_of_list (l : list ascii) : string :=
  match l with
  | [] => EmptyString
  | c :: r => String c (string_of_list r)
  end.

(** The pattern of a source text; [None] when it is not in the syntax. *)
Definition parse (source : string) : option regex :=
  let s := list_of_string source in
  match disjunction (S (S (3 * List.length s))) s with
  | Some (r, []) => Some r
  | _ => None
  end.

(** A compiled regular expression: its pattern and its two flags. *)
Record compiled : Type := {
  pattern : regex;
  global : bool;
  ignoreCase : bool
}.

(** The flags g and i, each at most once; no other flag. *)
Definition parse_flags (flags : string) : option (bool * bool) :=
  match flags with
  | "" => Some (false, false)
  | "g" => Some (true, false)
  | "i" => Some (false, true)
  | "gi" => Some (true, true)
  | "ig" => Some (true, true)
  | _ => None
  end.

Definition compile (source flags : string) : option compiled :=
  match parse source, parse_flags flags with
  | Some r, Some (g, i) =>
      Some {| pattern := r; global := g; ignoreCase := i |}
  | _, _ => None
  end.

(** [re.test(s)] *)
Definition test (re : compiled) (s : string) : bool :=
  match search re.(ignoreCase) re.(pattern) [] (list_of_string s) with
  | Some _ => true
  | None => false
  end.

(** The input with its matches replaced, from a position on; [done] is the
    output so far, reversed. After an empty match the next character is
    copied. *)
Fixpoint replace_from (fuel : nat) (re : compiled) (replacement : list ascii)
  (before after : list ascii) (done : list ascii) : list ascii :=
  match fuel with
  | 0 => (rev done ++ after)%list
  | S fuel' =>
      match search re.(ignoreCase) re.(pattern) before after with
      | None => (rev done ++ after)%list
      | Some ((before1, after1), (before2, after2)) =>
          let skipped := List.length after - List.length after1 in
          let done1 :=
            (rev replacement ++ rev (firstn skipped after) ++ done)%list in
          if negb re.(global) then (rev done1 ++ after2)%list
          else if (List.length after2 <? List.length after1)%nat
          then replace_from fuel' re replacement before2 after2 done1
          else
            match after2 with
            | [] => rev done1
            | c :: after3 =>
                replace_from fuel' re replacement (c :: before2) after3
                  (c :: done1)
            end
      end
  end.

(** [s.replace(re, replacement)], for a replacement without [$]. *)
Definition replace (re : compiled) (s replacement : string) : string :=
  let l := list_of_string s in
  string_of_list
    (replace_from (S (List.length l)) re (list_of_string replacement) [] l
       []).

End MiniRegExp.

(** ** Base64, JSON, URI components and numbers *)

Module MiniCodec.

Definition code (c : ascii) : nat := nat_of_ascii c.

(** The value of a character of the base64 alphabet (the URL-safe characters
    included). *)
Definition sextet (c : ascii) : option N :=
  let n := code c in
  if ((65 <=? n) && (n <=? 90))%nat then Some (N.of_nat (n - 65))
  else if ((97 <=? n) && (n <=? 122))%nat then Some (N.of_nat (n - 71))
  else if ((48 <=? n) && (n <=? 57))%nat then Some (N.of_nat (n + 4))
  else if ((n =? 43) || (n =? 45))%nat then Some 62%N
  else if ((n =? 47) || (n =? 95))%nat then Some 63%N
  else None.

(** The sextets of a text, up to the first padding character; characters
    outside the alphabet are skipped. *)
Fixpoint sextets (l : list ascii) : list N :=
  match l with
  | [] => []
  | c :: r =>
      if Ascii.eqb c "=" then []
      else
        match sextet c with
        | Some v => v :: sextets r
        | None => sextets r
        end
  end.

Definition byte_of (n : N) : ascii := ascii_of_N (N.modulo n 256).

(** The bytes of a list of sextets; the bits of an incomplete last byte are
    dropped. *)
Fixpoint bytes_of_sextets (l : list N) : list ascii :=
  match l with
  | a :: b :: c :: d :: r =>
      byte_of (a * 4 + b / 16)
      :: byte_of ((b mod 16) * 16 + c / 4)
      :: byte_of ((c mod 4) * 64 + d)
      :: bytes_of_sextets r
  | [a; b; c] =>
      [byte_of (a * 4 + b / 16); byte_of ((b mod 16) * 16 + c / 4)]
  | [a; b] => [byte_of (a * 4 + b / 16)]
  | _ => []
  end%N.

(** [Buffer.from(s, 'base64').toString()], for a payload of ASCII
    characters. *)
Definition base64_toString (s : string) : string :=
  MiniRegExp.string_of_list
    (bytes_of_sextets (sextets (MiniRegExp.list_of_string s))).

(** *** JSON *)

Fixpoint skip_ws (l : list ascii) : list ascii :=
  match l with
  | c :: r =>
      let n := code c in
      if ((n =? 32) || (n =? 9) || (n =? 10) || (n =? 13))%nat
      then skip_ws r else l
  | [] => []
  end.

Definition hex_value (c : ascii) : option nat :=
  let n := code c in
  if ((48 <=? n) && (n <=? 57))%nat then Some (n - 48)
  else if ((65 <=? n) && (n <=? 70))%nat then Some (n - 55)
  else if ((97 <=? n) && (n <=? 102))%nat then Some (n - 87)
  else None.

(** The characters of a string literal after its opening quote, and what
    follows its closing quote. *)
Fixpoint string_body (l : list ascii) (acc : list ascii)
  : option (string * list ascii) :=
  match l with
  | [] => None
  | c :: r =>
      if (code c =? 34)%nat then Some (MiniRegExp.string_of_list (rev acc), r)
      else if (code c <? 32)%nat then None
      else if (code c =? 92)%nat then
        match r with
        | e :: r' =>
            let plain (x : nat) := string_body r' (ascii_of_nat x :: acc) in
            match code e with
            | 34 => plain 34
            | 92 => plain 92
            | 47 => plain 47
            | 98 => plain 8
            | 102 => plain 12
            | 110 => plain 10
            | 114 => plain 13
            | 116 => plain 9
            | _ => None
            end
        | [] => None
        end
      else string_body r (c :: acc)
  end.

Fixpoint digit_run (l : list ascii) (acc : N) (count : nat)
  : N * nat * list ascii :=
  match l with
  | c :: r =>
      if MiniRegExp.is_digit c
      then digit_run r (10 * acc + N.of_nat (code c - 48))%N (S count)
      else (acc, count, l)
  | [] => (acc, count, l)
  end.

(** A number literal: an optional minus sign, an integer part without a
    leading zero, an optional fraction; no exponent. The number is the
    rational that the literal denotes. *)
Definition number_literal (l : list ascii) : option (Q * list ascii) :=
  let (negative, l1) :=
    match l with
    | "-"%char :: r => (true, r)
    | _ => (false, l)
    end in
  match l1 with
  | c :: c' :: _ =>
      if Ascii.eqb c "0" && MiniRegExp.is_digit c' then None else
      let '(int, n, l2) := digit_run l1 0%N 0 in
      if (n =? 0)%nat then None else
      let sign (z : Z) := if negative then (- z)%Z else z in
      match l2 with
      | "."%char :: l3 =>
          let '(frac, m, l4) := digit_run l3 0%N 0 in
          if (m =? 0)%nat then None
          else
            match l4 with
            | "e"%char :: _ | "E"%char :: _ => None
            | _ =>
                Some
                  (Qred
                     (Qmake (sign (Z.of_N (int * 10 ^ N.of_nat m + frac)))
                        (Pos.of_nat (10 ^ m))), l4)
            end
      | "e"%char :: _ | "E"%char :: _ => None
      | _ => Some (Qmake (sign (Z.of_N int)) 1, l2)
      end
  | [c] =>
      if MiniRegExp.is_digit c
      then Some (Qmake (if negative then (- Z.of_nat (code c - 48))%Z
                        else Z.of_nat (code c - 48)) 1, [])
      else None
  | [] => None
  end.

Fixpoint starts_with (p l : list ascii) : option (list ascii) :=
  match p, l with
  | [], _ => Some l
  | a :: p', b :: l' => if Ascii.eqb a b then starts_with p' l' else None
  | _ :: _, [] => None
  end.

(** A JSON value and what follows it. *)
Fixpoint json_value (fuel : nat) (l : list ascii)
  : option (value * list ascii) :=
  match fuel with
  | 0 => None
  | S fuel' =>
      let members :=
        fix members (n : nat) (l : list ascii)
                    (acc : list (string * value)) {struct n}
          : option (value * list ascii) :=
          match n with
          | 0 => None
          | S n' =>
              match skip_ws l with
              | c :: r =>
                  if (code c =? 34)%nat then
                    match string_body r [] with
                    | Some (k, r1) =>
                        match skip_ws r1 with
                        | ":"%char :: r2 =>
                            match json_value fuel' r2 with
                            | Some (v, r3) =>
                                let acc' := Js.set_field k v acc in
                                match skip_ws r3 with
                                | ","%char :: r4 => members n' r4 acc'
                                | "}"%char :: r4 => Some (VObject acc', r4)
                                | _ => None
                                end
                            | None => None
                            end
                        | _ => None
                        end
                    | None => None
                    end
                  else None
              | [] => None
              end
          end in
      let elements :=
        fix elements (n : nat) (l : list ascii) (acc : list value)
                     {struct n} : option (value * list ascii) :=
          match n with
          | 0 => None
          | S n' =>
              match json_value fuel' l with
              | Some (v, r) =>
                  match skip_ws r with
                  | ","%char :: r' => elements n' r' (v :: acc)
                  | "]"%char :: r' => Some (VArray (rev (v :: acc)), r')
                  | _ => None
                  end
              | None => None
              end
          end in
      match skip_ws l with
      | [] => None
      | c :: r =>
          if (code c =? 34)%nat then
            match string_body r [] with
            | Some (s, r') => Some (VString s, r')
            | None => None
            end
          else if Ascii.eqb c "{" then
            match skip_ws r with
            | "}"%char :: r' => Some (VObject [], r')
            | _ => members (List.length r) r []
            end
          else if Ascii.eqb c "[" then
            match skip_ws r with
            | "]"%char :: r' => Some (VArray [], r')
            | _ => elements (List.length r) r []
            end
          else
            match starts_with (MiniRegExp.list_of_string "true") (c :: r),
                  starts_with (MiniRegExp.list_of_string "false") (c :: r),
                  starts_with (MiniRegExp.list_of_string "null") (c :: r)
            with
            | Some r', _, _ => Some (VBool true, r')
            | _, Some r', _ => Some (VBool false, r')
            | _, _, Some r' => Some (VNull, r')
            | _, _, _ =>
                match number_literal (c :: r) with
                | Some (q, r') => Some (VNumber (Finite q), r')
                | None => None
                end
            end
      end
  end.

(** [JSON.parse(s)] on the JSON texts without exponents and without
    [\u] escapes. *)
Definition JSON_parse (s : string) : option value :=
  let l := MiniRegExp.list_of_string s in
  match json_value (S (List.length l)) l with
  | Some (v, r) =>
      match skip_ws r with
      | [] => Some v
      | _ :: _ => None
      end
  | None => None
  end.

End MiniCodec.

(** ** URI components, numbers, dates and the replace of strings *)

Module MiniMisc.

Definition URIError : exn := NativeError "URIError" None "URI malformed".

(** [decodeURIComponent(s)], for escapes of characters below 256: an escape
    of one byte below 128, or the two bytes of the UTF-8 form of a character
    from 128 to 255. *)
Fixpoint decode_uri (fuel : nat) (l : list ascii) (acc : list ascii)
  : result string :=
  match fuel with
  | 0 => Throw URIError
  | S fuel' =>
      match l with
      | [] => Return (MiniRegExp.string_of_list (rev acc))
      | "%"%char :: a :: b :: r =>
          match MiniCodec.hex_value a, MiniCodec.hex_value b with
          | Some x, Some y =>
              let n := 16 * x + y in
              if (n <? 128)%nat then decode_uri fuel' r (ascii_of_nat n :: acc)
              else if ((n =? 194) || (n =? 195))%nat then
                match r with
                | "%"%char :: c :: d :: r' =>
                    match MiniCodec.hex_value c, MiniCodec.hex_value d with
                    | Some u, Some v =>
                        let m := 16 * u + v in
                        if ((128 <=? m) && (m <? 192))%nat
                        then decode_uri fuel' r'
                               (ascii_of_nat ((n - 192) * 64 + (m - 128))
                                :: acc)
                        else Throw URIError
                    | _, _ => Throw URIError
                    end
                | _ => Throw URIError
                end
              else Throw URIError
          | _, _ => Throw URIError
          end
      | "%"%char :: _ => Throw URIError
      | c :: r => decode_uri fuel' r (c :: acc)
      end
  end.

Definition decodeURIComponent (s : string) : result string :=
  let l := MiniRegExp.list_of_string s in
  decode_uri (S (List.length l)) l [].

(** [s.replace(pattern, replacement)] for a string pattern and a replacement
    without [$]: the first occurrence is replaced. *)
Fixpoint replace_first (pattern replacement : list ascii) (l : list ascii)
  : list ascii :=
  match MiniCodec.starts_with pattern l with
  | Some rest => (replacement ++ rest)%list
  | None =>
      match l with
      | [] => []
      | c :: r => c :: replace_first pattern replacement r
      end
  end.

Definition String_replace (s pattern replacement : string) : string :=
  MiniRegExp.string_of_list
    (replace_first (MiniRegExp.list_of_string pattern)
       (MiniRegExp.list_of_string replacement) (MiniRegExp.list_of_string s)).

Definition trim (l : list ascii) : list ascii :=
  let drop :=
    fix drop (l : list ascii) : list ascii :=
      match l with
      | c :: r => if MiniRegExp.is_space c then drop r else l
      | [] => []
      end in
  rev (drop (rev (drop l))).

(** ToNumber on a string: the decimal literals without exponent, the empty
    string and the infinities; anything else is NaN. *)
Definition StringToNumber (s : string) : number :=
  let l := trim (MiniRegExp.list_of_string s) in
  let (negative, l1) :=
    match l with
    | "-"%char :: r => (true, r)
    | "+"%char :: r => (false, r)
    | _ => (false, l)
    end in
  match l with
  | [] => Finite (Qmake 0 1)
  | _ =>
      if String.eqb (MiniRegExp.string_of_list l1) "Infinity"
      then Infinity negative
      else
        let '(int, n, l2) := MiniCodec.digit_run l1 0%N 0 in
        let sign (z : Z) := if negative then (- z)%Z else z in
        match l2 with
        | [] =>
            if (n =? 0)%nat then NaN
            else Finite (Qmake (sign (Z.of_N int)) 1)
        | "."%char :: l3 =>
            let '(frac, m, l4) := MiniCodec.digit_run l3 0%N 0 in
            match l4 with
            | [] =>
                if (n + m =? 0)%nat then NaN
                else
                  Finite
                    (Qred
                       (Qmake
                          (sign (Z.of_N (int * 10 ^ N.of_nat m + frac)))
                          (Pos.of_nat (10 ^ m))))
            | _ :: _ => NaN
            end
        | _ :: _ => NaN
        end
  end.

Fixpoint decimal_digits (fuel : nat) (n : N) (acc : list ascii)
  : list ascii :=
  match fuel with
  | 0 => acc
  | S fuel' =>
      let acc' := ascii_of_N (48 + N.modulo n 10) :: acc in
      if (n <? 10)%N then acc' else decimal_digits fuel' (N.div n 10) acc'
  end.

(** The decimal numeral of a natural number. *)
Definition decimal (n : N) : list ascii :=
  decimal_digits (S (N.to_nat (N.log2 n))) n [].

(** The decimal numeral padded with zeros to a width. *)
Definition padded (width : nat) (n : N) : list ascii :=
  let d := decimal n in
  (repeat "0"%char (width - List.length d) ++ d)%list.

(** The digits of a fraction [r / d] below one, while they last. *)
Fixpoint fraction_digits (fuel : nat) (r d : N) : list ascii :=
  match fuel with
  | 0 => []
  | S fuel' =>
      if (r =? 0)%N then []
      else ascii_of_N (48 + N.div (10 * r) d)
           :: fraction_digits fuel' (N.modulo (10 * r) d) d
  end.

(** ToString on a number: exact for the integers and for the numbers with
    a decimal expansion of fewer than 21 digits. *)
Definition NumberToString (n : number) : string :=
  match n with
  | NaN => "NaN"
  | Infinity false => "Infinity"
  | Infinity true => "-Infinity"
  | Finite q =>
      let num := Qnum q in
      let den := N.pos (Qden q) in
      let a := Z.to_N (Z.abs num) in
      let int := decimal (N.div a den) in
      let frac := fraction_digits 21 (N.modulo a den) den in
      MiniRegExp.string_of_list
        ((if (num <? 0)%Z then ["-"%char] else [])
         ++ int
         ++ match frac with
            | [] => []
            | _ :: _ => "."%char :: frac
            end)%list
  end.

(** [new Date(ms).toUTCString()] for a time in milliseconds since the epoch,
    from the year 0 on. *)
Definition Date_toUTCString (ms : Z) : string :=
  let secs := Z.div ms 1000 in
  let days := Z.div secs 86400 in
  let sod := Z.modulo secs 86400 in
  let z := (days + 719468)%Z in
  let era := Z.div z 146097 in
  let doe := (z - era * 146097)%Z in
  let yoe :=
    Z.div (doe - Z.div doe 1460 + Z.div doe 36524 - Z.div doe 146096) 365 in
  let doy := (doe - (365 * yoe + Z.div yoe 4 - Z.div yoe 100))%Z in
  let mp := Z.div (5 * doy + 2) 153 in
  let d := (doy - Z.div (153 * mp + 2) 5 + 1)%Z in
  let m := if (mp <? 10)%Z then (mp + 3)%Z else (mp - 9)%Z in
  let y := (yoe + era * 400 + (if (m <=? 2)%Z then 1 else 0))%Z in
  let weekday :=
    nth (Z.to_nat (Z.modulo (days + 4) 7))
      ["Sun"; "Mon"; "Tue"; "Wed"; "Thu"; "Fri"; "Sat"] "" in
  let month :=
    nth (Z.to_nat (m - 1))
      ["Jan"; "Feb"; "Mar"; "Apr"; "May"; "Jun";
       "Jul"; "Aug"; "Sep"; "Oct"; "Nov"; "Dec"] "" in
  let two (x : Z) := MiniRegExp.string_of_list (padded 2 (Z.to_N x)) in
  weekday ++ ", " ++ two d ++ " " ++ month ++ " "
  ++ MiniRegExp.string_of_list (padded 4 (Z.to_N y)) ++ " "
  ++ two (Z.div sod 3600) ++ ":" ++ two (Z.div (Z.modulo sod 3600) 60)
  ++ ":" ++ two (Z.modulo sod 60) ++ " GMT".

End MiniMisc.

(** ** HMAC-SHA256 *)

Module MiniHmac.

Local Open Scope Z_scope.

Definition w32 (x : Z) : Z := Z.land x 0xffffffff.

Definition rotr (n x : Z) : Z :=
  w32 (Z.lor (Z.shiftr x n) (Z.shiftl x (32 - n))).

(** The largest [r] below [2 ^ bits] with [r ^ k <= n], by bisection on the
    bits. *)
Fixpoint root (k : Z) (n : Z) (bits : nat) (r : Z) : Z :=
  match bits with
  | O => r
  | S bits' =>
      let r' := r + Z.shiftl 1 (Z.of_nat bits') in
      root k n bits' (if r' ^ k <=? n then r' else r)
  end.

Definition is_prime (p : Z) : bool :=
  (1 <? p)
  && forallb (fun d => negb (Z.modulo p d =? 0) || (p <=? d))
       (map Z.of_nat (seq 2 17)).

(** The first 64 prime numbers. *)
Definition primes : list Z :=
  firstn 64 (filter is_prime (map Z.of_nat (seq 2 310))).

(** The first 32 bits of the fractional part of the root of order [k] of
    [p]. *)
Definition fractional_bits (k p : Z) : Z :=
  w32 (root k (p * 2 ^ (32 * k)) 40 0).

(** The round constants: from the cube roots of the first 64 primes. *)
Definition K : list Z := Eval vm_compute in map (fractional_bits 3) primes.

(** The initial hash value: from the square roots of the first 8 primes. *)
Definition H0 : list Z :=
  Eval vm_compute in map (fractional_bits 2) (firstn 8 primes).

(** The message with its padding: the bit 1, zeros, and the length in bits
    on eight bytes, to a multiple of 64 bytes. *)
Definition pad (message : list Z) : list Z :=
  let n := Z.of_nat (List.length message) in
  let zeros := Z.to_nat (Z.modulo (55 - n) 64) in
  let bits := 8 * n in
  (message ++ [0x80] ++ repeat 0 zeros
   ++ map (fun i => Z.land (Z.shiftr bits (8 * i)) 0xff)
        [7; 6; 5; 4; 3; 2; 1; 0])%list.

(** The big-endian words of a list of bytes. *)
Fixpoint words (bytes : list Z) : list Z :=
  match bytes with
  | a :: b :: c :: d :: r =>
      (Z.shiftl a 24 + Z.shiftl b 16 + Z.shiftl c 8 + d) :: words r
  | _ => []
  end.

(** The message schedule, the most recent word first: [rev_w] holds the
    words 0 to t-1. *)
Fixpoint schedule (count : nat) (rev_w : list Z) : list Z :=
  match count with
  | O => rev_w
  | S count' =>
      let w2 := nth 1 rev_w 0 in
      let w7 := nth 6 rev_w 0 in
      let w15 := nth 14 rev_w 0 in
      let w16 := nth 15 rev_w 0 in
      let s0 :=
        Z.lxor (Z.lxor (rotr 7 w15) (rotr 18 w15)) (Z.shiftr w15 3) in
      let s1 :=
        Z.lxor (Z.lxor (rotr 17 w2) (rotr 19 w2)) (Z.shiftr w2 10) in
      schedule count' (w32 (w16 + s0 + w7 + s1) :: rev_w)
  end.

Definition round (state : list Z) (kw : Z * Z) : list Z :=
  match state with
  | [a; b; c; d; e; f; g; h] =>
      let S1 := Z.lxor (Z.lxor (rotr 6 e) (rotr 11 e)) (rotr 25 e) in
      let ch := Z.lxor (Z.land e f) (Z.land (Z.lxor e 0xffffffff) g) in
      let t1 := w32 (h + S1 + ch + fst kw + snd kw) in
      let S0 := Z.lxor (Z.lxor (rotr 2 a) (rotr 13 a)) (rotr 22 a) in
      let maj :=
        Z.lxor (Z.lxor (Z.land a b) (Z.land a c)) (Z.land b c) in
      let t2 := w32 (S0 + maj) in
      [w32 (t1 + t2); a; b; c; w32 (d + t1); e; f; g]
  | _ => state
  end.

(** The compression of one block of sixteen words. *)
Definition compress (state block : list Z) : list Z :=
  let w := rev (schedule 48 (rev block)) in
  let final := fold_left round (combine K w) state in
  map (fun p => w32 (fst p + snd p)) (combine state final).

Fixpoint blocks (fuel : nat) (state ws : list Z) : list Z :=
  match fuel with
  | O => state
  | S fuel' =>
      match ws with
      | [] => state
      | _ => blocks fuel' (compress state (firstn 16 ws)) (skipn 16 ws)
      end
  end.

Definition word_bytes (w : Z) : list Z :=
  map (fun i => Z.land (Z.shiftr w (8 * i)) 0xff) [3; 2; 1; 0].

(** SHA-256 of a list of bytes, as bytes. *)
Definition sha256 (message : list Z) : list Z :=
  let ws := words (pad message) in
  flat_map word_bytes (blocks (List.length ws) H0 ws).

(** HMAC with SHA-256. *)
Definition hmac_sha256 (key message : list Z) : list Z :=
  let key0 := if 64 <? Z.of_nat (List.length key) then sha256 key else key in
  let key1 := (key0 ++ repeat 0 (64 - List.length key0))%list in
  let ipad := map (fun b => Z.lxor b 0x36) key1 in
  let opad := map (fun b => Z.lxor b 0x5c) key1 in
  sha256 (opad ++ sha256 (ipad ++ message))%list.

(** The UTF-8 bytes of a string of characters below 256. *)
Fixpoint utf8 (s : string) : list Z :=
  match s with
  | EmptyString => []
  | String c r =>
      let n := Z.of_nat (nat_of_ascii c) in
      if n <? 128 then n :: utf8 r
      else (192 + Z.shiftr n 6) :: (128 + Z.land n 63) :: utf8 r
  end.

Definition hex (bytes : list Z) : string :=
  Js.Buffer_toString_hex
    (map (fun b =>
            match Byte.of_N (Z.to_N b) with
            | Some x => x
            | None => Byte.x00
            end) bytes).

(** [createHmac('sha256', key).update(data).digest('hex')] *)
Definition createHmac_sha256_hex (key : value) (data : string)
  : result string :=
  match key with
  | VString k => Return (hex (hmac_sha256 (utf8 k) (utf8 data)))
  | _ =>
      Throw (NativeError "TypeError" (Some "ERR_INVALID_ARG_TYPE")
               "The key argument must be of type string")
  end.

End MiniHmac.

(** ** The runtime and the collaborators of the examples *)

Module MiniRuntime.

(** A regular expression that matches nothing. *)
Definition never : MiniRegExp.compiled :=
  {| MiniRegExp.pattern := MiniRegExp.Class false [];
     MiniRegExp.global := false;
     MiniRegExp.ignoreCase := false |}.

Definition SyntaxError : exn :=
  NativeError "SyntaxError" None "Invalid regular expression".

(** The runtime of the examples. It follows Node.js on ASCII texts, on the
    regular expressions of [MiniRegExp], on the JSON texts of [MiniCodec],
    and on replacements without [$]; a pattern or flags outside
    [MiniRegExp] are reported as a SyntaxError. *)
Definition mini : Runtime :=
  {| Buffer_base64_toString := MiniCodec.base64_toString;
     JSON_parse := MiniCodec.JSON_parse;
     RegExp := MiniRegExp.compiled;
     RegExp_literal source flags :=
       match MiniRegExp.compile source flags with
       | Some re => re
       | None => never
       end;
     RegExp_new source flags :=
       match MiniRegExp.compile source flags with
       | Some re => Return re
       | None => Throw SyntaxError
       end;
     RegExp_test := MiniRegExp.test;
     RegExp_replace := MiniRegExp.replace;
     String_replace := MiniMisc.String_replace;
     decodeURIComponent := MiniMisc.decodeURIComponent;
     createHmac_sha256_hex := MiniHmac.createHmac_sha256_hex;
     StringToNumber := MiniMisc.StringToNumber;
     NumberToString := MiniMisc.NumberToString;
     Date_toUTCString := MiniMisc.Date_toUTCString |}.

(** A mapper that finds no edit in any path and leaves a custom path as it
    is; the runs of Default requests never call it. *)
Definition no_edits : ThumborMapper :=
  {| mapPathToEdits _ := Return (VObject []);
     parseCustomPath p := Return p |}.

(** A world of the examples: the objects of the store, each under its
    bucket and key, as the outcome of fetching it, and the secrets. *)
Record Store : Type := {
  objects : list (string * string * result GetObjectOutput);
  secrets : list (string * string)
}.

Definition NoSuchKey : exn :=
  NativeError "NoSuchKey" (Some "NoSuchKey")
    "The specified key does not exist.".

Definition AccessDenied : exn :=
  NativeError "AccessDenied" (Some "AccessDenied") "Access Denied".

Fixpoint find_object (bucket key : string)
  (l : list (string * string * result GetObjectOutput))
  : result GetObjectOutput :=
  match l with
  | [] => Throw NoSuchKey
  | (b, k, r) :: rest =>
      if String.eqb b bucket && String.eqb k key then r
      else find_object bucket key rest
  end.

(** The collaborators over a store: an object that is not listed does not
    exist, a secret that is not listed cannot be retrieved; the store never
    changes. *)
Definition store_collaborators : Collaborators Store :=
  {| s3Client_getObject location w :=
       (match location.(Bucket), location.(Key) with
        | VString b, VString k => find_object b k w.(objects)
        | _, _ =>
            Throw (NativeError "MissingRequiredParameter"
                     (Some "MissingRequiredParameter")
                     "Missing required key in params")
        end, w);
     secretProvider_getSecret id w :=
       (match id with
        | Some name =>
            match Js.assoc name w.(secrets) with
            | Some text => Return text
            | None =>
                Throw (NativeError "ResourceNotFoundException"
                         (Some "ResourceNotFoundException")
                         "Secrets Manager can't find the specified secret.")
            end
        | None =>
            Throw (NativeError "MissingRequiredParameter"
                     (Some "MissingRequiredParameter")
                     "Missing required key in params")
        end, w) |}.

Definition start (w : Store) : State Store := {| world := w; trace := [] |}.

(** An object of the store with a content type and a body. *)
Definition object (contentType : string) (body : list Byte.byte)
  : result GetObjectOutput :=
  Return {| Body := body; ContentType := Some contentType;
            Expires := None; LastModified := None; CacheControl := None |}.

(** A configuration with the allowed buckets only. *)
Definition env_of (sourceBuckets : string) : Env :=
  {| SOURCE_BUCKETS := Some sourceBuckets;
     DEFAULT_FALLBACK_IMAGE_BUCKET := None;
     REWRITE_MATCH_PATTERN := None;
     REWRITE_SUBSTITUTION := None;
     AUTO_WEBP := None;
     ENABLE_SIGNATURE := None;
     SECRETS_MANAGER := None;
     SECRET_KEY := None |}.

(** A request with a path only. *)
Definition request_of (path : string) : Event :=
  {| path := path; headers := []; queryStringParameters := None |}.

End MiniRuntime.

(** * Specification

    The notions of the specification that the properties are stated
    with. *)

Module Hex.
Import Js.

(** The number a character of an upper-case hexadecimal string stands for. *)
Definition unhex (c : ascii) : N :=
  let n := N_of_ascii c in
  if (n <? 58)%N then (n - 48)%N else (n - 55)%N.

Definition upper_pair (b : Byte.byte) : ascii * ascii :=
  (toUpperCase_char (hex_digit (N.div (Byte.to_N b) 16)),
   toUpperCase_char (hex_digit (N.modulo (Byte.to_N b) 16))).

End Hex.

Module Sniffer.
Import Byte.

(** The table of the specification: the four bytes of a signature and the
    content type it stands for. *)
Definition signatures : list (list byte * string) :=
  [ ([x89; x50; x4e; x47], "image/png");
    ([xff; xd8; xff; xdb], "image/jpeg");
    ([xff; xd8; xff; xe0], "image/jpeg");
    ([xff; xd8; xff; xee], "image/jpeg");
    ([xff; xd8; xff; xe1], "image/jpeg");
    ([x52; x49; x46; x46], "image/webp");
    ([x49; x49; x2a; x00], "image/tiff");
    ([x4d; x4d; x00; x2a], "image/tiff") ].

(** The same table with each signature in upper-case hexadecimal. *)
Definition hex_signatures : list (string * string) :=
  map (fun e => (Js.toUpperCase (Js.Buffer_toString_hex (fst e)), snd e))
    signatures.

Definition sniff_failure (r : result string) : Prop :=
  exists message,
    r = Throw (ImageHandlerError INTERNAL_SERVER_ERROR
                 (Some "RequestTypeError") message).

End Sniffer.

Module Classifier.
Import ImageRequest.

Section Defs.
Context {rt : Runtime}.
Variable env : Env.

(** The path matches the strict base64 alphabet grammar. *)
Definition base64_grammar (path : string) : Prop :=
  RegExp_test (RegExp_literal matchDefault_source "") path = true.

(** The path matches the Thumbor grammar. *)
Definition thumbor_grammar (path : string) : Prop :=
  RegExp_test (RegExp_literal matchThumbor_source "i") path = true.

(** The path less one leading slash. *)
Definition encoded_part (path : string) : string :=
  match path with
  | String "/" rest => rest
  | _ => path
  end.

(** The trial decode succeeds: there is a path, and the text that is
    base64-decoded from it parses as JSON. *)
Definition trial_decode (path : string) : Prop :=
  path <> ""
  /\ exists decoded,
       JSON_parse (Buffer_base64_toString (encoded_part path)) = Some decoded.

(** Both rewrite variables are defined and are not the empty string. *)
Definition rewrite_configured : Prop :=
  exists pattern substitution,
    env.(REWRITE_MATCH_PATTERN) = Some pattern
    /\ env.(REWRITE_SUBSTITUTION) = Some substitution
    /\ pattern <> "" /\ substitution <> "".

Definition bad_request (r : result string) : Prop :=
  exists message,
    r = Throw (ImageHandlerError BAD_REQUEST (Some "RequestTypeError")
                 message).

End Defs.
End Classifier.

Module BucketResolver.
Import ImageRequest.

(** The first path segment of a key: what precedes its first slash. *)
Fixpoint first_segment (key : string) : string :=
  match key with
  | EmptyString => EmptyString
  | String c rest =>
      if Ascii.eqb c "/" then EmptyString else String c (first_segment rest)
  end.

(** The first and the last entry of the allowed list that contain the alias
    as a substring. *)
Definition first_containing (alias : string) (sourceBuckets : list string)
  : option string :=
  find (fun entry => JsString.includes entry alias) sourceBuckets.

Definition last_containing (alias : string) (sourceBuckets : list string)
  : option string :=
  find (fun entry => JsString.includes entry alias) (rev sourceBuckets).

Definition or_else (found fallback : option string) : option string :=
  match found with
  | Some entry => Some entry
  | None => fallback
  end.

Section Defs.
Context {rt : Runtime}.
Variable env : Env.

(** The dialects that resolve the bucket from the alias: Thumbor, Custom,
    and Default when the decoded record has no bucket. *)
Definition by_alias (event : Event) (requestType : string) : Prop :=
  requestType = RequestTypes.THUMBOR
  \/ requestType = RequestTypes.CUSTOM
  \/ (requestType = RequestTypes.DEFAULT
      /\ exists request,
           decodeRequest event = Return request
           /\ JsValue.get request "bucket" = Return VUndefined).

(** The bucket is in the decoded record of a Default request and matches the
    first entry of the allowed list as an anchored regular expression. *)
Definition by_pattern (event : Event) (requestType : string)
  (sourceBuckets : list string) (bucket : value) : Prop :=
  requestType = RequestTypes.DEFAULT
  /\ exists request b re,
       decodeRequest event = Return request
       /\ JsValue.get request "bucket" = Return (VString b)
       /\ bucket = VString b
       /\ RegExp_new ("^" ++ first_entry sourceBuckets ++ "$") "" = Return re
       /\ RegExp_test re b = true.

Definition listed (sourceBuckets : list string) (bucket : value) : Prop :=
  exists b, bucket = VString b /\ In b sourceBuckets.

Definition is_fallback (bucket : value) : Prop :=
  bucket = Js.env_value env.(DEFAULT_FALLBACK_IMAGE_BUCKET).

(** The statement that every bucket the resolver returns is an entry of the
    allowed list or the fallback bucket. *)
Definition always_listed_or_fallback (event : Event) (requestType : string)
  (image_key : value) : Prop :=
  forall sourceBuckets bucket,
    getAllowedSourceBuckets env = Return sourceBuckets ->
    parseImageBucket env event requestType image_key = Return bucket ->
    listed sourceBuckets bucket \/ is_fallback bucket.

(** The statement that the resolver returns the first entry of the allowed
    list that contains the alias. *)
Definition returns_first_containing (event : Event)
  (requestType key : string) : Prop :=
  forall sourceBuckets,
    getAllowedSourceBuckets env = Return sourceBuckets ->
    by_alias event requestType ->
    parseImageBucket env event requestType (VString key)
    = Return
        (Js.env_value
           (or_else (first_containing (first_segment key) sourceBuckets)
              env.(DEFAULT_FALLBACK_IMAGE_BUCKET))).

End Defs.
End BucketResolver.

Module Rewrite.
Import ImageRequest.

Definition no_slash (s : string) : Prop := ~ In "/"%char (JsString.to_list s).

(** A delimited regular-expression literal [/pattern/flags]. *)
Definition delimited (s pattern flags : string) : Prop :=
  s = "/" ++ pattern ++ "/" ++ flags /\ no_slash flags.

(** What follows the last slash of a string; the string when it has none. *)
Fixpoint after_last_slash_from (cur : string) (l : list ascii) : string :=
  match l with
  | [] => cur
  | c :: r =>
      if Ascii.eqb c "/" then after_last_slash_from (JsString.of_list r) r
      else after_last_slash_from cur r
  end.

Definition after_last_slash (s : string) : string :=
  after_last_slash_from s (JsString.to_list s).

(** The statement that a delimited literal is applied as a regular
    expression and every other string as a literal substring. *)
Definition literal_unless_delimited (env : Env) : Prop :=
  forall s,
    env.(REWRITE_MATCH_PATTERN) = Some s ->
    (forall pattern flags,
       delimited s pattern flags ->
       rewrite_rule env
       = ReplaceRegExp pattern flags
           (Js.env_ToString env.(REWRITE_SUBSTITUTION)))
    /\ ((forall pattern flags, ~ delimited s pattern flags) ->
        rewrite_rule env
        = ReplaceString s (Js.env_ToString env.(REWRITE_SUBSTITUTION))).

End Rewrite.

Module SignatureValidator.
Import ImageRequest.

Section Defs.
Context {rt : Runtime}.
Variable env : Env.
Context {W : Type} {collaborators : Collaborators W}.

Definition signing_enabled : Prop := env.(ENABLE_SIGNATURE) = Some "Yes".

(** The signature query parameter of the request, if any. *)
Definition signature_of (event : Event) : option string :=
  match event.(queryStringParameters) with
  | None => None
  | Some parameters => Js.assoc "signature" parameters
  end.

(** The retrieval of the secret and the computation of the hash, in a
    world: the secret is fetched, parsed as JSON, the signing key is read
    from it at the configured field, and the hexadecimal HMAC-SHA256 of the
    path of the request as received is computed under that key. *)
Definition expected_hash (event : Event) (w : W) : result string :=
  let* secretString :=
    fst (secretProvider_getSecret env.(SECRETS_MANAGER) w) in
  let* secret :=
    match JSON_parse secretString with
    | Some v => Return v
    | None => Throw (NativeError "SyntaxError" None "Unexpected token in JSON")
    end in
  let* key := JsValue.get secret (Js.env_ToString env.(SECRET_KEY)) in
  createHmac_sha256_hex key event.(path).

(** The state after the call to the secret provider. *)
Definition after_getSecret (s : State W) : State W :=
  {| world := snd (secretProvider_getSecret env.(SECRETS_MANAGER) s.(world));
     trace := (s.(trace) ++ [GetSecret env.(SECRETS_MANAGER)])%list |}.

Definition does_not_match : exn :=
  ImageHandlerError FORBIDDEN (Some "SignatureDoesNotMatch")
    "Signature does not match.".

Definition validation_failure : exn :=
  ImageHandlerError INTERNAL_SERVER_ERROR (Some "SignatureValidationFailure")
    "Signature validation failed.".

Definition parameters_error : exn :=
  ImageHandlerError BAD_REQUEST (Some "AuthorizationQueryParametersError")
    "Query-string requires the signature parameter.".

End Defs.
End SignatureValidator.

Module QualityKey.
Import ImageRequest.

(** The first key of the edits that names a recognized format. *)
Definition first_quality_key (fields : list (string * value))
  : option string :=
  find (fun key => JsString.mem key acceptedValues) (map fst fields).

(** The rename that the specification describes: for a Thumbor or Custom
    request whose output format [o] is a recognized one, the first key [q]
    of the edits that names a recognized format, when it differs from
    [o]. *)
Definition rename_of (info : Info.t) (fields : list (string * value))
  : option (string * string) :=
  match info.(Info.outputFormat) with
  | VString o =>
      if (String.eqb info.(Info.requestType) RequestTypes.THUMBOR
          || String.eqb info.(Info.requestType) RequestTypes.CUSTOM)
         && JsString.mem o acceptedValues
      then
        match first_quality_key fields with
        | Some q => if String.eqb q o then None else Some (q, o)
        | None => None
        end
      else None
  | _ => None
  end.

Section Defs.
Context {rt : Runtime}.

(** What the request information is before the edits are looked at: the
    content type follows the output format, when there is one. *)
Definition with_contentType (info : Info.t) : Info.t :=
  if JsValue.truthy info.(Info.outputFormat)
  then Info.set_contentType
         ("image/" ++ Js.ToString info.(Info.outputFormat)) info
  else info.

End Defs.
End QualityKey.

Module ReductionEffort.
Import ImageRequest.

(** An integer from 0 to 6. *)
Definition in_range (n : number) : Prop :=
  exists z : Z, n = Finite (z # 1) /\ (0 <= z <= 6)%Z.

Section Defs.
Context {rt : Runtime}.

(** The reduction effort that setup stores for a decoded value. *)
Definition stored_effort (v : value) : number :=
  if negb (Js.isNaN (Js.Math_trunc v))
     && Js.ge_int (Js.Math_trunc v) 0 && Js.le_int (Js.Math_trunc v) 6
  then Js.Math_trunc v
  else DEFAULT_REDUCTION_EFFORT.

(** What the blocks of setup do to the reduction effort. *)
Definition effort_kept_or_valid (info info' : Info.t) : Prop :=
  info'.(Info.reductionEffort) = info.(Info.reductionEffort)
  \/ exists n, info'.(Info.reductionEffort) = Some n /\ in_range n.

End Defs.
End ReductionEffort.

Module SvgOutput.
Import ImageRequest.

Section Defs.
Context {rt : Runtime}.
Variable env : Env.

(** The request accepts WebP and the automatic WebP output is enabled. *)
Definition auto_webp (event : Event) : Prop :=
  env.(AUTO_WEBP) = Some "Yes"
  /\ exists Accept,
       Js.assoc "Accept" event.(headers) = Some Accept
       /\ JsString.includes Accept "image/webp" = true.

(** A request of a known dialect whose key was parsed can be decoded again
    and its decoded record read, when it is a Default request. *)
Definition decodable (event : Event) (requestType : string) : Prop :=
  requestType = RequestTypes.DEFAULT ->
  exists decoded,
    decodeRequest event = Return decoded
    /\ forall k, exists x, JsValue.get decoded k = Return x.

End Defs.
End SvgOutput.

Module OriginFetcher.
Import ImageRequest.

(** The fetches among the calls of a trace. *)
Fixpoint fetches (calls : list call) : list ImageLocation :=
  match calls with
  | [] => []
  | GetObject location :: rest => location :: fetches rest
  | GetSecret _ :: rest => fetches rest
  end.

(** The fetch failed because the object does not exist. *)
Definition not_found (error : exn) : bool :=
  match exn_code error with
  | Some c => String.eqb c "NoSuchKey"
  | None => false
  end.

(** The directory prefix of a key: the key up to its last slash, included;
    empty when the key has no slash. *)
Definition directory_prefix (key : string) : string :=
  JsString.substring0 key
    (JsString.lastIndexOf_succ "/" (JsString.to_list key)).

(** How many fetches a method adds to the trace, at most. *)
Definition adds_at_most {W A} (k : nat) (m : M W A) : Prop :=
  forall s,
    exists extra,
      (snd (m s)).(trace) = (s.(trace) ++ extra)%list
      /\ List.length (fetches extra) <= k.

Section Defs.
Context {rt : Runtime} {mapper : ThumborMapper}.
Variable env : Env.
Context {W : Type} {collaborators : Collaborators W}.

(** The error that getOriginalImage throws for the error of a fetch. *)
Definition surfaced (key : value) (error : exn) : exn :=
  if not_found error then
    ImageHandlerError NOT_FOUND (exn_code error)
      ("The image " ++ Js.ToString key
       ++ " does not exist or the request may not be base64 encoded properly.")
  else
    ImageHandlerError INTERNAL_SERVER_ERROR (exn_code error)
      (exn_message error).

(** The state after a fetch. *)
Definition after_fetch (location : ImageLocation) (s : State W) : State W :=
  {| world := snd (s3Client_getObject location s.(world));
     trace := (s.(trace) ++ [GetObject location])%list |}.

(** The key that setup goes on with after its first fetch. *)
Definition key_after (first : result GetObjectOutput) (key : string)
  : string :=
  match first with
  | Return _ => key
  | Throw _ => directory_prefix key ++ "default.jpg"
  end.

(** The key of the second fetch if the key were rewritten only when the
    first fetch fails with not-found. *)
Definition key_if_not_found (first : result GetObjectOutput) (key : string)
  : string :=
  match first with
  | Return _ => key
  | Throw error =>
      if not_found error then directory_prefix key ++ "default.jpg" else key
  end.

(** The statement that the key is rewritten if and only if the first fetch
    fails with not-found: the fetches of a run of setup that gets to the
    edits are the one at the key and the one at the key so obtained. *)
Definition rewritten_iff_not_found (event : Event) (s : State W) : Prop :=
  forall s1 requestType key bucket edits,
    validateRequestSignature env event s = (Return tt, s1) ->
    parseRequestType env event = Return requestType ->
    parseImageKey env event requestType = Return (VString key) ->
    parseImageBucket env event requestType (VString key) = Return bucket ->
    parseImageEdits event requestType = Return edits ->
    let first := {| Bucket := bucket; Key := VString key |} in
    fetches (snd (setup env event s)).(trace)
    = (fetches s1.(trace)
       ++ [first;
           {| Bucket := bucket;
              Key :=
                VString
                  (key_if_not_found
                     (fst (s3Client_getObject first s1.(world))) key) |}])
      %list.

End Defs.
End OriginFetcher.

(** ** Further notions *)

Module Extra.
Import ImageRequest.

(** An error of the handler with a status and a code. *)
Definition handler_error {A} (r : result A) (status : StatusCodes)
  (code : string) : Prop :=
  exists message, r = Throw (ImageHandlerError status (Some code) message).

Definition no_comma (s : string) : Prop :=
  ~ In ","%char (JsString.to_list s).

(** The string ends with a slash or is empty. *)
Definition directory (s : string) : Prop :=
  s = "" \/ exists d, s = d ++ "/".

(** One of the three dialects. *)
Definition dialect (requestType : string) : Prop :=
  requestType = RequestTypes.DEFAULT
  \/ requestType = RequestTypes.CUSTOM
  \/ requestType = RequestTypes.THUMBOR.

(** The request with another path. *)
Definition with_path (event : Event) (p : string) : Event :=
  {| path := p; headers := event.(headers);
     queryStringParameters := event.(queryStringParameters) |}.

(** The retrievals of a secret among the calls of a trace. *)
Fixpoint retrievals (calls : list call) : list (option string) :=
  match calls with
  | [] => []
  | GetSecret id :: rest => id :: retrievals rest
  | GetObject _ :: rest => retrievals rest
  end.

(** How many retrievals of a secret a method adds to the trace, at most. *)
Definition retrieves_at_most {W A} (k : nat) (m : M W A) : Prop :=
  forall s,
    exists extra,
      (snd (m s)).(trace) = (s.(trace) ++ extra)%list
      /\ List.length (retrievals extra) <= k.

(** A content type under which the object store reports a payload of
    unknown type. *)
Definition generic (contentType : string) : Prop :=
  contentType = "binary/octet-stream"
  \/ contentType = "application/octet-stream".

(** What getOriginalImage returns for an object of the store and a content
    type: the payload as it is, the dates in UTC, and the cache control of
    the object or the default of one year. *)
Definition described {rt : Runtime} (object : GetObjectOutput)
  (contentType : string) : OriginalImage.t :=
  {| OriginalImage.contentType := contentType;
     OriginalImage.expires := option_map Date_toUTCString object.(Expires);
     OriginalImage.lastModified :=
       option_map Date_toUTCString object.(LastModified);
     OriginalImage.cacheControl :=
       match object.(CacheControl) with
       | Some c => c
       | None => "max-age=31536000,public"
       end;
     OriginalImage.originalImage := object.(Body) |}.

(** Two request informations that differ at most in the edits, the output
    format, the content type and the reduction effort. *)
Definition same_origin (i i' : Info.t) : Prop :=
  i'.(Info.requestType) = i.(Info.requestType)
  /\ i'.(Info.key) = i.(Info.key)
  /\ i'.(Info.bucket) = i.(Info.bucket)
  /\ i'.(Info.headers) = i.(Info.headers)
  /\ i'.(Info.originalImage) = i.(Info.originalImage)
  /\ i'.(Info.cacheControl) = i.(Info.cacheControl)
  /\ i'.(Info.expires) = i.(Info.expires)
  /\ i'.(Info.lastModified) = i.(Info.lastModified).

(** The rational is above -1 and below 7. *)
Definition truncates_into_range (q : Q) : Prop :=
  (Qlt (Qmake (-1) 1) q /\ Qlt q (Qmake 7 1)).

(** The request information that setup gathers before it decides on the
    output format: no output format and no reduction effort yet, and the
    content type, the dates, the cache control and the payload of the
    original. *)
Definition gathered (requestType : string) (key bucket edits headers : value)
  (original : OriginalImage.t) : Info.t :=
  {| Info.requestType := requestType;
     Info.key := key;
     Info.bucket := bucket;
     Info.edits := edits;
     Info.headers := headers;
     Info.outputFormat := VUndefined;
     Info.contentType := original.(OriginalImage.contentType);
     Info.expires := original.(OriginalImage.expires);
     Info.lastModified := original.(OriginalImage.lastModified);
     Info.cacheControl := original.(OriginalImage.cacheControl);
     Info.originalImage := original.(OriginalImage.originalImage);
     Info.reductionEffort := None |}.

End Extra.

(** * Inputs of the examples *)

Module Inputs.
Import MiniRuntime.

(** A configuration with both rewrite variables set. *)
Definition rewriting : Env :=
  {| SOURCE_BUCKETS := Some "allowed-bucket";
     DEFAULT_FALLBACK_IMAGE_BUCKET := None;
     REWRITE_MATCH_PATTERN := Some "/thumb/g";
     REWRITE_SUBSTITUTION := Some "image";
     AUTO_WEBP := None;
     ENABLE_SIGNATURE := None;
     SECRETS_MANAGER := None;
     SECRET_KEY := None |}.

(** The base64 text of a record with the bucket allowed-bucket, the key
    a/b.png and no edits. *)
Definition encoded : Event :=
  request_of "/eyJidWNrZXQiOiJhbGxvd2VkLWJ1Y2tldCIsImtleSI6ImEvYi5wbmciLCJlZGl0cyI6e319".

(** The base64 text of a record with the bucket bucket-evil and the key
    a/b.png. *)
Definition unlisted : Event :=
  request_of "/eyJidWNrZXQiOiJidWNrZXQtZXZpbCIsImtleSI6ImEvYi5wbmcifQ==".

(** The base64 text of a record with the bucket allowed-bucket, the key
    images/photo.jpg and the edit grayscale. *)
Definition photo : Event :=
  request_of "/eyJidWNrZXQiOiJhbGxvd2VkLWJ1Y2tldCIsImtleSI6ImltYWdlcy9waG90by5qcGciLCJlZGl0cyI6eyJncmF5c2NhbGUiOnRydWV9fQ==".

(** A store that denies the access to the photo and has the default image
    of its directory. *)
Definition denied : Store :=
  {| objects :=
       [("allowed-bucket", "images/photo.jpg", Throw AccessDenied);
        ("allowed-bucket", "images/default.jpg", object "image/jpeg" [])];
     secrets := [] |}.

(** A store without objects. *)
Definition empty : Store := {| objects := []; secrets := [] |}.

Definition signing : Env :=
  {| SOURCE_BUCKETS := Some "allowed-bucket";
     DEFAULT_FALLBACK_IMAGE_BUCKET := None;
     REWRITE_MATCH_PATTERN := None;
     REWRITE_SUBSTITUTION := None;
     AUTO_WEBP := None;
     ENABLE_SIGNATURE := Some "Yes";
     SECRETS_MANAGER := Some "image-handler-secret";
     SECRET_KEY := Some "signingKey" |}.

(** The secret is the JSON text of a record whose field signingKey is the
    string secret, given here by its base64 text. *)
Definition vault : Store :=
  {| objects := [];
     secrets :=
       [("image-handler-secret",
         MiniCodec.base64_toString "eyJzaWduaW5nS2V5Ijoic2VjcmV0In0=")] |}.

Definition signed (signature : string) : Event :=
  {| path := "/thumb/cat.jpg"; headers := [];
     queryStringParameters := Some [("signature", signature)] |}.

(** The hexadecimal HMAC-SHA256 of the path under the key. *)
Definition good : string :=
  "faa40022bc398fe8574d105dd4858c7980606b20934c4aedcf0315e910abc744".

(** The same with its last character changed. *)
Definition tampered : string :=
  "faa40022bc398fe8574d105dd4858c7980606b20934c4aedcf0315e910abc745".

(** A configuration whose match pattern is a plain string. *)
Definition plain : Env :=
  {| SOURCE_BUCKETS := Some "allowed-bucket";
     DEFAULT_FALLBACK_IMAGE_BUCKET := None;
     REWRITE_MATCH_PATTERN := Some "thumb";
     REWRITE_SUBSTITUTION := Some "image";
     AUTO_WEBP := None;
     ENABLE_SIGNATURE := None;
     SECRETS_MANAGER := None;
     SECRET_KEY := None |}.

(** The request information of a Thumbor request with a resize and a
    quality for JPEG, whose output format is WebP. *)
Definition quality_fields : list (string * value) :=
  [("resize", VObject [("width", VNumber (Finite (100 # 1)))]);
   ("jpeg", VObject [("quality", VNumber (Finite (80 # 1)))])].

Definition thumbor_info : Info.t :=
  {| Info.requestType := RequestTypes.THUMBOR;
     Info.key := VString "images/photo.jpg";
     Info.bucket := VString "images-bucket";
     Info.edits := VObject quality_fields;
     Info.headers := VUndefined;
     Info.outputFormat := VString ImageFormatTypes.WEBP;
     Info.contentType := "image/jpeg";
     Info.expires := None;
     Info.lastModified := None;
     Info.cacheControl := "max-age=31536000,public";
     Info.originalImage := [];
     Info.reductionEffort := None |}.

(** The base64 text of a record with the key images/photo.jpg, a resize,
    the output format webp and the reduction effort 3.5. *)
Definition effort : Event :=
  request_of "/eyJrZXkiOiJpbWFnZXMvcGhvdG8uanBnIiwiZWRpdHMiOnsicmVzaXplIjp7IndpZHRoIjoxMDB9fSwib3V0cHV0Rm9ybWF0Ijoid2VicCIsInJlZHVjdGlvbkVmZm9ydCI6My41fQ==".

(** The same with the reduction effort 9 and no edits. *)
Definition effort_out_of_range : Event :=
  request_of "/eyJrZXkiOiJpbWFnZXMvcGhvdG8uanBnIiwib3V0cHV0Rm9ybWF0Ijoid2VicCIsInJlZHVjdGlvbkVmZm9ydCI6OX0=".

Definition photos : Store :=
  {| objects :=
       [("images-bucket", "images/photo.jpg", object "image/jpeg" []);
        ("images-bucket", "images/logo.svg", object "image/svg+xml" [])];
     secrets := [] |}.

Definition webp_enabled : Env :=
  {| SOURCE_BUCKETS := Some "images-bucket";
     DEFAULT_FALLBACK_IMAGE_BUCKET := None;
     REWRITE_MATCH_PATTERN := None;
     REWRITE_SUBSTITUTION := None;
     AUTO_WEBP := Some "Yes";
     ENABLE_SIGNATURE := None;
     SECRETS_MANAGER := None;
     SECRET_KEY := None |}.

(** The base64 text of a record with the key images/logo.svg and the edit
    grayscale, from a client that accepts WebP. *)
Definition logo : Event :=
  {| path :=
       "/eyJrZXkiOiJpbWFnZXMvbG9nby5zdmciLCJlZGl0cyI6eyJncmF5c2NhbGUiOnRydWV9fQ==";
     headers := [("Accept", "image/avif,image/webp,*/*")];
     queryStringParameters := None |}.

End Inputs.

(** * Further inputs of the examples *)

Module ExtraInputs.
Import MiniRuntime.

(** Two allowed buckets, with a space after the comma. *)
Definition two_buckets : Env := env_of "photos, logos".

(** The base64 text of a record with the key a.png only, without a slash
    before it. *)
Definition bare : Event := request_of "eyJrZXkiOiJhLnBuZyJ9".

(** The decoded record of the request with the bucket allowed-bucket, the
    key a/b.png and no edits. *)
Definition encoded_record : value :=
  VObject
    [("bucket", VString "allowed-bucket"); ("key", VString "a/b.png");
     ("edits", VObject [])].

(** The base64 text of a record with the key images/logo.svg and the empty
    edits, from a client that accepts WebP. *)
Definition logo_unedited : Event :=
  {| path := "/eyJrZXkiOiJpbWFnZXMvbG9nby5zdmciLCJlZGl0cyI6e319";
     headers := [("Accept", "image/avif,image/webp,*/*")];
     queryStringParameters := None |}.

(** The base64 text of a record with the key images/logo.svg only. *)
Definition logo_bare : Event :=
  request_of "/eyJrZXkiOiJpbWFnZXMvbG9nby5zdmcifQ==".

(** The base64 text of a record with the key images/photo.jpg only. *)
Definition photo_bare : Event :=
  request_of "/eyJrZXkiOiJpbWFnZXMvcGhvdG8uanBnIn0=".

(** An object of unknown type whose first bytes are those of a PNG file. *)
Definition untyped : GetObjectOutput :=
  {| Body := [Byte.x89; Byte.x50; Byte.x4e; Byte.x47; Byte.x0d; Byte.x0a];
     ContentType := Some "binary/octet-stream";
     Expires := None;
     LastModified := None;
     CacheControl := Some "no-cache" |}.

Definition uploads : Store :=
  {| objects := [("uploads", "a/b", Return untyped)]; secrets := [] |}.

(** A Thumbor path from a client that accepts WebP. *)
Definition accepting : Event :=
  {| path := "/fit-in/100x100/images/photo.jpg";
     headers := [("Accept", "image/webp")];
     queryStringParameters := None |}.

(** The request information of a Thumbor request that asks for PNG among
    its edits. *)
Definition converting : Info.t :=
  {| Info.requestType := RequestTypes.THUMBOR;
     Info.key := VString "images/photo.jpg";
     Info.bucket := VString "images-bucket";
     Info.edits := VObject [("toFormat", VString "png")];
     Info.headers := VUndefined;
     Info.outputFormat := VUndefined;
     Info.contentType := "image/jpeg";
     Info.expires := None;
     Info.lastModified := None;
     Info.cacheControl := "max-age=31536000,public";
     Info.originalImage := [];
     Info.reductionEffort := None |}.

(** The request information of a Default request for a JPEG original,
    before the output format is decided. *)
Definition undecided : Info.t :=
  {| Info.requestType := RequestTypes.DEFAULT;
     Info.key := VString "images/photo.jpg";
     Info.bucket := VString "images-bucket";
     Info.edits := VUndefined;
     Info.headers := VUndefined;
     Info.outputFormat := VUndefined;
     Info.contentType := "image/jpeg";
     Info.expires := None;
     Info.lastModified := None;
     Info.cacheControl := "max-age=31536000,public";
     Info.originalImage := [];
     Info.reductionEffort := None |}.

(** The decoded records of the two requests with a reduction effort. *)
Definition effort_record : value :=
  VObject
    [("key", VString "images/photo.jpg");
     ("edits",
      VObject [("resize", VObject [("width", VNumber (Finite (100 # 1)))])]);
     ("outputFormat", VString "webp");
     ("reductionEffort", VNumber (Finite (7 # 2)))].

Definition effort_out_of_range_record : value :=
  VObject
    [("key", VString "images/photo.jpg");
     ("outputFormat", VString "webp");
     ("reductionEffort", VNumber (Finite (9 # 1)))].

(** The SVG original of the store of the photos. *)
Definition logo_original : OriginalImage.t :=
  {| OriginalImage.contentType := "image/svg+xml";
     OriginalImage.expires := None;
     OriginalImage.lastModified := None;
     OriginalImage.cacheControl := "max-age=31536000,public";
     OriginalImage.originalImage := [] |}.

Definition logo_location : ImageLocation :=
  {| Bucket := VString "images-bucket"; Key := VString "images/logo.svg" |}.

(** The states of a run on the store of the photos after one fetch of the
    logo and after two. *)
Definition probed : State Store :=
  {| world := Inputs.photos; trace := [GetObject logo_location] |}.

Definition fetched : State Store :=
  {| world := Inputs.photos;
     trace := [GetObject logo_location; GetObject logo_location] |}.

End ExtraInputs.

(** * Properties *)

(** ** Strings and bytes *)

Module JsStringFacts.
Import JsString.

Lemma of_to_list s : of_list (to_list s) = s.
Proof. induction s; simpl; congruence. Qed.

Lemma to_of_list l : to_list (of_list l) = l.
Proof. induction l; simpl; congruence. Qed.

Lemma to_list_app s t : to_list (s ++ t) = (to_list s ++ to_list t)%list.
Proof. induction s; simpl; congruence. Qed.

Lemma length_to_list s : List.length (to_list s) = String.length s.
Proof. induction s; simpl; congruence. Qed.

Lemma mem_In x l : mem x l = true <-> In x l.
Proof.
  unfold mem. rewrite existsb_exists. split.
  - intros [y [Hy He]]. apply String.eqb_eq in He. now subst.
  - intros H. exists x. split; [assumption | apply String.eqb_refl].
Qed.

End JsStringFacts.

Module HexFacts.
Import Js Hex.

Lemma unhex_upper_pair b :
  Byte.of_N (unhex (fst (upper_pair b)) * 16 + unhex (snd (upper_pair b)))
  = Some b.
Proof. destruct b; vm_compute; reflexivity. Qed.

Lemma upper_pair_inj b b' : upper_pair b = upper_pair b' -> b = b'.
Proof.
  intros H. pose proof (unhex_upper_pair b) as Hb.
  rewrite H, unhex_upper_pair in Hb. congruence.
Qed.

Lemma toUpperCase_hex_cons b r :
  toUpperCase (Buffer_toString_hex (b :: r))
  = String (fst (upper_pair b))
      (String (snd (upper_pair b)) (toUpperCase (Buffer_toString_hex r))).
Proof. reflexivity. Qed.

(** The upper-case hexadecimal text of a buffer determines the buffer. *)
Lemma toUpperCase_hex_inj l :
  forall l',
    toUpperCase (Buffer_toString_hex l) = toUpperCase (Buffer_toString_hex l')
    -> l = l'.
Proof.
  induction l as [|b r IH]; intros [|b' r'] H.
  - reflexivity.
  - rewrite toUpperCase_hex_cons in H. discriminate H.
  - rewrite toUpperCase_hex_cons in H. discriminate H.
  - rewrite !toUpperCase_hex_cons in H. injection H as H1 H2 H3.
    f_equal.
    + apply upper_pair_inj. unfold upper_pair in *. simpl in *. congruence.
    + now apply IH.
Qed.

End HexFacts.

(** ** The content-type sniffer *)

Module SnifferFacts.
Import ImageRequest Sniffer.
Import Byte.

Lemma signature_test (sig4 sig : list byte) :
  String.eqb (Js.toUpperCase (Js.Buffer_toString_hex sig4))
    (Js.toUpperCase (Js.Buffer_toString_hex sig)) = true
  -> sig4 = sig.
Proof.
  intros H. apply String.eqb_eq in H. now apply HexFacts.toUpperCase_hex_inj.
Qed.

Lemma inferImageType_unknown (imageBuffer : list byte) :
  (forall sig type, In (sig, type) signatures -> firstn 4 imageBuffer <> sig)
  -> sniff_failure (inferImageType imageBuffer).
Proof.
  intros Hno. unfold inferImageType, Js.Buffer_slice0.
  set (h := Js.toUpperCase (Js.Buffer_toString_hex (firstn 4 imageBuffer))).
  assert (Hf : forall sig type, In (sig, type) signatures ->
               String.eqb h (Js.toUpperCase (Js.Buffer_toString_hex sig))
               = false).
  { intros sig type Hin.
    destruct (String.eqb h _) eqn:E; [|reflexivity].
    apply signature_test in E. exfalso. exact (Hno sig type Hin E). }
  pose proof (Hf [x89; x50; x4e; x47] "image/png") as H1.
  pose proof (Hf [xff; xd8; xff; xdb] "image/jpeg") as H2.
  pose proof (Hf [xff; xd8; xff; xe0] "image/jpeg") as H3.
  pose proof (Hf [xff; xd8; xff; xee] "image/jpeg") as H4.
  pose proof (Hf [xff; xd8; xff; xe1] "image/jpeg") as H5.
  pose proof (Hf [x52; x49; x46; x46] "image/webp") as H6.
  pose proof (Hf [x49; x49; x2a; x00] "image/tiff") as H7.
  pose proof (Hf [x4d; x4d; x00; x2a] "image/tiff") as H8.
  cbv [signatures In] in H1, H2, H3, H4, H5, H6, H7, H8.
  change (Js.toUpperCase (Js.Buffer_toString_hex [x89; x50; x4e; x47]))
    with "89504E47" in H1.
  change (Js.toUpperCase (Js.Buffer_toString_hex [xff; xd8; xff; xdb]))
    with "FFD8FFDB" in H2.
  change (Js.toUpperCase (Js.Buffer_toString_hex [xff; xd8; xff; xe0]))
    with "FFD8FFE0" in H3.
  change (Js.toUpperCase (Js.Buffer_toString_hex [xff; xd8; xff; xee]))
    with "FFD8FFEE" in H4.
  change (Js.toUpperCase (Js.Buffer_toString_hex [xff; xd8; xff; xe1]))
    with "FFD8FFE1" in H5.
  change (Js.toUpperCase (Js.Buffer_toString_hex [x52; x49; x46; x46]))
    with "52494646" in H6.
  change (Js.toUpperCase (Js.Buffer_toString_hex [x49; x49; x2a; x00]))
    with "49492A00" in H7.
  change (Js.toUpperCase (Js.Buffer_toString_hex [x4d; x4d; x00; x2a]))
    with "4D4D002A" in H8.
  rewrite H1, H2, H3, H4, H5, H6, H7, H8; try tauto.
  simpl. eexists. reflexivity.
Qed.

Lemma inferImageType_known (imageBuffer sig : list byte) (type : string) :
  In (sig, type) signatures -> firstn 4 imageBuffer = sig
  -> inferImageType imageBuffer = Return type.
Proof.
  intros Hin Hsig. unfold inferImageType, Js.Buffer_slice0. rewrite Hsig.
  cbv [signatures In] in Hin.
  repeat (destruct Hin as [Hin | Hin];
          [injection Hin as <- <-; vm_compute; reflexivity |]).
  destruct Hin.
Qed.

(** C7. The content-type sniffer depends on the first four bytes of the
    payload only. The signatures 89504E47, FFD8FFDB, FFD8FFE0, FFD8FFEE,
    FFD8FFE1, 52494646, 49492A00 and 4D4D002A (upper-case hexadecimal of the
    four bytes) give image/png, image/jpeg (four times), image/webp and
    image/tiff (twice). On every other signature, and on a buffer of fewer
    than four bytes, it throws RequestTypeError with the status internal
    server error: no content type is returned then. *)
Theorem inferImageType_signatures (imageBuffer : list byte) :
  inferImageType imageBuffer = inferImageType (firstn 4 imageBuffer)
  /\ hex_signatures
     = [ ("89504E47", "image/png"); ("FFD8FFDB", "image/jpeg");
         ("FFD8FFE0", "image/jpeg"); ("FFD8FFEE", "image/jpeg");
         ("FFD8FFE1", "image/jpeg"); ("52494646", "image/webp");
         ("49492A00", "image/tiff"); ("4D4D002A", "image/tiff") ]
  /\ (forall sig type,
        In (sig, type) signatures -> firstn 4 imageBuffer = sig ->
        inferImageType imageBuffer = Return type)
  /\ ((forall sig type,
         In (sig, type) signatures -> firstn 4 imageBuffer <> sig) ->
      sniff_failure (inferImageType imageBuffer))
  /\ (List.length imageBuffer < 4 ->
      sniff_failure (inferImageType imageBuffer)).
Proof.
  split; [|split; [|split; [|split]]].
  - unfold inferImageType, Js.Buffer_slice0.
    now rewrite firstn_firstn, Nat.min_id.
  - vm_compute. reflexivity.
  - intros sig type. apply inferImageType_known.
  - apply inferImageType_unknown.
  - intros Hlen. apply inferImageType_unknown.
    intros sig type Hin Hsig.
    assert (Hl : List.length sig = 4).
    { cbv [signatures In] in Hin.
      repeat (destruct Hin as [Hin | Hin];
              [injection Hin as <- _; reflexivity |]).
      destruct Hin. }
    rewrite <- Hsig, length_firstn in Hl. lia.
Qed.

End SnifferFacts.

(** ** The request classifier *)

Module ClassifierFacts.
Import ImageRequest Classifier.

Section Facts.
Context {rt : Runtime}.
Variable env : Env.

Lemma slice_from_1 (c : ascii) (s : string) :
  JsString.slice_from (String c s) 1 = s.
Proof.
  unfold JsString.slice_from, JsString.slice, JsString.clamp_index.
  simpl String.length.
  replace (1 <? 0)%Z with false by reflexivity.
  replace (Z.of_nat (S (String.length s)) <? 0)%Z with false
    by (symmetry; apply Z.ltb_ge; lia).
  rewrite Nat2Z.id, Nat.min_id.
  replace (Nat.min (S (String.length s)) (Z.to_nat 1)) with 1
    by (change (Z.to_nat 1) with 1; lia).
  simpl skipn.
  replace (S (String.length s) - 1) with (String.length s) by lia.
  rewrite <- JsStringFacts.length_to_list, firstn_all.
  apply JsStringFacts.of_to_list.
Qed.

Lemma encoded_part_eq (path : string) :
  (if JsString.starts_with_char "/" path then JsString.slice_from path 1
   else path) = encoded_part path.
Proof.
  destruct path as [|c s]; [reflexivity|].
  unfold JsString.starts_with_char, encoded_part.
  destruct (Ascii.eqb_spec "/" c) as [<-|Hne].
  - apply slice_from_1.
  - destruct c as [[] [] [] [] [] [] [] []]; try reflexivity.
    now contradiction Hne.
Qed.

Lemma decodeRequest_returns (event : Event) :
  (exists decoded, decodeRequest event = Return decoded)
  <-> trial_decode event.(path).
Proof.
  unfold decodeRequest, trial_decode. rewrite encoded_part_eq.
  destruct (String.eqb_spec event.(path) "") as [He|Hne]; simpl.
  - split.
    + intros [d Hd]. discriminate Hd.
    + intros [Hp _]. contradiction.
  - destruct (JSON_parse _) as [d|].
    + split; intros _; [split; [assumption|] |]; now exists d.
    + split.
      * intros [d Hd]. discriminate Hd.
      * intros [_ [d Hd]]. discriminate Hd.
Qed.

Lemma definedEnvironmentVariables_true :
  negb (Js.env_is env.(REWRITE_MATCH_PATTERN) "")
  && negb (Js.env_is env.(REWRITE_SUBSTITUTION) "")
  && Js.env_defined env.(REWRITE_MATCH_PATTERN)
  && Js.env_defined env.(REWRITE_SUBSTITUTION) = true
  <-> rewrite_configured env.
Proof.
  unfold rewrite_configured.
  destruct env.(REWRITE_MATCH_PATTERN) as [p|],
           env.(REWRITE_SUBSTITUTION) as [s|]; simpl.
  - destruct (String.eqb_spec p ""), (String.eqb_spec s ""); simpl;
      (split;
       [ try discriminate; intros _; now exists p, s
       | intros [p' [s' [Hp [Hs [Hp' Hs']]]]];
         injection Hp as <-; injection Hs as <-;
         try contradiction; reflexivity ]).
  - split;
    [ repeat match goal with
             | |- context [negb (String.eqb ?a ?b)] =>
                 destruct (negb (String.eqb a b))
             end; simpl; discriminate
    | intros [p' [s' [Hp [Hs _]]]]; discriminate ].
  - split;
    [ repeat match goal with
             | |- context [negb (String.eqb ?a ?b)] =>
                 destruct (negb (String.eqb a b))
             end; simpl; discriminate
    | intros [p' [s' [Hp [Hs _]]]]; discriminate ].
  - split;
    [ repeat match goal with
             | |- context [negb (String.eqb ?a ?b)] =>
                 destruct (negb (String.eqb a b))
             end; simpl; discriminate
    | intros [p' [s' [Hp [Hs _]]]]; discriminate ].
Qed.

(** C1. The classification follows the fixed order of priority. A path that
    matches the base64 grammar and whose trial decode succeeds is Default,
    whatever the rewrite variables are. Otherwise the request is Custom when
    both rewrite variables are defined and not empty, whatever the path is.
    Otherwise it is Thumbor when the path matches the Thumbor grammar.
    Otherwise the classification throws RequestTypeError with the status
    bad request. *)
Theorem parseRequestType_priority (event : Event) :
  let path := event.(path) in
  let is_default := base64_grammar path /\ trial_decode path in
  (is_default -> parseRequestType env event = Return RequestTypes.DEFAULT)
  /\ (~ is_default -> rewrite_configured env ->
      parseRequestType env event = Return RequestTypes.CUSTOM)
  /\ (~ is_default -> ~ rewrite_configured env -> thumbor_grammar path ->
      parseRequestType env event = Return RequestTypes.THUMBOR)
  /\ (~ is_default -> ~ rewrite_configured env -> ~ thumbor_grammar path ->
      bad_request (parseRequestType env event)).
Proof.
  intros path is_default. subst is_default path.
  unfold parseRequestType.
  set (b1 := RegExp_test (RegExp_literal matchDefault_source "") _
             && match decodeRequest event with
                | Return _ => true
                | Throw _ => false
                end).
  set (b2 := negb _ && _ && _ && _).
  set (b3 := RegExp_test (RegExp_literal matchThumbor_source "i") _).
  assert (H1 : base64_grammar event.(path)
               /\ trial_decode event.(path) <-> b1 = true).
  { subst b1. unfold base64_grammar.
    rewrite andb_true_iff, <- decodeRequest_returns.
    destruct (decodeRequest event) as [d|e].
    - split; intros [Hb _]; (split; [exact Hb|]);
        [reflexivity | now exists d].
    - split; intros [_ Hd]; [destruct Hd as [d Hd]|]; discriminate. }
  assert (H2 : rewrite_configured env <-> b2 = true).
  { symmetry. apply definedEnvironmentVariables_true. }
  assert (H3 : thumbor_grammar event.(path) <-> b3 = true)
    by reflexivity.
  clearbody b1 b2 b3.
  destruct b1, b2, b3; simpl;
    (split; [|split; [|split]]); intros; try reflexivity;
    try (eexists; reflexivity);
    exfalso; intuition discriminate.
Qed.

End Facts.
End ClassifierFacts.

(** ** The bucket resolver *)

Module BucketResolverFacts.
Import ImageRequest BucketResolver.

Lemma split_chars_hd (l : list ascii) :
  forall cur,
    hd "" (JsString.split_chars "/" cur l)
    = JsString.of_list
        (rev cur ++ JsString.to_list (first_segment (JsString.of_list l))).
Proof.
  induction l as [|d r IH]; intros cur; simpl.
  - now rewrite app_nil_r.
  - destruct (Ascii.eqb d "/"); simpl.
    + now rewrite app_nil_r.
    + rewrite IH. simpl. now rewrite <- app_assoc.
Qed.

(** [key.split('/')[0]] is the first path segment of the key. *)
Lemma split_hd (key : string) :
  hd "" (JsString.split "/" key) = first_segment key.
Proof.
  unfold JsString.split. rewrite split_chars_hd. simpl.
  now rewrite !JsStringFacts.of_to_list.
Qed.

Lemma find_snoc {A} (P : A -> bool) (l : list A) (x : A) :
  find P (l ++ [x])
  = match find P l with
    | Some y => Some y
    | None => if P x then Some x else None
    end.
Proof.
  induction l as [|a l IH]; simpl.
  - reflexivity.
  - destruct (P a); [reflexivity | exact IH].
Qed.

Lemma checkImageBucket_forEach_last alias sourceBuckets :
  forall init,
    checkImageBucket_forEach alias init sourceBuckets
    = or_else (last_containing alias sourceBuckets) init.
Proof.
  unfold last_containing.
  induction sourceBuckets as [|x r IH]; intros init; simpl.
  - reflexivity.
  - rewrite IH, find_snoc.
    destruct (find _ (rev r)); simpl; [reflexivity|].
    destruct (JsString.includes x alias); reflexivity.
Qed.

Section Facts.
Context {rt : Runtime}.
Variable env : Env.

Lemma checkImageBucket_last sourceBuckets alias :
  checkImageBucket env sourceBuckets alias
  = or_else (last_containing alias sourceBuckets)
      env.(DEFAULT_FALLBACK_IMAGE_BUCKET).
Proof. apply checkImageBucket_forEach_last. Qed.

Lemma last_containing_In alias sourceBuckets entry :
  last_containing alias sourceBuckets = Some entry -> In entry sourceBuckets.
Proof.
  unfold last_containing. intros H. apply find_some in H.
  apply in_rev. tauto.
Qed.

Lemma checkImageBucket_listed_or_fallback sourceBuckets alias :
  listed sourceBuckets
    (Js.env_value (checkImageBucket env sourceBuckets alias))
  \/ is_fallback env (Js.env_value (checkImageBucket env sourceBuckets alias)).
Proof.
  rewrite checkImageBucket_last.
  destruct (last_containing alias sourceBuckets) as [entry|] eqn:E; simpl.
  - left. exists entry. split; [reflexivity|].
    now apply last_containing_In with alias.
  - right. reflexivity.
Qed.

(** C6, amended. For a Thumbor or Custom request, and for a Default request
    whose decoded record has no bucket, the resolver takes the first path
    segment of the key as the alias and returns the last entry of the
    allowed list that contains the alias as a substring; when no entry
    contains it, the fallback bucket, which may be unset. *)
Theorem parseImageBucket_by_alias (event : Event) (requestType key : string)
  (sourceBuckets : list string) :
  getAllowedSourceBuckets env = Return sourceBuckets ->
  by_alias event requestType ->
  parseImageBucket env event requestType (VString key)
  = Return
      (Js.env_value
         (or_else (last_containing (first_segment key) sourceBuckets)
            env.(DEFAULT_FALLBACK_IMAGE_BUCKET))).
Proof.
  intros Hsb Halias. unfold parseImageBucket. rewrite Hsb. simpl.
  rewrite split_hd, checkImageBucket_last.
  destruct Halias as [-> | [-> | [-> [request [Hd Hb]]]]].
  - reflexivity.
  - reflexivity.
  - simpl. rewrite Hd. simpl. rewrite Hb. reflexivity.
Qed.

(** C2, amended. The bucket of a request that passes the bucket resolution
    is an entry of the allowed list, or the fallback bucket, or, for a
    Default request with a bucket in its decoded record, a name that matches
    the first entry of the allowed list as an anchored regular expression.
    For a request resolved from the alias only the first two cases occur. *)
Theorem parseImageBucket_allowed (event : Event) (requestType : string)
  (image_key bucket : value) :
  parseImageBucket env event requestType image_key = Return bucket ->
  exists sourceBuckets,
    getAllowedSourceBuckets env = Return sourceBuckets
    /\ (listed sourceBuckets bucket
        \/ is_fallback env bucket
        \/ by_pattern event requestType sourceBuckets bucket)
    /\ (by_alias event requestType ->
        listed sourceBuckets bucket \/ is_fallback env bucket).
Proof.
  unfold parseImageBucket.
  destruct (getAllowedSourceBuckets env) as [sb|e] eqn:Hsb; simpl;
    [|discriminate].
  destruct image_key as [| | | |k| |]; simpl; try discriminate.
  set (alias := hd "" (JsString.split "/" k)).
  pose proof (checkImageBucket_listed_or_fallback sb alias) as Hchk.
  destruct (String.eqb_spec requestType RequestTypes.DEFAULT) as [->|Hnd].
  - destruct (decodeRequest event) as [request|e] eqn:Hd; simpl;
      [|discriminate].
    destruct (JsValue.get request "bucket") as [b|e] eqn:Hb; simpl;
      [|discriminate].
    destruct (JsValue.defined b) eqn:Hdef.
    + destruct (bucket_allowed sb b) as [[|]|e] eqn:Hok; simpl;
        try discriminate.
      intros H. injection H as <-.
      exists sb. split; [reflexivity|].
      assert (Hcase : listed sb b
                      \/ by_pattern event RequestTypes.DEFAULT sb b).
      { unfold bucket_allowed in Hok.
        destruct b as [| | | |b'| |]; try discriminate;
          try (destruct (RegExp_new _ _); discriminate).
        destruct (JsString.mem b' sb) eqn:Hm.
        - left. exists b'. split; [reflexivity|].
          now apply JsStringFacts.mem_In.
        - right. split; [reflexivity|].
          destruct (RegExp_new _ _) as [re|e] eqn:Hre; simpl in Hok;
            [|discriminate].
          injection Hok as Ht.
          exists request, b', re. repeat split; assumption. }
      split; [tauto|].
      intros [Ht | [Hc | [_ [request' [Hd' Hb']]]]]; try discriminate.
      rewrite Hd in Hd'. injection Hd' as <-.
      rewrite Hb in Hb'. injection Hb' as ->. discriminate.
    + intros H. injection H as <-. exists sb. split; [reflexivity|].
      split; [tauto | intros _; exact Hchk].
  - destruct (String.eqb requestType RequestTypes.THUMBOR
              || String.eqb requestType RequestTypes.CUSTOM);
      [|discriminate].
    intros H. injection H as <-. exists sb. split; [reflexivity|].
    split; [tauto | intros _; exact Hchk].
Qed.

End Facts.
End BucketResolverFacts.

(** ** The rewrite of the Custom dialect *)

Module RewriteFacts.
Import ImageRequest Rewrite.

Lemma split_chars_not_nil c cur l : JsString.split_chars c cur l <> [].
Proof.
  revert cur. induction l as [|d r IH]; intros cur; simpl.
  - discriminate.
  - destruct (Ascii.eqb d c); [discriminate | apply IH].
Qed.

Lemma last_cons_not_nil {A} (x : A) (l : list A) (d : A) :
  l <> [] -> last (x :: l) d = last l d.
Proof. destruct l; [contradiction | reflexivity]. Qed.

Lemma split_chars_last (l : list ascii) :
  forall cur,
    last (JsString.split_chars "/" cur l) ""
    = after_last_slash_from (JsString.of_list (rev cur ++ l)) l.
Proof.
  induction l as [|d r IH]; intros cur; simpl.
  - now rewrite app_nil_r.
  - destruct (Ascii.eqb d "/").
    + rewrite last_cons_not_nil by apply split_chars_not_nil.
      rewrite IH. reflexivity.
    + rewrite IH. simpl. now rewrite <- app_assoc.
Qed.

(** [patternStrings.pop()] is what follows the last slash. *)
Lemma split_last (s : string) :
  last (JsString.split "/" s) "" = after_last_slash s.
Proof.
  unfold JsString.split, after_last_slash. rewrite split_chars_last.
  simpl. now rewrite JsStringFacts.of_to_list.
Qed.

Lemma after_last_slash_from_no_slash (l : list ascii) (cur : string) :
  ~ In "/"%char l -> after_last_slash_from cur l = cur.
Proof.
  revert cur. induction l as [|d r IH]; intros cur Hno; simpl.
  - reflexivity.
  - destruct (Ascii.eqb_spec d "/") as [->|Hne].
    + exfalso. apply Hno. now left.
    + apply IH. intros Hin. apply Hno. now right.
Qed.

Lemma after_last_slash_from_app (l1 l2 : list ascii) (cur : string) :
  after_last_slash_from cur (l1 ++ "/"%char :: l2)
  = after_last_slash_from (JsString.of_list l2) l2.
Proof.
  revert cur. induction l1 as [|d r IH]; intros cur; simpl.
  - reflexivity.
  - destruct (Ascii.eqb d "/"); apply IH.
Qed.

Lemma after_last_slash_delimited (s pattern flags : string) :
  delimited s pattern flags -> after_last_slash s = flags.
Proof.
  intros [-> Hno]. unfold after_last_slash.
  change (JsString.to_list ("/" ++ pattern ++ "/" ++ flags))
    with ("/"%char :: JsString.to_list (pattern ++ "/" ++ flags)).
  rewrite JsStringFacts.to_list_app.
  change (JsString.to_list ("/" ++ flags))
    with ("/"%char :: JsString.to_list flags).
  change ("/"%char :: JsString.to_list pattern
          ++ "/"%char :: JsString.to_list flags)%list
    with (("/"%char :: JsString.to_list pattern)
          ++ "/"%char :: JsString.to_list flags)%list.
  rewrite after_last_slash_from_app.
  rewrite after_last_slash_from_no_slash by exact Hno.
  apply JsStringFacts.of_to_list.
Qed.

Lemma length_app (s t : string) :
  String.length (s ++ t) = String.length s + String.length t.
Proof. induction s; simpl; congruence. Qed.

Lemma slice_delimited (s pattern flags : string) :
  delimited s pattern flags ->
  JsString.slice s 1
    (Z.of_nat (String.length s) - 1 - Z.of_nat (String.length flags))
  = pattern.
Proof.
  intros [-> _].
  unfold JsString.slice, JsString.clamp_index.
  rewrite !length_app. simpl String.length.
  set (n := String.length pattern). set (m := String.length flags).
  replace (Z.of_nat (1 + (n + (1 + m))) - 1 - Z.of_nat m)%Z
    with (Z.of_nat (S n)) by lia.
  replace (1 <? 0)%Z with false by reflexivity.
  replace (Z.of_nat (S n) <? 0)%Z with false
    by (symmetry; apply Z.ltb_ge; lia).
  rewrite Nat2Z.id. change (Z.to_nat 1) with 1.
  replace (Nat.min (1 + (n + (1 + m))) 1) with 1 by lia.
  replace (Nat.min (1 + (n + (1 + m))) (S n)) with (S n) by lia.
  replace (S n - 1) with n by lia.
  change (JsString.to_list ("/" ++ pattern ++ "/" ++ flags))
    with ("/"%char :: JsString.to_list (pattern ++ "/" ++ flags)).
  simpl skipn. rewrite JsStringFacts.to_list_app.
  subst n. rewrite <- JsStringFacts.length_to_list.
  rewrite firstn_app, firstn_all, Nat.sub_diag. simpl.
  rewrite app_nil_r. apply JsStringFacts.of_to_list.
Qed.

Section Facts.
Variable env : Env.

(** C5, amended. A match pattern that is a string is always taken apart as
    a delimited regular-expression literal: the flags are what follows its
    last slash (all of it when it has no slash), the pattern is its slice
    from index 1 to the character before the slash of the flags, and the
    path is rewritten by one replace with the regular expression built from
    them. For a string of the form /pattern/flags these are its pattern and
    its flags. The replace with a string pattern is made only when the
    match pattern is undefined. In each case the rewrite is one call of
    replace with the configured substitution. *)
Theorem rewrite_rule_cases :
  (forall s,
     env.(REWRITE_MATCH_PATTERN) = Some s ->
     rewrite_rule env
     = ReplaceRegExp
         (JsString.slice s 1
            (Z.of_nat (String.length s) - 1
             - Z.of_nat (String.length (after_last_slash s))))
         (after_last_slash s)
         (Js.env_ToString env.(REWRITE_SUBSTITUTION)))
  /\ (forall s pattern flags,
        env.(REWRITE_MATCH_PATTERN) = Some s ->
        delimited s pattern flags ->
        rewrite_rule env
        = ReplaceRegExp pattern flags
            (Js.env_ToString env.(REWRITE_SUBSTITUTION)))
  /\ (env.(REWRITE_MATCH_PATTERN) = None ->
      rewrite_rule env
      = ReplaceString "undefined"
          (Js.env_ToString env.(REWRITE_SUBSTITUTION)))
  /\ (forall (rt : Runtime) (event : Event),
        parseImageKey env event RequestTypes.CUSTOM
        = (let* path := apply_rewrite (rewrite_rule env) event.(path) in
           let* result_path := strip_and_decode path in
           let* key := strip_and_decode path in
           Return (VString key))).
Proof.
  assert (H1 : forall s,
     env.(REWRITE_MATCH_PATTERN) = Some s ->
     rewrite_rule env
     = ReplaceRegExp
         (JsString.slice s 1
            (Z.of_nat (String.length s) - 1
             - Z.of_nat (String.length (after_last_slash s))))
         (after_last_slash s)
         (Js.env_ToString env.(REWRITE_SUBSTITUTION))).
  { intros s Hs. unfold rewrite_rule. rewrite Hs, split_last. reflexivity. }
  split; [exact H1 | split; [|split]].
  - intros s pattern flags Hs Hd. rewrite (H1 s Hs).
    rewrite (after_last_slash_delimited Hd), (slice_delimited Hd).
    reflexivity.
  - intros Hs. unfold rewrite_rule. rewrite Hs. reflexivity.
  - intros rt event. reflexivity.
Qed.

End Facts.
End RewriteFacts.

(** ** The monad *)

Module MonadFacts.

Section Facts.
Context {W : Type}.

Lemma bind_Return {A B} (m : M W A) (f : A -> M W B) s a s' :
  m s = (Return a, s') -> bind m f s = f a s'.
Proof. unfold bind. now intros ->. Qed.

Lemma bind_Throw {A B} (m : M W A) (f : A -> M W B) s e s' :
  m s = (Throw e, s') -> bind m f s = (Throw e, s').
Proof. unfold bind. now intros ->. Qed.

Lemma try_catch_Return {A} (m : M W A) h s a s' :
  m s = (Return a, s') -> try_catch m h s = (Return a, s').
Proof. unfold try_catch. now intros ->. Qed.

Lemma try_catch_Throw {A} (m : M W A) h s e s' :
  m s = (Throw e, s') -> try_catch m h s = h e s'.
Proof. unfold try_catch. now intros ->. Qed.

(** A rethrowing handler changes nothing. *)
Lemma try_catch_rethrow {A} (m : M W A) s :
  try_catch m (fun error => throw error) s = m s.
Proof. unfold try_catch, throw. destruct (m s) as [[a|e] s']; reflexivity. Qed.

Lemma bind_inv {A B} (m : M W A) (f : A -> M W B) s r s' :
  bind m f s = (r, s') ->
  (exists a s1, m s = (Return a, s1) /\ f a s1 = (r, s'))
  \/ (exists e, m s = (Throw e, s') /\ r = Throw e).
Proof.
  unfold bind. destruct (m s) as [[a|e] s1]; intros H.
  - left. now exists a, s1.
  - right. injection H as <- <-. now exists e.
Qed.

Lemma lift_run {A} (r : result A) (s : State W) : lift r s = (r, s).
Proof. reflexivity. Qed.

End Facts.
End MonadFacts.

(** ** The signature validator *)

Module SignatureValidatorFacts.
Import ImageRequest SignatureValidator.

Section Facts.
Context {rt : Runtime}.
Variable env : Env.
Context {W : Type} {collaborators : Collaborators W}.

Lemma env_is_Yes :
  Js.env_is env.(ENABLE_SIGNATURE) "Yes" = true <-> signing_enabled env.
Proof.
  unfold signing_enabled, Js.env_is.
  destruct env.(ENABLE_SIGNATURE) as [v|].
  - destruct (String.eqb_spec v "Yes") as [->|Hne].
    + tauto.
    + split; [discriminate|]. intros H. injection H as ->. contradiction.
  - split; discriminate.
Qed.

(** The validation of a request that carries a signature, when signing is
    enabled. *)
Lemma validate_signed (event : Event) (signature : string) (s : State W) :
  signing_enabled env -> signature_of event = Some signature -> signature <> "" ->
  validateRequestSignature env event s
  = match expected_hash env event s.(world) with
    | Return hash =>
        if String.eqb signature hash then (Return tt, after_getSecret env s)
        else (Throw does_not_match, after_getSecret env s)
    | Throw error =>
        if match exn_code error with
           | Some c => String.eqb c "SignatureDoesNotMatch"
           | None => false
           end
        then (Throw error, after_getSecret env s)
        else (Throw validation_failure, after_getSecret env s)
    end.
Proof.
  intros Hen Hsig Hne. apply env_is_Yes in Hen.
  unfold validateRequestSignature. rewrite Hen.
  unfold signature_of in Hsig. rewrite Hsig.
  apply String.eqb_neq in Hne. rewrite Hne.
  change (negb false) with true. cbv iota.
  unfold try_catch, bind, getSecret, lift, expected_hash, after_getSecret.
  destruct (secretProvider_getSecret _ _) as [[secretString|e] w]; simpl;
    [|now destruct (match exn_code e with Some _ => _ | None => _ end)].
  destruct (JSON_parse secretString) as [secret|]; simpl; [|reflexivity].
  destruct (JsValue.get secret _) as [key|e]; simpl;
    [|now destruct (match exn_code e with Some _ => _ | None => _ end)].
  destruct (createHmac_sha256_hex key _) as [hash|e]; simpl;
    [|now destruct (match exn_code e with Some _ => _ | None => _ end)].
  destruct (String.eqb signature hash); reflexivity.
Qed.


End Facts.
End SignatureValidatorFacts.

(** ** The format negotiator: the quality key *)

Module QualityKeyFacts.
Import ImageRequest QualityKey.

Lemma lookup_set_field_same k v fields :
  JsValue.lookup k (Js.set_field k v fields) = v.
Proof.
  induction fields as [|[k' v'] r IH]; simpl.
  - now rewrite String.eqb_refl.
  - destruct (String.eqb k k') eqn:E; simpl; rewrite E; [reflexivity|exact IH].
Qed.

Lemma lookup_set_field_other k k' v fields :
  k' <> k ->
  JsValue.lookup k' (Js.set_field k v fields) = JsValue.lookup k' fields.
Proof.
  intros Hne. induction fields as [|[k0 v0] r IH]; simpl.
  - apply String.eqb_neq in Hne. now rewrite Hne.
  - destruct (String.eqb_spec k k0) as [->|Hk]; simpl.
    + apply String.eqb_neq in Hne. now rewrite Hne.
    + destruct (String.eqb k' k0); [reflexivity | exact IH].
Qed.

Lemma lookup_delete_field_same q fields :
  JsValue.lookup q (Js.delete_field q fields) = VUndefined.
Proof.
  induction fields as [|[k0 v0] r IH]; simpl.
  - reflexivity.
  - destruct (String.eqb q k0) eqn:E; simpl; [|rewrite E]; exact IH.
Qed.

Lemma lookup_delete_field_other q k fields :
  k <> q ->
  JsValue.lookup k (Js.delete_field q fields) = JsValue.lookup k fields.
Proof.
  intros Hne. induction fields as [|[k0 v0] r IH]; simpl.
  - reflexivity.
  - destruct (String.eqb_spec q k0) as [->|Hq]; simpl.
    + apply String.eqb_neq in Hne. now rewrite Hne.
    + destruct (String.eqb k k0); [reflexivity | exact IH].
Qed.

Lemma keys_set_field k v fields :
  map fst (Js.set_field k v fields)
  = (map fst fields
     ++ (if JsString.mem k (map fst fields) then [] else [k]))%list.
Proof.
  induction fields as [|[k0 v0] r IH]; simpl.
  - reflexivity.
  - destruct (String.eqb k k0) eqn:E; simpl.
    + now rewrite app_nil_r.
    + now rewrite IH.
Qed.

Lemma keys_delete_field q fields :
  map fst (Js.delete_field q fields)
  = filter (fun k => negb (String.eqb q k)) (map fst fields).
Proof.
  induction fields as [|[k0 v0] r IH]; simpl.
  - reflexivity.
  - destruct (String.eqb q k0); simpl; now rewrite IH.
Qed.

Lemma filter_hd_find {A} (P : A -> bool) (l : list A) :
  match filter P l with
  | x :: _ => find P l = Some x
  | [] => find P l = None
  end.
Proof.
  induction l as [|a l IH]; simpl; [reflexivity|].
  destruct (P a); [reflexivity | exact IH].
Qed.

Lemma mem_acceptedValues_not_empty k :
  JsString.mem k acceptedValues = true -> String.eqb k "" = false.
Proof.
  intros H. apply JsStringFacts.mem_In in H.
  cbv [acceptedValues In] in H.
  repeat (destruct H as [<- | H]; [reflexivity|]). destruct H.
Qed.

Section Facts.
Context {rt : Runtime}.

(** What setup does to the quality key, for edits that are a mapping. *)
Lemma setup_quality_cases (info : Info.t) (fields : list (string * value)) :
  info.(Info.edits) = VObject fields ->
  match rename_of info fields with
  | Some (q, o) =>
      exists fields',
        setup_quality info
        = Return (Info.set_edits (VObject fields') (with_contentType info))
        /\ JsValue.lookup o fields' = JsValue.lookup q fields
        /\ JsValue.lookup q fields' = VUndefined
        /\ ~ In q (map fst fields')
        /\ (forall k, k <> q -> k <> o ->
              JsValue.lookup k fields' = JsValue.lookup k fields)
        /\ map fst fields'
           = (filter (fun k => negb (String.eqb q k)) (map fst fields)
              ++ (if JsString.mem o (map fst fields) then [] else [o]))%list
  | None => setup_quality info = Return (with_contentType info)
  end.
Proof.
  intros Hedits. unfold rename_of, setup_quality, with_contentType.
  destruct (JsValue.truthy info.(Info.outputFormat)) eqn:Ht.
  2:{ destruct info.(Info.outputFormat) as [| | | |o| |]; try reflexivity.
      simpl in Ht. apply negb_false_iff, String.eqb_eq in Ht. subst o.
      rewrite andb_false_r. reflexivity. }
  cbn [Info.requestType Info.outputFormat Info.edits Info.set_contentType].
  rewrite Hedits.
  assert (Hmem : JsString.mem info.(Info.requestType)
                   [RequestTypes.CUSTOM; RequestTypes.THUMBOR]
                 = String.eqb info.(Info.requestType) RequestTypes.THUMBOR
                   || String.eqb info.(Info.requestType) RequestTypes.CUSTOM).
  { unfold JsString.mem. simpl. rewrite orb_false_r. apply orb_comm. }
  rewrite Hmem.
  destruct info.(Info.outputFormat) as [| | | |o| |] eqn:Ho;
    try (rewrite andb_false_r; reflexivity).
  unfold accepted.
  destruct ((String.eqb info.(Info.requestType) RequestTypes.THUMBOR
             || String.eqb info.(Info.requestType) RequestTypes.CUSTOM)
            && JsString.mem o acceptedValues) eqn:Hc; [|reflexivity].
  simpl Js.Object_keys. cbn [rbind].
  unfold first_quality_key.
  pose proof (filter_hd_find
                (fun key => JsString.mem key acceptedValues)
                (map fst fields)) as Hf.
  destruct (filter _ (map fst fields)) as [|q rest] eqn:Hfilter.
  - rewrite Hf. reflexivity.
  - rewrite Hf.
    assert (Hq : JsString.mem q acceptedValues = true).
    { assert (Hin : In q (filter
                (fun key => JsString.mem key acceptedValues)
                (map fst fields))) by (rewrite Hfilter; now left).
      apply filter_In in Hin. tauto. }
    rewrite (mem_acceptedValues_not_empty _ Hq). simpl negb.
    unfold JsValue.strict_eq_string. rewrite (String.eqb_sym o q).
    destruct (String.eqb_spec q o) as [->|Hne]; simpl; [reflexivity|].
    eexists. split; [reflexivity|].
    split; [|split; [|split; [|split]]].
    + rewrite lookup_delete_field_other by congruence.
      apply lookup_set_field_same.
    + apply lookup_delete_field_same.
    + rewrite keys_delete_field. intros Hin. apply filter_In in Hin.
      destruct Hin as [_ Hin]. now rewrite String.eqb_refl in Hin.
    + intros k Hkq Hko. rewrite lookup_delete_field_other by assumption.
      now apply lookup_set_field_other.
    + rewrite keys_delete_field, keys_set_field, filter_app.
      f_equal. destruct (JsString.mem o (map fst fields)); simpl;
        [reflexivity|].
      apply String.eqb_neq in Hne. now rewrite Hne.
Qed.


End Facts.
End QualityKeyFacts.

(** ** The format negotiator: the reduction effort *)

Module ReductionEffortFacts.
Import ImageRequest ReductionEffort.

Lemma Qle_bool_int (a b : Z) : Qle_bool (a # 1) (b # 1) = (a <=? b)%Z.
Proof.
  unfold Qle_bool. simpl. now rewrite !Z.mul_1_r.
Qed.

(** Inversion of a run that returns. *)
Ltac bind_returns H :=
  let a := fresh "a" in
  let s := fresh "s" in
  let Hm := fresh "Hm" in
  let e := fresh "e" in
  apply MonadFacts.bind_inv in H;
  destruct H as [[a [s [Hm H]]] | [e [Hm H]]]; [|discriminate H].

Section Facts.
Context {rt : Runtime} {mapper : ThumborMapper}.
Variable env : Env.

(** The test [isValid] of setup is the membership in the range. *)
Lemma isValid_in_range (v : value) :
  negb (Js.isNaN (Js.Math_trunc v))
  && Js.ge_int (Js.Math_trunc v) 0 && Js.le_int (Js.Math_trunc v) 6 = true
  <-> in_range (Js.Math_trunc v).
Proof.
  unfold in_range, Js.Math_trunc.
  destruct (Js.ToNumber v) as [|neg|q]; simpl.
  - split; [discriminate|]. intros [z [Hz _]]. discriminate Hz.
  - split.
    + destruct neg; discriminate.
    + intros [z [Hz _]]. discriminate Hz.
  - rewrite !Qle_bool_int.
    set (t := Z.quot (Qnum q) (Z.pos (Qden q))).
    split.
    + intros H. apply andb_true_iff in H. destruct H as [H1 H2].
      apply Z.leb_le in H1, H2. exists t. split; [reflexivity | lia].
    + intros [z [Hz Hr]]. injection Hz as ->.
      apply andb_true_iff. split; apply Z.leb_le; lia.
Qed.

Lemma default_in_range : in_range DEFAULT_REDUCTION_EFFORT.
Proof. exists 4%Z. split; [reflexivity | lia]. Qed.

Lemma stored_effort_in_range (v : value) : in_range (stored_effort v).
Proof.
  unfold stored_effort.
  destruct (negb _ && _ && _) eqn:E.
  - now apply isValid_in_range.
  - apply default_in_range.
Qed.

Lemma setup_svg_effort info info' :
  setup_svg info = Return info' ->
  info'.(Info.reductionEffort) = info.(Info.reductionEffort).
Proof.
  unfold setup_svg.
  destruct (String.eqb _ _ && _); [|now intros [= <-]].
  destruct (Js.Object_keys _) as [keys|e]; simpl; [|discriminate].
  destruct (0 <? List.length keys)%nat; [|now intros [= <-]].
  destruct (JsValue.get _ _) as [t|e]; simpl; [|discriminate].
  destruct (negb _); now intros [= <-].
Qed.

Lemma setup_reductionEffort_effort event outputFormat info info' :
  setup_reductionEffort event outputFormat info = Return info' ->
  effort_kept_or_valid info info'.
Proof.
  unfold setup_reductionEffort, effort_kept_or_valid.
  destruct (JsValue.strict_eq_string _ _ && _);
    [|intros [= <-]; now left].
  destruct (decodeRequest event) as [decoded|e]; simpl; [|discriminate].
  destruct (JsValue.get decoded _) as [v|e]; simpl; [|discriminate].
  destruct (JsValue.defined v); [|intros [= <-]; now left].
  intros [= <-]. right. simpl. eexists. split; [reflexivity|].
  apply stored_effort_in_range.
Qed.

Lemma setup_outputFormat_effort event info info' :
  setup_outputFormat env event info = Return info' ->
  effort_kept_or_valid info info'.
Proof.
  unfold setup_outputFormat.
  destruct (if negb _ then _ else _) as [[|]|e]; simpl;
    try discriminate; [|intros [= <-]; now left].
  destruct (getOutputFormat env event _) as [outputFormat|e]; simpl;
    [|discriminate].
  destruct (setup_reductionEffort event outputFormat info) as [info1|e]
    eqn:H1; simpl; [|discriminate].
  apply setup_reductionEffort_effort in H1.
  destruct (if JsValue.truthy _ then _ else _) as [t|e]; simpl;
    [|discriminate].
  destruct (JsValue.truthy t); [now intros [= <-]|].
  destruct (JsValue.truthy outputFormat); now intros [= <-].
Qed.

Lemma setup_quality_effort info info' :
  setup_quality info = Return info' ->
  info'.(Info.reductionEffort) = info.(Info.reductionEffort).
Proof.
  unfold setup_quality.
  destruct (JsValue.truthy _); [|now intros [= <-]].
  destruct (JsString.mem _ _ && _); [|now intros [= <-]].
  destruct (Js.Object_keys _) as [keys|e]; simpl; [|discriminate].
  destruct (filter _ keys) as [|q rest]; [now intros [= <-]|].
  destruct (negb _ && _); now intros [= <-].
Qed.


End Facts.
End ReductionEffortFacts.

(** ** The format negotiator: an SVG original and automatic WebP *)

Module SvgOutputFacts.
Import ImageRequest SvgOutput.

Lemma get_total (v x : value) (k k' : string) :
  JsValue.get v k = Return x -> exists x', JsValue.get v k' = Return x'.
Proof.
  destruct v; simpl; try discriminate; intros _; eexists; reflexivity.
Qed.

Section Facts.
Context {rt : Runtime} {mapper : ThumborMapper}.
Variable env : Env.

Lemma includes_not_empty (s t : string) :
  t <> "" -> JsString.includes s t = true -> s <> "".
Proof.
  intros Ht H ->. destruct t; [contradiction | discriminate H].
Qed.

Lemma getOutputFormat_auto_webp (event : Event) (requestType : string) :
  auto_webp env event ->
  getOutputFormat env event requestType
  = Return (VString ImageFormatTypes.WEBP).
Proof.
  intros [Hy [Accept [Ha Hi]]]. unfold getOutputFormat.
  rewrite Hy, Ha, Hi. simpl.
  assert (Hne : Accept <> "") by (eapply includes_not_empty; eauto; discriminate).
  apply String.eqb_neq in Hne. rewrite Hne. reflexivity.
Qed.

Lemma parseImageKey_decodable (event : Event) (requestType : string)
  (key : value) :
  parseImageKey env event requestType = Return key ->
  decodable event requestType.
Proof.
  intros Hk ->. unfold parseImageKey in Hk. simpl in Hk.
  destruct (decodeRequest event) as [decoded|e]; [|discriminate Hk].
  exists decoded. split; [reflexivity|].
  intros k. simpl in Hk. now apply get_total with key "key".
Qed.

Lemma parseImageHeaders_returns (event : Event) (requestType : string) :
  decodable event requestType ->
  exists h, parseImageHeaders event requestType = Return h.
Proof.
  intros Hd. unfold parseImageHeaders.
  destruct (String.eqb_spec requestType RequestTypes.DEFAULT) as [E|E].
  - destruct (Hd E) as [decoded [-> Hget]]. simpl.
    destruct (Hget "headers") as [h ->]. simpl.
    destruct (JsValue.truthy h); eexists; reflexivity.
  - eexists. reflexivity.
Qed.

Lemma setup_reductionEffort_returns (event : Event) (outputFormat : value)
  (info : Info.t) :
  decodable event info.(Info.requestType) ->
  exists info',
    setup_reductionEffort event outputFormat info = Return info'
    /\ info'.(Info.requestType) = info.(Info.requestType)
    /\ info'.(Info.edits) = info.(Info.edits)
    /\ info'.(Info.contentType) = info.(Info.contentType)
    /\ info'.(Info.outputFormat) = info.(Info.outputFormat).
Proof.
  intros Hd. unfold setup_reductionEffort.
  destruct (JsValue.strict_eq_string _ _); simpl;
    [|now exists info].
  destruct (String.eqb_spec info.(Info.requestType) RequestTypes.DEFAULT)
    as [E|E]; [|now exists info].
  destruct (Hd E) as [decoded [-> Hget]]. simpl.
  destruct (Hget "reductionEffort") as [v ->]. simpl.
  destruct (JsValue.defined v); eexists; repeat split; reflexivity.
Qed.

(** The blocks of setup on an SVG original with edits and no output format
    among them, when WebP is negotiated. *)
Lemma blocks_svg_auto_webp (event : Event) (info : Info.t)
  (fields : list (string * value)) :
  info.(Info.contentType) = "image/svg+xml" ->
  info.(Info.edits) = VObject fields -> fields <> [] ->
  JsValue.lookup "toFormat" fields = VUndefined ->
  auto_webp env event ->
  decodable event info.(Info.requestType) ->
  setup_svg info
  = Return (Info.set_outputFormat (VString ImageFormatTypes.PNG) info)
  /\ exists info2 info3,
       setup_outputFormat env event
         (Info.set_outputFormat (VString ImageFormatTypes.PNG) info)
       = Return info2
       /\ setup_quality info2 = Return info3
       /\ info3.(Info.outputFormat) = VString ImageFormatTypes.WEBP
       /\ info3.(Info.contentType) = "image/webp".
Proof.
  intros Hct Hed Hne Hto Hweb Hdec.
  assert (Hsvg : setup_svg info
    = Return (Info.set_outputFormat (VString ImageFormatTypes.PNG) info)).
  { unfold setup_svg. rewrite Hct, Hed. simpl.
    destruct fields as [|f r]; [contradiction|]. simpl.
    simpl in Hto. rewrite Hto. reflexivity. }
  split; [exact Hsvg|].
  set (info1 := Info.set_outputFormat (VString ImageFormatTypes.PNG) info).
  unfold setup_outputFormat.
  replace (Info.contentType info1) with "image/svg+xml" by (symmetry; exact Hct).
  replace (Info.edits info1) with (VObject fields) by (symmetry; exact Hed).
  simpl negb. cbv iota. simpl JsValue.get. rewrite Hto. simpl.
  rewrite (getOutputFormat_auto_webp _ Hweb). simpl.
  destruct (@setup_reductionEffort_returns event
              (VString ImageFormatTypes.WEBP) info1 Hdec)
    as [info' [Hre [Hrt [Hed' [Hct' Hof']]]]].
  unfold RequestTypes.DEFAULT in *.
  change (Info.requestType info1) with (Info.requestType info) in *.
  match goal with
  | |- context [setup_reductionEffort ?e ?o ?i] =>
      change (setup_reductionEffort e o i)
        with (setup_reductionEffort event (VString ImageFormatTypes.WEBP)
                info1)
  end.
  rewrite Hre. simpl. rewrite Hed'.
  change (Info.edits info1) with (Info.edits info). rewrite Hed.
  simpl. rewrite Hto. simpl.
  eexists. 
  pose proof (@QualityKeyFacts.setup_quality_cases rt
    (Info.set_outputFormat (VString ImageFormatTypes.WEBP) info') fields)
    as Hq.
  assert (Hed2 : Info.edits
            (Info.set_outputFormat (VString ImageFormatTypes.WEBP) info')
          = VObject fields).
  { simpl. rewrite Hed'. exact Hed. }
  specialize (Hq Hed2).
  destruct (QualityKey.rename_of _ fields) as [[q o]|].
  - destruct Hq as [fields' [Hq _]]. eexists. split; [reflexivity|].
    split; [exact Hq|]. split; reflexivity.
  - eexists. split; [reflexivity|]. split; [exact Hq|].
    split; reflexivity.
Qed.

Section Run.
Context {W : Type} {collaborators : Collaborators W}.


End Run.
End Facts.
End SvgOutputFacts.

(** ** The origin fetcher *)

Module OriginFetcherFacts.
Import ImageRequest OriginFetcher.

Lemma fetches_app (l1 l2 : list call) :
  fetches (l1 ++ l2) = (fetches l1 ++ fetches l2)%list.
Proof.
  induction l1 as [|[loc|id] r IH]; simpl; [reflexivity| |exact IH].
  now rewrite IH.
Qed.

Lemma lastIndexOf_succ_no_slash (l : list ascii) :
  ~ In "/"%char l -> JsString.lastIndexOf_succ "/" l = 0.
Proof.
  induction l as [|d r IH]; intros Hno; simpl; [reflexivity|].
  rewrite IH by (intros Hin; apply Hno; now right).
  destruct (Ascii.eqb_spec d "/") as [->|]; [|reflexivity].
  exfalso. apply Hno. now left.
Qed.

Lemma lastIndexOf_succ_app (l1 l2 : list ascii) :
  ~ In "/"%char l2 ->
  JsString.lastIndexOf_succ "/" (l1 ++ "/"%char :: l2)
  = S (List.length l1).
Proof.
  intros Hno. induction l1 as [|d r IH]; simpl.
  - now rewrite lastIndexOf_succ_no_slash.
  - now rewrite IH.
Qed.

(** The prefix is the directory of the key: a key [dir/name], where [name]
    has no slash, has the prefix [dir/], and a key without a slash the
    empty prefix. *)
Lemma directory_prefix_spec (dir name : string) :
  Rewrite.no_slash name ->
  directory_prefix (dir ++ "/" ++ name) = dir ++ "/"
  /\ directory_prefix name = "".
Proof.
  intros Hno. unfold directory_prefix, JsString.substring0. split.
  - rewrite JsStringFacts.to_list_app.
    change (JsString.to_list ("/" ++ name))
      with ("/"%char :: JsString.to_list name).
    rewrite lastIndexOf_succ_app by exact Hno.
    replace (JsString.to_list dir ++ "/"%char :: JsString.to_list name)%list
      with ((JsString.to_list dir ++ ["/"%char]) ++ JsString.to_list name)%list
      by (now rewrite <- app_assoc).
    replace (S (List.length (JsString.to_list dir)))
      with (List.length (JsString.to_list dir ++ ["/"%char])%list)
      by (rewrite length_app; simpl; lia).
    rewrite firstn_app, firstn_all, Nat.sub_diag. simpl.
    rewrite app_nil_r.
    change ["/"%char] with (JsString.to_list "/").
    rewrite <- JsStringFacts.to_list_app. apply JsStringFacts.of_to_list.
  - now rewrite lastIndexOf_succ_no_slash.
Qed.

Section Counting.
Context {W : Type}.

Lemma adds_ret {A} (a : A) : adds_at_most (W := W) 0 (ret a).
Proof. intros s. exists []. simpl. now rewrite app_nil_r. Qed.

Lemma adds_throw {A} (e : exn) : adds_at_most (W := W) (A := A) 0 (throw e).
Proof. intros s. exists []. simpl. now rewrite app_nil_r. Qed.

Lemma adds_lift {A} (r : result A) : adds_at_most (W := W) 0 (lift r).
Proof. intros s. exists []. simpl. now rewrite app_nil_r. Qed.

Lemma adds_weaken {A} (k k' : nat) (m : M W A) :
  k <= k' -> adds_at_most k m -> adds_at_most k' m.
Proof.
  intros Hle H s. destruct (H s) as [extra [Ht Hc]].
  exists extra. split; [assumption | lia].
Qed.

Lemma adds_bind {A B} (k1 k2 : nat) (m : M W A) (f : A -> M W B) :
  adds_at_most k1 m -> (forall a, adds_at_most k2 (f a)) ->
  adds_at_most (k1 + k2) (bind m f).
Proof.
  intros Hm Hf s. unfold bind.
  destruct (Hm s) as [e1 [Ht1 Hc1]].
  destruct (m s) as [[a|e] s1]; simpl in *.
  - destruct (Hf a s1) as [e2 [Ht2 Hc2]].
    exists (e1 ++ e2)%list. split.
    + now rewrite Ht2, Ht1, app_assoc.
    + rewrite fetches_app, length_app. lia.
  - exists e1. split; [assumption | lia].
Qed.

Lemma adds_try_catch {A} (k1 k2 : nat) (m : M W A) (h : exn -> M W A) :
  adds_at_most k1 m -> (forall e, adds_at_most k2 (h e)) ->
  adds_at_most (k1 + k2) (try_catch m h).
Proof.
  intros Hm Hh s. unfold try_catch.
  destruct (Hm s) as [e1 [Ht1 Hc1]].
  destruct (m s) as [[a|e] s1]; simpl in *.
  - exists e1. split; [assumption | lia].
  - destruct (Hh e s1) as [e2 [Ht2 Hc2]].
    exists (e1 ++ e2)%list. split.
    + now rewrite Ht2, Ht1, app_assoc.
    + rewrite fetches_app, length_app. lia.
Qed.

Context {collaborators : Collaborators W}.

Lemma adds_getObject (location : ImageLocation) :
  adds_at_most 1 (getObject location).
Proof.
  intros s. unfold getObject.
  destruct (s3Client_getObject location s.(world)) as [r w]. simpl.
  exists [GetObject location]. split; [reflexivity | simpl; lia].
Qed.

Lemma adds_getSecret (id : option string) :
  adds_at_most 0 (getSecret id).
Proof.
  intros s. unfold getSecret.
  destruct (secretProvider_getSecret id s.(world)) as [r w]. simpl.
  exists [GetSecret id]. split; [reflexivity | simpl; lia].
Qed.

End Counting.

Section Facts.
Context {rt : Runtime} {mapper : ThumborMapper}.
Variable env : Env.
Context {W : Type} {collaborators : Collaborators W}.

Lemma setup_probe_run (bucket : value) (key : string) (s : State W) :
  let location := {| Bucket := bucket; Key := VString key |} in
  setup_probe bucket (VString key) s
  = (Return
       (VString
          (key_after (fst (s3Client_getObject location s.(world))) key)),
     after_fetch location s).
Proof.
  unfold setup_probe, try_catch, bind, getObject, after_fetch, ret.
  simpl. destruct (s3Client_getObject _ _) as [[o|e] w]; reflexivity.
Qed.

Lemma getOriginalImage_state (bucket key : value) (s : State W) :
  snd (getOriginalImage bucket key s)
  = after_fetch {| Bucket := bucket; Key := key |} s.
Proof.
  unfold getOriginalImage, try_catch, bind, getObject, after_fetch, lift,
    ret, throw.
  destruct (s3Client_getObject _ _) as [[o|e] w]; simpl; [|reflexivity].
  destruct (match ContentType o with Some _ => _ | None => _ end);
    reflexivity.
Qed.

Lemma getOriginalImage_error (bucket key : value) (s : State W) (e : exn) :
  fst (s3Client_getObject {| Bucket := bucket; Key := key |} s.(world))
  = Throw e ->
  fst (getOriginalImage bucket key s) = Throw (surfaced key e).
Proof.
  unfold getOriginalImage, try_catch, bind, getObject, surfaced, not_found,
    throw.
  destruct (s3Client_getObject _ _) as [[o|e'] w]; simpl; [discriminate|].
  intros [= ->].
  destruct (match exn_code e with Some _ => _ | None => _ end); reflexivity.
Qed.

Lemma adds_validate (event : Event) :
  adds_at_most 0 (validateRequestSignature env event).
Proof.
  unfold validateRequestSignature.
  destruct (Js.env_is _ _); [|apply adds_ret].
  destruct (match queryStringParameters event with
            | Some _ => _ | None => _ end) as [signature|];
    [|apply adds_throw].
  destruct (negb _); [|apply adds_throw].
  apply (adds_try_catch (k1 := 0) (k2 := 0)).
  - apply (adds_bind (k1 := 0) (k2 := 0)); [apply adds_getSecret|].
    intros secretString.
    apply (adds_bind (k1 := 0) (k2 := 0)); [apply adds_lift|].
    intros secret.
    apply (adds_bind (k1 := 0) (k2 := 0)); [apply adds_lift|].
    intros key.
    apply (adds_bind (k1 := 0) (k2 := 0)); [apply adds_lift|].
    intros hash. destruct (negb _); [apply adds_throw | apply adds_ret].
  - intros e. destruct (match exn_code e with Some _ => _ | None => _ end);
      apply adds_throw.
Qed.

Lemma adds_probe (bucket key : value) :
  adds_at_most 1 (setup_probe bucket key).
Proof.
  unfold setup_probe.
  apply (adds_try_catch (k1 := 1) (k2 := 0)).
  - apply (adds_bind (k1 := 1) (k2 := 0)); [apply adds_getObject|].
    intros _. apply adds_ret.
  - intros _. destruct key; try apply adds_throw. apply adds_ret.
Qed.

Lemma adds_getOriginalImage (bucket key : value) :
  adds_at_most 1 (getOriginalImage bucket key).
Proof.
  unfold getOriginalImage.
  apply (adds_try_catch (k1 := 1) (k2 := 0)).
  - apply (adds_bind (k1 := 1) (k2 := 0)); [apply adds_getObject|].
    intros o.
    apply (adds_bind (k1 := 0) (k2 := 0)); [apply adds_lift|].
    intros c. apply adds_ret.
  - intros e. apply adds_throw.
Qed.

(** setup adds at most two fetches to the trace. *)
Lemma adds_setup (event : Event) : adds_at_most 2 (setup env event).
Proof.
  unfold setup.
  apply (adds_try_catch (k1 := 2) (k2 := 0)); [|intros e; apply adds_throw].
  apply (adds_bind (k1 := 0) (k2 := 2)); [apply adds_validate|].
  intros _.
  apply (adds_bind (k1 := 0) (k2 := 2)); [apply adds_lift|].
  intros requestType.
  apply (adds_bind (k1 := 0) (k2 := 2)); [apply adds_lift|].
  intros key.
  apply (adds_bind (k1 := 0) (k2 := 2)); [apply adds_lift|].
  intros bucket.
  apply (adds_bind (k1 := 1) (k2 := 1)); [apply adds_probe|].
  intros key'.
  apply (adds_bind (k1 := 0) (k2 := 1)); [apply adds_lift|].
  intros edits.
  apply (adds_bind (k1 := 1) (k2 := 0)); [apply adds_getOriginalImage|].
  intros original.
  apply (adds_bind (k1 := 0) (k2 := 0)); [apply adds_lift|].
  intros h.
  apply (adds_bind (k1 := 0) (k2 := 0)); [apply adds_lift|].
  intros i1.
  apply (adds_bind (k1 := 0) (k2 := 0)); [apply adds_lift|].
  intros i2.
  apply (adds_bind (k1 := 0) (k2 := 0)); [apply adds_lift|].
  intros i3. apply adds_ret.
Qed.

(** C3, amended. Whenever the first fetch of the object fails, with any
    error, the key is rewritten to its directory prefix followed by
    default.jpg, the bucket being unchanged; when it succeeds the key is
    kept. Once the edits are parsed the object is fetched once more, at the
    resulting key. A failure of that fetch with the code NoSuchKey is
    thrown as an error of status not found, any other failure as an error
    of status internal server error with the code and the message of the
    failure. A run of setup makes no more than these two fetches. *)
Theorem setup_fetches (event : Event) (s s1 : State W)
  (requestType key : string) (bucket : value) :
  validateRequestSignature env event s = (Return tt, s1) ->
  parseRequestType env event = Return requestType ->
  parseImageKey env event requestType = Return (VString key) ->
  parseImageBucket env event requestType (VString key) = Return bucket ->
  let first := {| Bucket := bucket; Key := VString key |} in
  let key' := key_after (fst (s3Client_getObject first s1.(world))) key in
  let second := {| Bucket := bucket; Key := VString key' |} in
  let s2 := after_fetch first s1 in
  (forall e,
     parseImageEdits event requestType = Throw e ->
     setup env event s = (Throw e, s2))
  /\ (forall edits,
        parseImageEdits event requestType = Return edits ->
        snd (setup env event s) = after_fetch second s2
        /\ forall e,
             fst (s3Client_getObject second s2.(world)) = Throw e ->
             fst (setup env event s) = Throw (surfaced (VString key') e))
  /\ adds_at_most 2 (setup env event).
Proof.
  intros Hv Hrt Hk Hb first key' second s2.
  assert (Hrun : forall r,
    parseImageEdits event requestType = r ->
    setup env event s
    = match r with
      | Throw e => (Throw e, s2)
      | Return edits =>
          bind (getOriginalImage bucket (VString key'))
            (fun originalImage =>
               bind (lift (parseImageHeaders event requestType))
                 (fun headers =>
                    let imageRequestInfo :=
                      {| Info.requestType := requestType;
                         Info.key := VString key';
                         Info.bucket := bucket;
                         Info.edits := edits;
                         Info.headers := headers;
                         Info.outputFormat := VUndefined;
                         Info.contentType :=
                           originalImage.(OriginalImage.contentType);
                         Info.expires :=
                           originalImage.(OriginalImage.expires);
                         Info.lastModified :=
                           originalImage.(OriginalImage.lastModified);
                         Info.cacheControl :=
                           originalImage.(OriginalImage.cacheControl);
                         Info.originalImage :=
                           originalImage.(OriginalImage.originalImage);
                         Info.reductionEffort := None |} in
                    bind (lift (setup_svg imageRequestInfo))
                      (fun i1 =>
                         bind (lift (setup_outputFormat env event i1))
                           (fun i2 =>
                              bind (lift (setup_quality i2))
                                (fun i3 => ret i3))))) s2
      end).
  { intros r Hr. unfold setup. rewrite MonadFacts.try_catch_rethrow.
    rewrite (MonadFacts.bind_Return _ _ _ Hv).
    unfold bind at 1. unfold lift at 1. rewrite Hrt.
    unfold bind at 1. unfold lift at 1. rewrite Hk.
    unfold bind at 1. unfold lift at 1. rewrite Hb.
    rewrite (MonadFacts.bind_Return _ _ _ (setup_probe_run bucket key s1)).
    unfold bind at 1. unfold lift at 1. rewrite Hr.
    destruct r; reflexivity. }
  split; [|split].
  - intros e He. exact (Hrun _ He).
  - intros edits He. rewrite (Hrun _ He).
    pose proof (getOriginalImage_state bucket (VString key') s2) as Hst.
    pose proof (@getOriginalImage_error bucket (VString key') s2) as Herr.
    fold second in Hst, Herr.
    revert Hst Herr.
    destruct (getOriginalImage bucket (VString key') s2) as [[o|e0] s3]
      eqn:Hg; simpl; intros Hst Herr.
    + rewrite (MonadFacts.bind_Return _ _ _ Hg). split.
      * unfold bind, lift, ret. simpl in Hst.
        destruct (parseImageHeaders event requestType); [|exact Hst].
        destruct (setup_svg _); [|exact Hst].
        destruct (setup_outputFormat env event _); [|exact Hst].
        destruct (setup_quality _); exact Hst.
      * intros e Hf. specialize (Herr e Hf). discriminate Herr.
    + rewrite (MonadFacts.bind_Throw _ _ _ Hg). simpl.
      split; [exact Hst|]. intros e Hf.
      specialize (Herr e Hf). now injection Herr as ->.
  - apply adds_setup.
Qed.

End Facts.
End OriginFetcherFacts.

(** * Further properties *)

(** ** Strings: the list of buckets and the key of the default image *)

Module StringsExtra.
Import ImageRequest Extra.

Lemma of_list_app (l1 l2 : list ascii) :
  JsString.of_list (l1 ++ l2)
  = JsString.of_list l1 ++ JsString.of_list l2.
Proof. induction l1; simpl; congruence. Qed.

Lemma string_app_assoc (a b c : string) : (a ++ b) ++ c = a ++ b ++ c.
Proof. induction a; simpl; congruence. Qed.

Lemma string_app_nil_r (a : string) : a ++ "" = a.
Proof. induction a; simpl; congruence. Qed.

Lemma split_chars_nonempty (c : ascii) (l cur : list ascii) :
  JsString.split_chars c cur l <> [].
Proof.
  revert cur. induction l as [|d r IH]; intros cur; simpl.
  - discriminate.
  - destruct (Ascii.eqb d c); [discriminate | apply IH].
Qed.

Lemma join_cons (sep x : string) (l : list string) :
  l <> [] -> Js.join sep (x :: l) = x ++ sep ++ Js.join sep l.
Proof. destruct l; [contradiction | reflexivity]. Qed.

(** Joining the pieces of a split gives the string back. *)
Lemma join_split_chars (l : list ascii) :
  forall cur,
    Js.join "," (JsString.split_chars "," cur l)
    = JsString.of_list (rev cur ++ l).
Proof.
  induction l as [|d r IH]; intros cur; simpl JsString.split_chars.
  - simpl. now rewrite app_nil_r.
  - destruct (Ascii.eqb_spec d ",") as [->|Hne].
    + rewrite join_cons by apply split_chars_nonempty.
      rewrite IH. simpl rev. simpl app. now rewrite of_list_app.
    + rewrite IH. simpl. now rewrite <- app_assoc.
Qed.

Lemma join_split (s : string) : Js.join "," (JsString.split "," s) = s.
Proof.
  unfold JsString.split. rewrite join_split_chars. simpl.
  apply JsStringFacts.of_to_list.
Qed.

(** No piece of a split contains the separator. *)
Lemma split_chars_no_comma (l : list ascii) :
  forall cur,
    ~ In ","%char cur ->
    forall piece,
      In piece (JsString.split_chars "," cur l) -> no_comma piece.
Proof.
  induction l as [|d r IH]; intros cur Hcur piece Hin;
    simpl JsString.split_chars in Hin.
  - destruct Hin as [<- | []]. unfold no_comma.
    rewrite JsStringFacts.to_of_list. intros H. apply in_rev in H. tauto.
  - destruct (Ascii.eqb_spec d ",") as [->|Hne].
    + destruct Hin as [<- | Hin].
      * unfold no_comma. rewrite JsStringFacts.to_of_list.
        intros H. apply in_rev in H. tauto.
      * apply (IH [] (fun H => H) piece Hin).
    + apply (IH (d :: cur)); [|exact Hin].
      intros [H | H]; [congruence | tauto].
Qed.

Lemma split_no_comma (s piece : string) :
  In piece (JsString.split "," s) -> no_comma piece.
Proof. apply split_chars_no_comma. intros []. Qed.

(** Every key is its directory prefix followed by a name without slash,
    and the prefix is empty or ends with a slash. *)
Lemma lastIndexOf_succ_split (l : list ascii) :
  exists name,
    l = (firstn (JsString.lastIndexOf_succ "/" l) l ++ name)%list
    /\ ~ In "/"%char name
    /\ (JsString.lastIndexOf_succ "/" l = 0
        \/ exists d,
             firstn (JsString.lastIndexOf_succ "/" l) l
             = (d ++ ["/"%char])%list).
Proof.
  induction l as [|c r IH].
  - exists []. simpl. tauto.
  - destruct IH as [name [Hl [Hno Hdir]]]. simpl.
    destruct (JsString.lastIndexOf_succ "/" r) as [|n] eqn:E.
    + destruct (Ascii.eqb_spec c "/") as [->|Hne].
      * exists r. simpl. split; [reflexivity|]. split.
        -- simpl in Hl. rewrite Hl. exact Hno.
        -- right. exists []. reflexivity.
      * exists (c :: r). simpl. split; [reflexivity|]. split; [|now left].
        simpl in Hl. rewrite Hl. intros [H | H]; [congruence | tauto].
    + exists name. split; [|split; [exact Hno|]].
      * change (c :: r = c :: (firstn (S n) r ++ name)%list).
        f_equal. exact Hl.
      * right. destruct Hdir as [Hd | [d Hd]]; [discriminate|].
        exists (c :: d).
        change (firstn (S (S n)) (c :: r)) with (c :: firstn (S n) r).
        now rewrite Hd.
Qed.

Lemma directory_prefix_split (key : string) :
  exists name,
    key = OriginFetcher.directory_prefix key ++ name
    /\ Rewrite.no_slash name
    /\ directory (OriginFetcher.directory_prefix key).
Proof.
  unfold OriginFetcher.directory_prefix, JsString.substring0.
  destruct (lastIndexOf_succ_split (JsString.to_list key))
    as [name [Hl [Hno Hdir]]].
  exists (JsString.of_list name). split; [|split].
  - rewrite <- of_list_app, <- Hl. symmetry. apply JsStringFacts.of_to_list.
  - unfold Rewrite.no_slash. now rewrite JsStringFacts.to_of_list.
  - destruct Hdir as [-> | [d ->]]; [now left|].
    right. exists (JsString.of_list d). now rewrite of_list_app.
Qed.

Lemma directory_prefix_of_directory (dir name : string) :
  directory dir -> Rewrite.no_slash name ->
  OriginFetcher.directory_prefix (dir ++ name) = dir.
Proof.
  intros [-> | [d ->]] Hno.
  - apply (OriginFetcherFacts.directory_prefix_spec "" Hno).
  - rewrite string_app_assoc.
    apply (OriginFetcherFacts.directory_prefix_spec d Hno).
Qed.

Lemma default_jpg_no_slash : Rewrite.no_slash "default.jpg".
Proof.
  unfold Rewrite.no_slash. simpl.
  intros H. repeat (destruct H as [H | H]; [discriminate H|]). exact H.
Qed.

End StringsExtra.

(** ** The synchronous methods *)

Module MethodsExtra.
Import ImageRequest Extra.

Section Facts.
Context {rt : Runtime} {mapper : ThumborMapper}.
Variable env : Env.

Lemma getAllowedSourceBuckets_nonempty (sourceBuckets : list string) :
  getAllowedSourceBuckets env = Return sourceBuckets -> sourceBuckets <> [].
Proof.
  unfold getAllowedSourceBuckets.
  destruct env.(SOURCE_BUCKETS); [|discriminate].
  intros [= <-]. apply StringsExtra.split_chars_nonempty.
Qed.

(** X1. The list of the allowed buckets cannot be read only when the
    variable is undefined, and this is a bad request. When the variable is
    defined, even as the empty string, there is a list; it is never empty,
    none of its entries contains a comma, and the entries joined by commas
    are the variable with its white space removed. *)
Theorem getAllowedSourceBuckets_list :
  (env.(SOURCE_BUCKETS) = None ->
   handler_error (getAllowedSourceBuckets env) BAD_REQUEST
     "GetAllowedSourceBuckets::NoSourceBuckets")
  /\ (forall s,
        env.(SOURCE_BUCKETS) = Some s ->
        exists sourceBuckets,
          getAllowedSourceBuckets env = Return sourceBuckets
          /\ sourceBuckets <> []
          /\ (forall entry, In entry sourceBuckets -> no_comma entry)
          /\ Js.join "," sourceBuckets
             = RegExp_replace (RegExp_literal whitespace_source "g") s "").
Proof.
  split.
  - intros H. unfold getAllowedSourceBuckets. rewrite H.
    eexists. reflexivity.
  - intros s H. unfold getAllowedSourceBuckets. rewrite H.
    eexists. split; [reflexivity|]. split; [|split].
    + apply StringsExtra.split_chars_nonempty.
    + intros entry. apply StringsExtra.split_no_comma.
    + apply StringsExtra.join_split.
Qed.


(** X3. The classification returns one of the three dialects or fails with
    a bad request. An empty path is never Default. When both rewrite
    variables are set the classification never fails and is never
    Thumbor. *)
Theorem parseRequestType_range (event : Event) :
  ((exists requestType,
      parseRequestType env event = Return requestType
      /\ dialect requestType)
   \/ handler_error (parseRequestType env event) BAD_REQUEST
        "RequestTypeError")
  /\ (event.(path) = "" ->
      parseRequestType env event <> Return RequestTypes.DEFAULT)
  /\ (Classifier.rewrite_configured env ->
      parseRequestType env event = Return RequestTypes.DEFAULT
      \/ parseRequestType env event = Return RequestTypes.CUSTOM).
Proof.
  pose proof (ClassifierFacts.definedEnvironmentVariables_true env) as Hcfg.
  unfold parseRequestType.
  set (b2 := negb _ && _ && _ && _) in *.
  split; [|split].
  - destruct (RegExp_test _ _ && _).
    + left. eexists. split; [reflexivity|]. left. reflexivity.
    + destruct b2.
      * left. eexists. split; [reflexivity|]. right. left. reflexivity.
      * destruct (RegExp_test _ _).
        -- left. eexists. split; [reflexivity|]. right. right. reflexivity.
        -- right. eexists. reflexivity.
  - intros Hp. unfold decodeRequest. rewrite Hp. simpl.
    rewrite andb_false_r.
    destruct b2; [discriminate|].
    destruct (RegExp_test _ _); discriminate.
  - intros Hc. apply Hcfg in Hc. rewrite Hc.
    destruct (RegExp_test _ _ && _); [left | right]; reflexivity.
Qed.

(** X4. With a request type that is none of the three dialects, the key
    cannot be found (not found), the edits cannot be parsed (bad request),
    the bucket cannot be found (not found) once the list of the buckets is
    read and the key is a string; no headers are returned, and the output
    format is WebP when it is negotiated and null otherwise. *)
Theorem unknown_dialect (event : Event) (requestType : string) :
  ~ dialect requestType ->
  handler_error (parseImageKey env event requestType) NOT_FOUND
    "ImageEdits::CannotFindImage"
  /\ handler_error (parseImageEdits event requestType) BAD_REQUEST
       "ImageEdits::CannotParseEdits"
  /\ (forall sourceBuckets key,
        getAllowedSourceBuckets env = Return sourceBuckets ->
        handler_error
          (parseImageBucket env event requestType (VString key)) NOT_FOUND
          "ImageBucket::CannotFindBucket")
  /\ parseImageHeaders event requestType = Return VUndefined
  /\ (getOutputFormat env event requestType
      = Return (VString ImageFormatTypes.WEBP)
      \/ getOutputFormat env event requestType = Return VNull).
Proof.
  intros Hn.
  assert (Hd : String.eqb requestType RequestTypes.DEFAULT = false).
  { apply String.eqb_neq. intros H. apply Hn. now left. }
  assert (Hc : String.eqb requestType RequestTypes.CUSTOM = false).
  { apply String.eqb_neq. intros H. apply Hn. right. now left. }
  assert (Ht : String.eqb requestType RequestTypes.THUMBOR = false).
  { apply String.eqb_neq. intros H. apply Hn. right. now right. }
  split; [|split; [|split; [|split]]].
  - unfold parseImageKey. rewrite Hd, Hc, Ht. eexists. reflexivity.
  - unfold parseImageEdits. rewrite Hd, Hc, Ht. eexists. reflexivity.
  - intros sb key Hsb. unfold parseImageBucket.
    rewrite Hsb. simpl. rewrite Hd, Hc, Ht. eexists. reflexivity.
  - unfold parseImageHeaders. rewrite Hd. reflexivity.
  - unfold getOutputFormat. rewrite Hd.
    destruct (Js.env_is _ _ && _); [left | right]; reflexivity.
Qed.

(** X5. The resolution of the bucket reads the list of the buckets first
    and the key second, whatever the dialect: without the list it is a bad
    request, and with a key that is not a string it is a TypeError, even
    for a Default request whose bucket is allowed. For a Default request
    with a bucket in its record: a bucket of the list is returned without
    the first entry being compiled as a regular expression; a bucket that
    is not in the list is forbidden when it does not match the first
    entry, and fails with the error of the regular expression when the
    first entry cannot be compiled. *)
Theorem parseImageBucket_errors (event : Event) (requestType : string)
  (image_key : value) :
  (env.(SOURCE_BUCKETS) = None ->
   handler_error (parseImageBucket env event requestType image_key)
     BAD_REQUEST "GetAllowedSourceBuckets::NoSourceBuckets")
  /\ (forall sourceBuckets,
        getAllowedSourceBuckets env = Return sourceBuckets ->
        (forall key, image_key <> VString key) ->
        exists message,
          parseImageBucket env event requestType image_key
          = Throw (TypeError message))
  /\ (forall sourceBuckets key request b,
        getAllowedSourceBuckets env = Return sourceBuckets ->
        image_key = VString key ->
        requestType = RequestTypes.DEFAULT ->
        decodeRequest event = Return request ->
        JsValue.get request "bucket" = Return (VString b) ->
        (In b sourceBuckets ->
         parseImageBucket env event requestType image_key
         = Return (VString b))
        /\ (forall re,
              ~ In b sourceBuckets ->
              RegExp_new ("^" ++ first_entry sourceBuckets ++ "$") ""
              = Return re ->
              RegExp_test re b = false ->
              handler_error
                (parseImageBucket env event requestType image_key)
                FORBIDDEN "ImageBucket::CannotAccessBucket")
        /\ (forall e,
              ~ In b sourceBuckets ->
              RegExp_new ("^" ++ first_entry sourceBuckets ++ "$") ""
              = Throw e ->
              parseImageBucket env event requestType image_key = Throw e)).
Proof.
  split; [|split].
  - intros H. unfold parseImageBucket, getAllowedSourceBuckets.
    rewrite H. eexists. reflexivity.
  - intros sb Hsb Hk. unfold parseImageBucket. rewrite Hsb. simpl.
    destruct image_key; try (eexists; reflexivity).
    now contradiction (Hk s).
  - intros sb key request b Hsb -> -> Hd Hb.
    unfold parseImageBucket. rewrite Hsb. simpl. rewrite Hd. simpl.
    rewrite Hb. simpl.
    split; [|split].
    + intros Hin. apply JsStringFacts.mem_In in Hin. now rewrite Hin.
    + intros re Hn Hre Ht.
      destruct (JsString.mem b sb) eqn:Hm.
      * apply JsStringFacts.mem_In in Hm. contradiction.
      * rewrite Hre. simpl. rewrite Ht. eexists. reflexivity.
    + intros e Hn Hre.
      destruct (JsString.mem b sb) eqn:Hm.
      * apply JsStringFacts.mem_In in Hm. contradiction.
      * rewrite Hre. reflexivity.
Qed.

Lemma includes_empty (s : string) : JsString.includes s "" = true.
Proof. destruct s; reflexivity. Qed.

Lemma find_true_rev {A} (P : A -> bool) (l : list A) (d : A) :
  l <> [] -> (forall x, P x = true) -> find P (rev l) = Some (last l d).
Proof.
  intros Hne Hp. induction l as [|a l IH]; [contradiction|].
  simpl rev. rewrite BucketResolverFacts.find_snoc.
  destruct l as [|b l'].
  - simpl. now rewrite Hp.
  - rewrite IH by discriminate. reflexivity.
Qed.

(** X6. A key that is empty or begins with a slash has the empty alias,
    which every entry of the list contains: for a request resolved from the
    alias, the bucket is then the last entry of the list, and the fallback
    bucket is not used. *)
Theorem parseImageBucket_empty_alias (event : Event)
  (requestType key : string) (sourceBuckets : list string) :
  getAllowedSourceBuckets env = Return sourceBuckets ->
  BucketResolver.by_alias event requestType ->
  key = "" \/ (exists rest, key = "/" ++ rest) ->
  parseImageBucket env event requestType (VString key)
  = Return (VString (last sourceBuckets "")).
Proof.
  intros Hsb Halias Hkey.
  assert (Hseg : BucketResolver.first_segment key = "").
  { destruct Hkey as [-> | [rest ->]]; reflexivity. }
  pose proof (getAllowedSourceBuckets_nonempty Hsb) as Hne.
  unfold parseImageBucket. rewrite Hsb. simpl.
  rewrite BucketResolverFacts.split_hd, Hseg.
  rewrite BucketResolverFacts.checkImageBucket_last.
  unfold BucketResolver.last_containing.
  rewrite (find_true_rev (fun entry => JsString.includes entry "")
             "" Hne includes_empty).
  destruct Halias as [-> | [-> | [-> [request [Hd Hb]]]]].
  - reflexivity.
  - reflexivity.
  - simpl. rewrite Hd. simpl. rewrite Hb. reflexivity.
Qed.

(** X8. The key of a Thumbor or Custom request, when there is one, is a
    string. The key of a Thumbor request does not depend on the
    configuration. The key of a Custom request is the key of the Thumbor
    request at the rewritten path, and when the rewrite fails, with bad
    flags or a bad pattern, the error of the rewrite is thrown. *)
Theorem parseImageKey_dialects (event : Event) :
  (forall requestType v,
     requestType = RequestTypes.THUMBOR
     \/ requestType = RequestTypes.CUSTOM ->
     parseImageKey env event requestType = Return v ->
     exists key, v = VString key)
  /\ (forall env',
        parseImageKey env' event RequestTypes.THUMBOR
        = parseImageKey env event RequestTypes.THUMBOR)
  /\ (forall p,
        apply_rewrite (rewrite_rule env) event.(path) = Return p ->
        parseImageKey env event RequestTypes.CUSTOM
        = parseImageKey env (with_path event p) RequestTypes.THUMBOR)
  /\ (forall e,
        apply_rewrite (rewrite_rule env) event.(path) = Throw e ->
        parseImageKey env event RequestTypes.CUSTOM = Throw e).
Proof.
  split; [|split; [|split]].
  - intros requestType v Hrt. unfold parseImageKey.
    destruct Hrt as [-> | ->]; simpl.
    + destruct (strip_and_decode _) as [k|e]; simpl; [|discriminate].
      intros [= <-]. now exists k.
    + destruct (apply_rewrite _ _) as [p|e]; simpl; [|discriminate].
      destruct (strip_and_decode _) as [k|e]; simpl; [|discriminate].
      intros [= <-]. now exists k.
  - intros env'. reflexivity.
  - intros p Hp. unfold parseImageKey. simpl. rewrite Hp. reflexivity.
  - intros e Hp. unfold parseImageKey. simpl. rewrite Hp. reflexivity.
Qed.

(** X9. The headers that are returned are undefined or a value that is not
    falsy: a record whose headers are null, false, zero or the empty string
    gives none. For a request that is not Default the path is not decoded
    and the headers are undefined. For a Default request the headers can be
    read only when the request decodes to a value other than null. *)
Theorem parseImageHeaders_truthy (event : Event) (requestType : string) :
  (forall h,
     parseImageHeaders event requestType = Return h ->
     h = VUndefined \/ JsValue.truthy h = true)
  /\ (requestType <> RequestTypes.DEFAULT ->
      parseImageHeaders event requestType = Return VUndefined)
  /\ (forall e,
        parseImageHeaders event requestType = Throw e ->
        requestType = RequestTypes.DEFAULT
        /\ (decodeRequest event = Throw e
            \/ decodeRequest event = Return VNull
            \/ decodeRequest event = Return VUndefined)).
Proof.
  unfold parseImageHeaders.
  destruct (String.eqb_spec requestType RequestTypes.DEFAULT) as [->|Hne].
  - split; [|split].
    + destruct (decodeRequest event) as [d|e]; simpl; [|discriminate].
      destruct (JsValue.get d "headers") as [h'|e]; simpl; [|discriminate].
      destruct (JsValue.truthy h') eqn:Ht; intros h [= <-]; tauto.
    + intros H. now contradiction H.
    + intros e. split; [reflexivity|].
      destruct (decodeRequest event) as [d|e']; simpl in H.
      * destruct d; simpl in H; auto; try discriminate H;
          match type of H with
          | (if ?c then _ else _) = Throw _ => destruct c; discriminate H
          end.
      * left. exact H.
  - split; [|split].
    + intros h [= <-]. now left.
    + reflexivity.
    + discriminate.
Qed.

Lemma auto_webp_test (event : Event) :
  Js.env_is env.(AUTO_WEBP) "Yes"
  && match Js.assoc "Accept" event.(headers) with
     | Some Accept =>
         negb (String.eqb Accept "") && JsString.includes Accept "image/webp"
     | None => false
     end = true
  <-> SvgOutput.auto_webp env event.
Proof.
  unfold SvgOutput.auto_webp, Js.env_is.
  destruct env.(AUTO_WEBP) as [v|]; simpl.
  - destruct (String.eqb_spec v "Yes") as [->|Hne]; simpl.
    + destruct (Js.assoc "Accept" event.(headers)) as [a|].
      * destruct (JsString.includes a "image/webp") eqn:Hi.
        -- destruct (String.eqb_spec a "") as [->|Ha]; [discriminate Hi|].
           simpl. split; [|reflexivity].
           intros _. split; [reflexivity|]. now exists a.
        -- rewrite andb_false_r. split; [discriminate|].
           intros [_ [a' [Ha' Hi']]]. injection Ha' as <-. congruence.
      * split; [discriminate|]. intros [_ [a' [Ha' _]]]. discriminate Ha'.
    + split; [discriminate|]. intros [H _]. injection H as ->.
      now contradiction Hne.
  - split; [discriminate|]. intros [H _]. discriminate H.
Qed.

(** X10. The output format is WebP whenever the variable AUTO_WEBP is
    exactly Yes and the Accept header contains image/webp, for every
    request type and whether or not the path can be decoded. Otherwise it
    is null for a request that is not Default, and the output format of the
    decoded record for a Default request. *)
Theorem getOutputFormat_priority (event : Event) (requestType : string) :
  (SvgOutput.auto_webp env event ->
   getOutputFormat env event requestType
   = Return (VString ImageFormatTypes.WEBP))
  /\ (~ SvgOutput.auto_webp env event ->
      requestType <> RequestTypes.DEFAULT ->
      getOutputFormat env event requestType = Return VNull)
  /\ (forall fields,
        ~ SvgOutput.auto_webp env event ->
        requestType = RequestTypes.DEFAULT ->
        decodeRequest event = Return (VObject fields) ->
        getOutputFormat env event requestType
        = Return (JsValue.lookup "outputFormat" fields))
  /\ (forall e,
        ~ SvgOutput.auto_webp env event ->
        requestType = RequestTypes.DEFAULT ->
        decodeRequest event = Throw e ->
        getOutputFormat env event requestType = Throw e).
Proof.
  pose proof (auto_webp_test event) as Hw.
  unfold getOutputFormat.
  destruct (Js.env_is _ _ && _).
  - split; [reflexivity|].
    split; [|split]; intros; exfalso; tauto.
  - assert (Hn : ~ SvgOutput.auto_webp env event)
      by (intros H; apply Hw in H; discriminate H).
    split; [tauto|]. split; [|split].
    + intros _ Hne. apply String.eqb_neq in Hne. now rewrite Hne.
    + intros fields _ -> Hd. simpl. rewrite Hd. reflexivity.
    + intros e _ -> Hd. simpl. rewrite Hd. reflexivity.
Qed.

End Facts.

(** X7. The key of the default image is the directory prefix of the key
    followed by default.jpg: the key up to its last slash is kept, and what
    follows it, which has no slash, is replaced. The rewrite is idempotent:
    the default image of a default image is itself. *)
Theorem default_key_idempotent (key : string) :
  (exists name,
     key = OriginFetcher.directory_prefix key ++ name
     /\ Rewrite.no_slash name
     /\ directory (OriginFetcher.directory_prefix key)
     /\ default_key key
        = OriginFetcher.directory_prefix key ++ "default.jpg")
  /\ default_key (default_key key) = default_key key.
Proof.
  destruct (StringsExtra.directory_prefix_split key)
    as [name [Hk [Hno Hdir]]].
  split.
  - exists name. repeat split; try assumption.
  - unfold default_key at 1.
    change (JsString.substring0 (default_key key)
              (JsString.lastIndexOf_succ "/"
                 (JsString.to_list (default_key key))))
      with (OriginFetcher.directory_prefix (default_key key)).
    change (default_key key)
      with (OriginFetcher.directory_prefix key ++ "default.jpg").
    rewrite (StringsExtra.directory_prefix_of_directory Hdir
               StringsExtra.default_jpg_no_slash).
    reflexivity.
Qed.

End MethodsExtra.

(** ** The asynchronous methods *)

Module AsyncExtra.
Import ImageRequest Extra.

Section Counting.
Context {W : Type}.

Lemma retrievals_app (l1 l2 : list call) :
  retrievals (l1 ++ l2) = (retrievals l1 ++ retrievals l2)%list.
Proof.
  induction l1 as [|[loc|id] r IH]; simpl; [reflexivity|exact IH|].
  now rewrite IH.
Qed.

Lemma retrieves_ret {A} (a : A) : retrieves_at_most (W := W) 0 (ret a).
Proof. intros s. exists []. simpl. now rewrite app_nil_r. Qed.

Lemma retrieves_throw {A} (e : exn) :
  retrieves_at_most (W := W) (A := A) 0 (throw e).
Proof. intros s. exists []. simpl. now rewrite app_nil_r. Qed.

Lemma retrieves_lift {A} (r : result A) :
  retrieves_at_most (W := W) 0 (lift r).
Proof. intros s. exists []. simpl. now rewrite app_nil_r. Qed.

Lemma retrieves_weaken {A} (k k' : nat) (m : M W A) :
  k <= k' -> retrieves_at_most k m -> retrieves_at_most k' m.
Proof.
  intros Hle H s. destruct (H s) as [extra [Ht Hc]].
  exists extra. split; [assumption | lia].
Qed.

Lemma retrieves_bind {A B} (k1 k2 : nat) (m : M W A) (f : A -> M W B) :
  retrieves_at_most k1 m -> (forall a, retrieves_at_most k2 (f a)) ->
  retrieves_at_most (k1 + k2) (bind m f).
Proof.
  intros Hm Hf s. unfold bind.
  destruct (Hm s) as [e1 [Ht1 Hc1]].
  destruct (m s) as [[a|e] s1]; simpl in *.
  - destruct (Hf a s1) as [e2 [Ht2 Hc2]].
    exists (e1 ++ e2)%list. split.
    + now rewrite Ht2, Ht1, app_assoc.
    + rewrite retrievals_app, length_app. lia.
  - exists e1. split; [assumption | lia].
Qed.

Lemma retrieves_try_catch {A} (k1 k2 : nat) (m : M W A) (h : exn -> M W A) :
  retrieves_at_most k1 m -> (forall e, retrieves_at_most k2 (h e)) ->
  retrieves_at_most (k1 + k2) (try_catch m h).
Proof.
  intros Hm Hh s. unfold try_catch.
  destruct (Hm s) as [e1 [Ht1 Hc1]].
  destruct (m s) as [[a|e] s1]; simpl in *.
  - exists e1. split; [assumption | lia].
  - destruct (Hh e s1) as [e2 [Ht2 Hc2]].
    exists (e1 ++ e2)%list. split.
    + now rewrite Ht2, Ht1, app_assoc.
    + rewrite retrievals_app, length_app. lia.
Qed.

Context {collaborators : Collaborators W}.

Lemma retrieves_getObject (location : ImageLocation) :
  retrieves_at_most 0 (getObject location).
Proof.
  intros s. unfold getObject.
  destruct (s3Client_getObject location s.(world)) as [r w]. simpl.
  exists [GetObject location]. split; [reflexivity | simpl; lia].
Qed.

Lemma retrieves_getSecret (id : option string) :
  retrieves_at_most 1 (getSecret id).
Proof.
  intros s. unfold getSecret.
  destruct (secretProvider_getSecret id s.(world)) as [r w]. simpl.
  exists [GetSecret id]. split; [reflexivity | simpl; lia].
Qed.

End Counting.

Section Facts.
Context {rt : Runtime} {mapper : ThumborMapper}.
Variable env : Env.
Context {W : Type} {collaborators : Collaborators W}.


Lemma getOriginalImage_fetched (bucket key : value) (s : State W)
  (object : GetObjectOutput) (w : W) :
  s3Client_getObject {| Bucket := bucket; Key := key |} s.(world)
  = (Return object, w) ->
  fst (getOriginalImage bucket key s)
  = match
      match object.(ContentType) with
      | Some c =>
          if negb (String.eqb c "") then
            if JsString.mem c
                 ["binary/octet-stream"; "application/octet-stream"]
            then inferImageType object.(Body)
            else Return c
          else Return "image"
      | None => Return "image"
      end
    with
    | Return c => Return (described object c)
    | Throw e =>
        Throw
          (ImageHandlerError
             (if OriginFetcher.not_found e then NOT_FOUND
              else INTERNAL_SERVER_ERROR)
             (exn_code e)
             (if OriginFetcher.not_found e then
                "The image " ++ Js.ToString key
                ++ " does not exist or the request may not be base64 encoded properly."
              else exn_message e))
    end.
Proof.
  intros Hf.
  unfold getOriginalImage, try_catch, bind, getObject, lift, ret, throw.
  rewrite Hf. cbv beta iota.
  destruct (match ContentType object with Some _ => _ | None => _ end)
    as [c|e]; reflexivity.
Qed.

Lemma inferImageType_throws (imageBuffer : list Byte.byte) (e : exn) :
  inferImageType imageBuffer = Throw e ->
  exists message,
    e = ImageHandlerError INTERNAL_SERVER_ERROR (Some "RequestTypeError")
          message.
Proof.
  unfold inferImageType.
  repeat match goal with
         | |- context [if ?c then _ else _] => destruct c; try discriminate
         end.
  intros [= <-]. eexists. reflexivity.
Qed.

Lemma mem_generic (c : string) :
  JsString.mem c ["binary/octet-stream"; "application/octet-stream"] = true
  <-> generic c.
Proof.
  rewrite JsStringFacts.mem_In. unfold generic. simpl.
  split; [intros [H | [H | []]] | intros [H | H]]; auto.
Qed.

(** X12. The content type of the original. An object without content type,
    or with an empty one, has the content type image; an object with a
    content type that is not generic keeps it; an object with a generic
    octet-stream content type has the content type that its first bytes
    show, and when they show none getOriginalImage fails with the very
    error of the sniffer. When it succeeds the payload is the body of the
    object, and the cache control is the one of the object, or a year. *)
Theorem getOriginalImage_contentType (bucket key : value) (s : State W)
  (object : GetObjectOutput) (w : W) :
  s3Client_getObject {| Bucket := bucket; Key := key |} s.(world)
  = (Return object, w) ->
  (object.(ContentType) = None \/ object.(ContentType) = Some "" ->
   fst (getOriginalImage bucket key s) = Return (described object "image"))
  /\ (forall c,
        object.(ContentType) = Some c -> c <> "" -> ~ generic c ->
        fst (getOriginalImage bucket key s) = Return (described object c))
  /\ (forall c type,
        object.(ContentType) = Some c -> generic c ->
        inferImageType object.(Body) = Return type ->
        fst (getOriginalImage bucket key s)
        = Return (described object type))
  /\ (forall c e,
        object.(ContentType) = Some c -> generic c ->
        inferImageType object.(Body) = Throw e ->
        fst (getOriginalImage bucket key s) = Throw e).
Proof.
  intros Hf. rewrite (getOriginalImage_fetched _ _ _ Hf).
  split; [|split; [|split]].
  - intros [-> | ->]; reflexivity.
  - intros c -> Hne Hg. apply String.eqb_neq in Hne. rewrite Hne.
    simpl negb. cbv iota.
    destruct (JsString.mem c
                ["binary/octet-stream"; "application/octet-stream"]) eqn:Hm;
      [|reflexivity].
    apply mem_generic in Hm. contradiction.
  - intros c type -> Hg Hi.
    assert (Hne : String.eqb c "" = false)
      by (destruct Hg as [-> | ->]; reflexivity).
    apply mem_generic in Hg. rewrite Hne. simpl negb. cbv iota.
    rewrite Hg, Hi. reflexivity.
  - intros c e -> Hg Hi.
    assert (Hne : String.eqb c "" = false)
      by (destruct Hg as [-> | ->]; reflexivity).
    apply mem_generic in Hg. rewrite Hne. simpl negb. cbv iota.
    rewrite Hg, Hi.
    destruct (inferImageType_throws _ Hi) as [m ->].
    reflexivity.
Qed.

Lemma fetches_unchanged (m : M W unit) (s : State W) :
  OriginFetcher.adds_at_most 0 m ->
  OriginFetcher.fetches (snd (m s)).(trace) = OriginFetcher.fetches s.(trace).
Proof.
  intros H. destruct (H s) as [extra [Ht Hc]].
  rewrite Ht, OriginFetcherFacts.fetches_app.
  destruct (OriginFetcher.fetches extra); [apply app_nil_r|].
  simpl in Hc. lia.
Qed.

(** X13. Nothing is fetched before the signature is validated, the request
    classified, and its key and bucket resolved: the validation itself
    fetches nothing, and when one of these four steps fails setup fails with
    the same error, in the state the validation left. *)
Theorem setup_gated (event : Event) (s s1 : State W) (r : result unit) :
  validateRequestSignature env event s = (r, s1) ->
  OriginFetcher.fetches s1.(trace) = OriginFetcher.fetches s.(trace)
  /\ (forall e, r = Throw e -> setup env event s = (Throw e, s1))
  /\ (forall e,
        r = Return tt ->
        parseRequestType env event = Throw e ->
        setup env event s = (Throw e, s1))
  /\ (forall e requestType,
        r = Return tt ->
        parseRequestType env event = Return requestType ->
        parseImageKey env event requestType = Throw e ->
        setup env event s = (Throw e, s1))
  /\ (forall e requestType key,
        r = Return tt ->
        parseRequestType env event = Return requestType ->
        parseImageKey env event requestType = Return key ->
        parseImageBucket env event requestType key = Throw e ->
        setup env event s = (Throw e, s1)).
Proof.
  intros Hv.
  split.
  - pose proof (fetches_unchanged s
                  (OriginFetcherFacts.adds_validate env event)) as H.
    now rewrite Hv in H.
  - unfold setup. rewrite MonadFacts.try_catch_rethrow.
    split; [|split; [|split]].
    + intros e ->. now rewrite (MonadFacts.bind_Throw _ _ _ Hv).
    + intros e -> Ht. rewrite (MonadFacts.bind_Return _ _ _ Hv).
      unfold bind at 1. unfold lift at 1. now rewrite Ht.
    + intros e requestType -> Ht Hk.
      rewrite (MonadFacts.bind_Return _ _ _ Hv).
      unfold bind at 1. unfold lift at 1. rewrite Ht.
      unfold bind at 1. unfold lift at 1. now rewrite Hk.
    + intros e requestType key -> Ht Hk Hb.
      rewrite (MonadFacts.bind_Return _ _ _ Hv).
      unfold bind at 1. unfold lift at 1. rewrite Ht.
      unfold bind at 1. unfold lift at 1. rewrite Hk.
      unfold bind at 1. unfold lift at 1. now rewrite Hb.
Qed.

Lemma retrieves_validate (event : Event) :
  retrieves_at_most 1 (validateRequestSignature env event).
Proof.
  unfold validateRequestSignature.
  destruct (Js.env_is _ _);
    [|apply (retrieves_weaken (k := 0)); [lia | apply retrieves_ret]].
  destruct (match queryStringParameters event with
            | Some _ => _ | None => _ end) as [signature|];
    [|apply (retrieves_weaken (k := 0)); [lia | apply retrieves_throw]].
  destruct (negb _);
    [|apply (retrieves_weaken (k := 0)); [lia | apply retrieves_throw]].
  apply (retrieves_try_catch (k1 := 1) (k2 := 0)).
  - apply (retrieves_bind (k1 := 1) (k2 := 0)); [apply retrieves_getSecret|].
    intros secretString.
    apply (retrieves_bind (k1 := 0) (k2 := 0)); [apply retrieves_lift|].
    intros secret.
    apply (retrieves_bind (k1 := 0) (k2 := 0)); [apply retrieves_lift|].
    intros key.
    apply (retrieves_bind (k1 := 0) (k2 := 0)); [apply retrieves_lift|].
    intros hash.
    destruct (negb _); [apply retrieves_throw | apply retrieves_ret].
  - intros e. destruct (match exn_code e with Some _ => _ | None => _ end);
      apply retrieves_throw.
Qed.

Lemma retrieves_validate_disabled (event : Event) :
  ~ SignatureValidator.signing_enabled env ->
  retrieves_at_most 0 (validateRequestSignature env event).
Proof.
  intros Hn. unfold validateRequestSignature.
  destruct (Js.env_is _ "Yes") eqn:E; [|apply retrieves_ret].
  apply SignatureValidatorFacts.env_is_Yes in E. contradiction.
Qed.

Lemma retrieves_setup (event : Event) (k : nat) :
  retrieves_at_most k (validateRequestSignature env event) ->
  retrieves_at_most k (setup env event).
Proof.
  intros Hv. unfold setup.
  replace k with (k + 0 + 0) by lia.
  apply retrieves_try_catch; [|intros e; apply retrieves_throw].
  apply retrieves_bind; [exact Hv|].
  intros _.
  apply (retrieves_bind (k1 := 0) (k2 := 0)); [apply retrieves_lift|].
  intros requestType.
  apply (retrieves_bind (k1 := 0) (k2 := 0)); [apply retrieves_lift|].
  intros key.
  apply (retrieves_bind (k1 := 0) (k2 := 0)); [apply retrieves_lift|].
  intros bucket.
  apply (retrieves_bind (k1 := 0) (k2 := 0)).
  { unfold setup_probe.
    apply (retrieves_try_catch (k1 := 0) (k2 := 0)).
    - apply (retrieves_bind (k1 := 0) (k2 := 0));
        [apply retrieves_getObject|].
      intros _. apply retrieves_ret.
    - intros _. destruct key; try apply retrieves_throw.
      apply retrieves_ret. }
  intros key'.
  apply (retrieves_bind (k1 := 0) (k2 := 0)); [apply retrieves_lift|].
  intros edits.
  apply (retrieves_bind (k1 := 0) (k2 := 0)).
  { unfold getOriginalImage.
    apply (retrieves_try_catch (k1 := 0) (k2 := 0)).
    - apply (retrieves_bind (k1 := 0) (k2 := 0));
        [apply retrieves_getObject|].
      intros o.
      apply (retrieves_bind (k1 := 0) (k2 := 0)); [apply retrieves_lift|].
      intros c. apply retrieves_ret.
    - intros e. apply retrieves_throw. }
  intros original.
  apply (retrieves_bind (k1 := 0) (k2 := 0)); [apply retrieves_lift|].
  intros h.
  apply (retrieves_bind (k1 := 0) (k2 := 0)); [apply retrieves_lift|].
  intros i1.
  apply (retrieves_bind (k1 := 0) (k2 := 0)); [apply retrieves_lift|].
  intros i2.
  apply (retrieves_bind (k1 := 0) (k2 := 0)); [apply retrieves_lift|].
  intros i3. apply retrieves_ret.
Qed.

(** X14. A run of setup asks the secret provider for a secret at most once,
    and never when the signing is not enabled. *)
Theorem setup_retrievals (event : Event) :
  retrieves_at_most 1 (setup env event)
  /\ (~ SignatureValidator.signing_enabled env ->
      retrieves_at_most 0 (setup env event)).
Proof.
  split.
  - apply retrieves_setup, retrieves_validate.
  - intros Hn. now apply retrieves_setup, retrieves_validate_disabled.
Qed.

End Facts.
End AsyncExtra.

(** ** The request information that setup returns *)

Module SetupExtra.
Import ImageRequest Extra.

Lemma same_origin_refl (i : Info.t) : same_origin i i.
Proof. unfold same_origin. tauto. Qed.

Lemma same_origin_trans (i j k : Info.t) :
  same_origin i j -> same_origin j k -> same_origin i k.
Proof. unfold same_origin. intuition congruence. Qed.

Section Facts.
Context {rt : Runtime} {mapper : ThumborMapper}.
Variable env : Env.

Lemma parseRequestType_dialect (event : Event) (requestType : string) :
  parseRequestType env event = Return requestType -> dialect requestType.
Proof.
  unfold parseRequestType, dialect.
  destruct (RegExp_test _ _ && _); [intros [= <-]; tauto|].
  destruct (negb _ && _ && _ && _); [intros [= <-]; tauto|].
  destruct (RegExp_test _ _); [intros [= <-]; tauto | discriminate].
Qed.

Lemma parseImageBucket_key_string (event : Event) (requestType : string)
  (key bucket : value) :
  parseImageBucket env event requestType key = Return bucket ->
  exists k, key = VString k.
Proof.
  unfold parseImageBucket.
  destruct (getAllowedSourceBuckets env); simpl; [|discriminate].
  destruct key; simpl; try discriminate. intros _. now eexists.
Qed.

Lemma setup_svg_origin info info' :
  setup_svg info = Return info' ->
  same_origin info info'
  /\ info'.(Info.contentType) = info.(Info.contentType)
  /\ info'.(Info.edits) = info.(Info.edits).
Proof.
  unfold setup_svg.
  destruct (String.eqb _ _ && _);
    [|intros [= <-]; split; [apply same_origin_refl | tauto]].
  destruct (Js.Object_keys _) as [keys|e]; simpl; [|discriminate].
  destruct (0 <? List.length keys)%nat;
    [|intros [= <-]; split; [apply same_origin_refl | tauto]].
  destruct (JsValue.get _ _) as [t|e]; simpl; [|discriminate].
  destruct (negb _); intros [= <-];
    (split; [unfold same_origin; simpl; tauto | simpl; tauto]).
Qed.

Lemma setup_reductionEffort_origin event outputFormat info info' :
  setup_reductionEffort event outputFormat info = Return info' ->
  same_origin info info'
  /\ info'.(Info.contentType) = info.(Info.contentType)
  /\ info'.(Info.edits) = info.(Info.edits)
  /\ info'.(Info.outputFormat) = info.(Info.outputFormat).
Proof.
  unfold setup_reductionEffort.
  destruct (JsValue.strict_eq_string _ _ && _);
    [|intros [= <-]; split; [apply same_origin_refl | tauto]].
  destruct (decodeRequest event) as [decoded|e]; simpl; [|discriminate].
  destruct (JsValue.get decoded _) as [v|e]; simpl; [|discriminate].
  destruct (JsValue.defined v); intros [= <-];
    (split; [unfold same_origin; simpl; tauto | simpl; tauto]).
Qed.

Lemma setup_outputFormat_origin event info info' :
  setup_outputFormat env event info = Return info' ->
  same_origin info info'
  /\ info'.(Info.contentType) = info.(Info.contentType)
  /\ info'.(Info.edits) = info.(Info.edits).
Proof.
  unfold setup_outputFormat.
  destruct (if negb _ then _ else _) as [[|]|e]; simpl;
    try discriminate;
    [|intros [= <-]; split; [apply same_origin_refl | tauto]].
  destruct (getOutputFormat env event _) as [outputFormat|e]; simpl;
    [|discriminate].
  destruct (setup_reductionEffort event outputFormat info) as [info1|e]
    eqn:H1; simpl; [|discriminate].
  apply setup_reductionEffort_origin in H1.
  destruct H1 as [Ho [Hc [He _]]].
  destruct (if JsValue.truthy _ then _ else _) as [t|e]; simpl;
    [|discriminate].
  destruct (JsValue.truthy t);
    [intros [= <-]; split;
     [unfold same_origin in *; simpl; tauto | simpl; tauto]|].
  destruct (JsValue.truthy outputFormat); intros [= <-];
    (split; [unfold same_origin in *; simpl; tauto | simpl; tauto]).
Qed.

Lemma setup_quality_origin info info' :
  setup_quality info = Return info' ->
  same_origin info info'
  /\ info'.(Info.outputFormat) = info.(Info.outputFormat)
  /\ (JsValue.truthy info.(Info.outputFormat) = true ->
      info'.(Info.contentType)
      = "image/" ++ Js.ToString info.(Info.outputFormat))
  /\ (JsValue.truthy info.(Info.outputFormat) = false -> info' = info).
Proof.
  unfold setup_quality.
  destruct (JsValue.truthy _) eqn:Ht.
  2:{ intros [= <-]. split; [apply same_origin_refl|].
      repeat split; try discriminate; reflexivity. }
  assert (Hfin : forall i : Info.t,
            same_origin info i ->
            i.(Info.outputFormat) = info.(Info.outputFormat) ->
            i.(Info.contentType)
            = "image/" ++ Js.ToString info.(Info.outputFormat) ->
            same_origin info i
            /\ i.(Info.outputFormat) = info.(Info.outputFormat)
            /\ (true = true ->
                i.(Info.contentType)
                = "image/" ++ Js.ToString info.(Info.outputFormat))
            /\ (true = false -> i = info)).
  { intros i H1 H2 H3. split; [exact H1|]. split; [exact H2|].
    split; [intros _; exact H3 | discriminate]. }
  destruct (JsString.mem _ _ && _);
    [|intros [= <-]; apply Hfin;
      [unfold same_origin; simpl; tauto | reflexivity | reflexivity]].
  destruct (Js.Object_keys _) as [keys|e]; simpl; [|discriminate].
  destruct (filter _ keys) as [|q rest];
    [intros [= <-]; apply Hfin;
     [unfold same_origin; simpl; tauto | reflexivity | reflexivity]|].
  destruct (negb _ && _); intros [= <-]; apply Hfin;
    try (unfold same_origin; simpl; tauto); reflexivity.
Qed.

Section Run.
Context {W : Type} {collaborators : Collaborators W}.

Lemma getOriginalImage_returns (bucket key : value) (s s' : State W)
  (original : OriginalImage.t) :
  getOriginalImage bucket key s = (Return original, s') ->
  exists object,
    s3Client_getObject {| Bucket := bucket; Key := key |} s.(world)
    = (Return object, s'.(world))
    /\ original.(OriginalImage.originalImage) = object.(Body)
    /\ s'.(trace)
       = (s.(trace) ++ [GetObject {| Bucket := bucket; Key := key |}])%list.
Proof.
  unfold getOriginalImage, try_catch, bind, getObject, lift, ret, throw.
  destruct (s3Client_getObject _ _) as [[object|e] w]; [|discriminate].
  destruct (match ContentType object with Some _ => _ | None => _ end)
    as [c|e]; [|discriminate].
  intros [= <- <-]. exists object. repeat split.
Qed.

Lemma setup_probe_string (bucket key key' : value) (s s' : State W) :
  setup_probe bucket key s = (Return key', s') ->
  (exists k, key = VString k) -> exists k', key' = VString k'.
Proof.
  intros H [k ->]. rewrite OriginFetcherFacts.setup_probe_run in H.
  injection H as <- _. now eexists.
Qed.

(** What a run of setup that returns went through. *)
Lemma setup_returns (event : Event) (s s' : State W) (info : Info.t) :
  setup env event s = (Return info, s') ->
  exists requestType key bucket original s2 info0,
    parseRequestType env event = Return requestType
    /\ (exists k, key = VString k)
    /\ getOriginalImage bucket key s2 = (Return original, s')
    /\ info0.(Info.requestType) = requestType
    /\ info0.(Info.key) = key
    /\ info0.(Info.bucket) = bucket
    /\ info0.(Info.originalImage) = original.(OriginalImage.originalImage)
    /\ same_origin info0 info
    /\ (JsValue.truthy info.(Info.outputFormat) = true ->
        info.(Info.contentType)
        = "image/" ++ Js.ToString info.(Info.outputFormat)).
Proof.
  intros Hrun. unfold setup in Hrun.
  rewrite MonadFacts.try_catch_rethrow in Hrun.
  do 11 (ReductionEffortFacts.bind_returns Hrun).
  unfold ret in Hrun. injection Hrun as <- <-.
  unfold lift in *.
  repeat match goal with
         | H : (_, _) = (Return _, _) |- _ => injection H as H ?; subst
         end.
  match goal with H : setup_quality _ = _ |- _ =>
    apply setup_quality_origin in H; destruct H as [Hq1 [Hq2 [Hq3 _]]] end.
  match goal with H : setup_outputFormat _ _ _ = _ |- _ =>
    apply setup_outputFormat_origin in H; destruct H as [Ho1 _] end.
  match goal with H : setup_svg _ = _ |- _ =>
    apply setup_svg_origin in H; destruct H as [Hs1 _] end.
  match goal with H : parseImageBucket _ _ _ _ = _ |- _ =>
    apply parseImageBucket_key_string in H; rename H into Hkey end.
  match goal with H : setup_probe _ _ _ = _ |- _ =>
    pose proof (@setup_probe_string _ _ _ _ _ H Hkey) as Hkey' end.
  match goal with
  | Hg : getOriginalImage ?b ?k ?s2 = (Return ?o, _),
    Ht : parseRequestType _ _ = Return ?t |- _ =>
      match type of Hs1 with
      | same_origin ?i0 _ =>
          exists t, k, b, o, s2, i0;
          split; [exact Ht|]; split; [exact Hkey'|]; split; [exact Hg|]
      end
  end.
  split; [reflexivity|]. split; [reflexivity|]. split; [reflexivity|].
  split; [reflexivity|].
  split.
  - eapply same_origin_trans; [exact Hs1|].
    eapply same_origin_trans; [exact Ho1 | exact Hq1].
  - intros Ht. rewrite Hq2 in Ht. rewrite (Hq3 Ht), Hq2. reflexivity.
Qed.

(** X15. The request information that setup returns has one of the three
    dialects as its request type and a string as its key, and, when it has
    an output format, the content type image/ followed by that format. *)
Theorem setup_invariants (event : Event) (s s' : State W) (info : Info.t) :
  setup env event s = (Return info, s') ->
  dialect info.(Info.requestType)
  /\ (exists key, info.(Info.key) = VString key)
  /\ (JsValue.truthy info.(Info.outputFormat) = true ->
      info.(Info.contentType)
      = "image/" ++ Js.ToString info.(Info.outputFormat)).
Proof.
  intros Hrun.
  destruct (setup_returns _ _ Hrun)
    as [requestType [key [bucket [original [s2 [info0
         [Ht [Hk [_ [H1 [H2 [_ [_ [Hso Hct]]]]]]]]]]]]]].
  destruct Hso as [Hr [Hkey _]].
  split; [|split].
  - rewrite Hr, H1. eapply parseRequestType_dialect. exact Ht.
  - rewrite Hkey, H2. exact Hk.
  - exact Hct.
Qed.

(** X16. The payload of the request information that setup returns is the
    body of the object that the last call fetched from the store, at the
    bucket and the key of the request information. *)
Theorem setup_payload (event : Event) (s s' : State W) (info : Info.t) :
  setup env event s = (Return info, s') ->
  let location :=
    {| Bucket := info.(Info.bucket); Key := info.(Info.key) |} in
  exists s2 object,
    s3Client_getObject location s2.(world) = (Return object, s'.(world))
    /\ info.(Info.originalImage) = object.(Body)
    /\ s'.(trace) = (s2.(trace) ++ [GetObject location])%list.
Proof.
  intros Hrun location.
  destruct (setup_returns _ _ Hrun)
    as [requestType [key [bucket [original [s2 [info0
         [_ [_ [Hg [_ [H2 [H3 [H4 [Hso _]]]]]]]]]]]]]].
  destruct (getOriginalImage_returns _ _ _ Hg) as [object [Hf [Hb Htr]]].
  destruct Hso as [_ [Hkey [Hbucket [_ [Horig _]]]]].
  exists s2, object. subst location.
  rewrite Hkey, Hbucket, H2, H3, Horig, H4.
  repeat split; assumption.
Qed.

End Run.
End Facts.
End SetupExtra.

(** ** The decision on the output format *)

Module FormatExtra.
Import ImageRequest Extra.

Lemma quot_window (a : Z) (b : positive) :
  (0 <= Z.quot a (Z.pos b) <= 6)%Z <-> (- Z.pos b < a < 7 * Z.pos b)%Z.
Proof.
  pose proof (Z.quot_rem' a (Z.pos b)) as Hqr.
  destruct (Z.le_gt_cases 0 a) as [Hpos|Hneg].
  - pose proof (Z.rem_bound_pos a (Z.pos b) Hpos ltac:(lia)) as Hr.
    nia.
  - pose proof (Z.rem_bound_pos_neg a (Z.pos b) ltac:(lia) ltac:(lia)) as Hr.
    nia.
Qed.

Section Facts.
Context {rt : Runtime} {mapper : ThumborMapper}.
Variable env : Env.

Lemma getOutputFormat_returns (event : Event) (requestType : string) :
  SvgOutput.decodable event requestType ->
  exists v, getOutputFormat env event requestType = Return v.
Proof.
  intros Hd. unfold getOutputFormat.
  destruct (Js.env_is _ _ && _); [eexists; reflexivity|].
  destruct (String.eqb_spec requestType RequestTypes.DEFAULT) as [E|E];
    [|eexists; reflexivity].
  destruct (Hd E) as [decoded [-> Hget]]. simpl.
  destruct (Hget "outputFormat") as [v ->]. now exists v.
Qed.

Lemma setup_quality_default (info : Info.t) :
  info.(Info.requestType) = RequestTypes.DEFAULT ->
  exists info',
    setup_quality info = Return info'
    /\ info'.(Info.edits) = info.(Info.edits).
Proof.
  intros Hrt. unfold setup_quality.
  destruct (JsValue.truthy _); [|eexists; split; reflexivity].
  cbn [Info.set_contentType Info.requestType]. rewrite Hrt. simpl.
  eexists. split; reflexivity.
Qed.


(** X18. The reduction effort of a decoded number, for a WebP output of a
    Default request. A finite number above -1 and below 7 is accepted and
    stored truncated towards zero, so 6.9 is stored as 6 and -0.5 is
    accepted; every other number, not-a-number and the infinities among
    them, gives the default 4. *)
Theorem reductionEffort_window (event : Event) (decoded : value)
  (n : number) (info : Info.t) :
  info.(Info.requestType) = RequestTypes.DEFAULT ->
  decodeRequest event = Return decoded ->
  JsValue.get decoded "reductionEffort" = Return (VNumber n) ->
  exists stored,
    setup_reductionEffort event (VString ImageFormatTypes.WEBP) info
    = Return (Info.set_reductionEffort (Some stored) info)
    /\ (forall q,
          n = Finite q -> truncates_into_range q ->
          stored = Js.Math_trunc (VNumber n)
          /\ ReductionEffort.in_range stored)
    /\ (forall q,
          n = Finite q -> ~ truncates_into_range q ->
          stored = DEFAULT_REDUCTION_EFFORT)
    /\ (n = NaN \/ (exists negative, n = Infinity negative) ->
        stored = DEFAULT_REDUCTION_EFFORT).
Proof.
  intros Hrt Hd Hv.
  exists (ReductionEffort.stored_effort (VNumber n)).
  unfold setup_reductionEffort. rewrite Hrt, Hd. simpl. rewrite Hv. simpl.
  split; [reflexivity|].
  assert (Hw : forall q, n = Finite q ->
            (ReductionEffort.in_range (Js.Math_trunc (VNumber n))
             <-> truncates_into_range q)).
  { intros q ->. destruct q as [a b].
    change (Js.Math_trunc (VNumber (Finite (a # b))))
      with (Finite (Z.quot a (Z.pos b) # 1)).
    unfold ReductionEffort.in_range, truncates_into_range, Qlt.
    cbn [Qnum Qden].
    pose proof (quot_window a b) as Hq.
    split.
    - intros [z [Hz Hr]]. injection Hz as <-. lia.
    - intros Hr. eexists. split; [reflexivity|]. lia. }
  unfold ReductionEffort.stored_effort.
  split; [|split].
  - intros q Hn Hr. apply (Hw q Hn) in Hr.
    pose proof Hr as Hr'.
    apply ReductionEffortFacts.isValid_in_range in Hr. rewrite Hr.
    split; [reflexivity | exact Hr'].
  - intros q Hn Hr.
    destruct (negb _ && _ && _) eqn:E; [|reflexivity].
    apply ReductionEffortFacts.isValid_in_range in E.
    apply (Hw q Hn) in E. contradiction.
  - intros [-> | [negative ->]]; [reflexivity|].
    destruct negative; reflexivity.
Qed.

Section Run.
Context {W : Type} {collaborators : Collaborators W}.

(** A run of setup whose steps return, up to the three blocks on the
    request information. *)
Lemma setup_blocks (event : Event) (s s1 s2 s3 : State W)
  (requestType : string) (key key' bucket edits headers : value)
  (original : OriginalImage.t) :
  validateRequestSignature env event s = (Return tt, s1) ->
  parseRequestType env event = Return requestType ->
  parseImageKey env event requestType = Return key ->
  parseImageBucket env event requestType key = Return bucket ->
  setup_probe bucket key s1 = (Return key', s2) ->
  parseImageEdits event requestType = Return edits ->
  getOriginalImage bucket key' s2 = (Return original, s3) ->
  parseImageHeaders event requestType = Return headers ->
  setup env event s
  = (let* i :=
       setup_svg (gathered requestType key' bucket edits headers original) in
     let* i := setup_outputFormat env event i in
     setup_quality i, s3).
Proof.
  intros Hv Hrt Hk Hb Hp He Ho Hh.
  unfold setup. rewrite MonadFacts.try_catch_rethrow.
  rewrite (MonadFacts.bind_Return _ _ _ Hv).
  unfold bind at 1. unfold lift at 1. rewrite Hrt.
  unfold bind at 1. unfold lift at 1. rewrite Hk.
  unfold bind at 1. unfold lift at 1. rewrite Hb.
  rewrite (MonadFacts.bind_Return _ _ _ Hp).
  unfold bind at 1. unfold lift at 1. rewrite He.
  rewrite (MonadFacts.bind_Return _ _ _ Ho).
  unfold bind at 1. unfold lift at 1. rewrite Hh.
  fold (gathered requestType key' bucket edits headers original).
  unfold bind, lift, ret.
  destruct (setup_svg _) as [i1|e1]; simpl; [|reflexivity].
  destruct (setup_outputFormat env event i1) as [i2|e2]; simpl;
    [|reflexivity].
  destruct (setup_quality i2) as [i3|e3]; reflexivity.
Qed.

(** X19. An SVG original whose edits are the empty mapping is passed
    through: setup returns the request information as it was gathered,
    with the content type image/svg+xml and no output format, also when
    the automatic WebP output is enabled and the client accepts it. *)
Theorem setup_svg_unedited (event : Event) (s s1 s2 s3 : State W)
  (requestType : string) (key key' bucket : value)
  (original : OriginalImage.t) :
  validateRequestSignature env event s = (Return tt, s1) ->
  parseRequestType env event = Return requestType ->
  parseImageKey env event requestType = Return key ->
  parseImageBucket env event requestType key = Return bucket ->
  setup_probe bucket key s1 = (Return key', s2) ->
  parseImageEdits event requestType = Return (VObject []) ->
  getOriginalImage bucket key' s2 = (Return original, s3) ->
  original.(OriginalImage.contentType) = "image/svg+xml" ->
  exists headers,
    parseImageHeaders event requestType = Return headers
    /\ setup env event s
       = (Return
            (gathered requestType key' bucket (VObject []) headers original),
          s3).
Proof.
  intros Hv Hrt Hk Hb Hp He Ho Hct.
  pose proof (@SvgOutputFacts.parseImageKey_decodable rt env event
                requestType key Hk) as Hdec.
  destruct (@SvgOutputFacts.parseImageHeaders_returns rt event requestType
              Hdec) as [h Hh].
  exists h. split; [exact Hh|].
  rewrite (@setup_blocks event s s1 s2 s3 requestType key key' bucket _ h
             original Hv Hrt Hk Hb Hp He Ho Hh).
  unfold setup_svg, setup_outputFormat, setup_quality, gathered.
  cbn [Info.contentType Info.edits Info.outputFormat].
  rewrite Hct. reflexivity.
Qed.


End Run.
End Facts.
End FormatExtra.

(** * Examples *)

(** ** The runtime of the examples *)

Module MiniRuntimeExamples.
Import Inputs MiniRuntime.

(** The two literals of the classifier and the literal of the key are in
    the syntax of the matcher. *)
Example literals_compile :
  MiniRegExp.compile ImageRequest.matchDefault_source "" <> None
  /\ MiniRegExp.compile ImageRequest.matchThumbor_source "i" <> None
  /\ MiniRegExp.compile ImageRequest.thumborTokens_source "g" <> None
  /\ MiniRegExp.compile ImageRequest.leadingSlashes_source "" <> None
  /\ MiniRegExp.compile ImageRequest.whitespace_source "g" <> None.
Proof. vm_compute. repeat split; discriminate. Qed.

Example sha256_abc :
  MiniHmac.hex (MiniHmac.sha256 (MiniHmac.utf8 "abc"))
  = "ba7816bf8f01cfea414140de5dae2223b00361a396177a9cb410ff61f20015ad".
Proof. vm_compute. reflexivity. Qed.

Example hmac_sha256_fox :
  MiniHmac.createHmac_sha256_hex (VString "key")
    "The quick brown fox jumps over the lazy dog"
  = Return "f7bc83f430538424b13298e6aa6fb143ef4d59a14946175997479dbc2d1a3cd8".
Proof. vm_compute. reflexivity. Qed.

Example epoch : MiniMisc.Date_toUTCString 0 = "Thu, 01 Jan 1970 00:00:00 GMT".
Proof. vm_compute. reflexivity. Qed.

(** The scenario of the specification: a Thumbor path, its dialect and its
    key. *)
Example thumbor_scenario :
  let event := request_of "/100x100/filters:quality(80)/myimages/cat.jpg" in
  let env := env_of "myimages-bucket" in
  ImageRequest.parseRequestType (rt := mini) env event
  = Return RequestTypes.THUMBOR
  /\ ImageRequest.parseImageKey (rt := mini) env event RequestTypes.THUMBOR
     = Return (VString "myimages/cat.jpg")
  /\ ImageRequest.parseImageBucket (rt := mini) env event RequestTypes.THUMBOR
       (VString "myimages/cat.jpg")
     = Return (VString "myimages-bucket").
Proof. vm_compute. repeat split; reflexivity. Qed.

(** The scenario of the specification: a Default request with a bucket of
    the allowed list. The path is the base64 text of the record with the
    bucket allowed-bucket, the key a/b.png and no edits. *)
Example default_scenario :
  let event :=
    request_of "eyJidWNrZXQiOiJhbGxvd2VkLWJ1Y2tldCIsImtleSI6ImEvYi5wbmciLCJlZGl0cyI6e319" in
  let env := env_of "allowed-bucket" in
  ImageRequest.parseRequestType (rt := mini) env event
  = Return RequestTypes.DEFAULT
  /\ ImageRequest.parseImageKey (rt := mini) env event RequestTypes.DEFAULT
     = Return (VString "a/b.png")
  /\ ImageRequest.parseImageBucket (rt := mini) env event RequestTypes.DEFAULT
       (VString "a/b.png")
     = Return (VString "allowed-bucket").
Proof. vm_compute. repeat split; reflexivity. Qed.

End MiniRuntimeExamples.

(** ** The request classifier *)

Module ClassifierExamples.
Import Inputs MiniRuntime ImageRequest Classifier.

(** A request that decodes to JSON is Default even when the rewrite is
    configured; a Thumbor path is then Custom, and Thumbor without the
    rewrite; a path of no dialect is refused. *)
Lemma parseRequestType_priority_witness :
  parseRequestType (rt := mini) rewriting encoded
  = Return RequestTypes.DEFAULT
  /\ parseRequestType (rt := mini) rewriting (request_of "/thumb/cat.jpg")
     = Return RequestTypes.CUSTOM
  /\ parseRequestType (rt := mini) (env_of "allowed-bucket")
       (request_of "/thumb/cat.jpg")
     = Return RequestTypes.THUMBOR
  /\ bad_request
       (parseRequestType (rt := mini) (env_of "allowed-bucket")
          (request_of "/notes/cat.txt")).
Proof.
  split; [|split; [|split]].
  - apply (proj1 (ClassifierFacts.parseRequestType_priority
                    (rt := mini) rewriting encoded)).
    split; [vm_compute; reflexivity|].
    split; [discriminate|]. eexists. vm_compute. reflexivity.
  - apply (proj1 (proj2 (ClassifierFacts.parseRequestType_priority
                           (rt := mini) rewriting (request_of "/thumb/cat.jpg")))).
    + intros [H _]. vm_compute in H. discriminate H.
    + exists "/thumb/g", "image". repeat split; discriminate.
  - apply (proj1 (proj2 (proj2 (ClassifierFacts.parseRequestType_priority
                                  (rt := mini) (env_of "allowed-bucket")
                                  (request_of "/thumb/cat.jpg"))))).
    + intros [H _]. vm_compute in H. discriminate H.
    + intros [p [s [H _]]]. discriminate H.
    + vm_compute. reflexivity.
  - apply (proj2 (proj2 (proj2 (ClassifierFacts.parseRequestType_priority
                                  (rt := mini) (env_of "allowed-bucket")
                                  (request_of "/notes/cat.txt"))))).
    + intros [H _]. vm_compute in H. discriminate H.
    + intros [p [s [H _]]]. discriminate H.
    + intros H. vm_compute in H. discriminate H.
Defined.

End ClassifierExamples.

(** ** The bucket resolver *)

Module BucketResolverExamples.
Import Inputs MiniRuntime ImageRequest BucketResolver.

(** A bucket that is not in the allowed list and is not the fallback is
    resolved when it matches the first entry as a regular expression. *)
Lemma unlisted_bucket_resolved :
  ~ always_listed_or_fallback (rt := mini) (env_of "bucket-.*, photos")
      unlisted RequestTypes.DEFAULT (VString "a/b.png").
Proof.
  intros H.
  assert (H1 : getAllowedSourceBuckets (rt := mini)
                 (env_of "bucket-.*, photos")
               = Return ["bucket-.*"; "photos"])
    by (vm_compute; reflexivity).
  assert (H2 : parseImageBucket (rt := mini) (env_of "bucket-.*, photos")
                 unlisted RequestTypes.DEFAULT (VString "a/b.png")
               = Return (VString "bucket-evil"))
    by (vm_compute; reflexivity).
  destruct (H _ _ H1 H2) as [[b [Hb Hin]] | Hf].
  - injection Hb as <-. simpl in Hin.
    destruct Hin as [Hin | [Hin | []]]; discriminate Hin.
  - discriminate Hf.
Qed.

Lemma parseImageBucket_allowed_witness :
  exists sourceBuckets,
    getAllowedSourceBuckets (rt := mini) (env_of "bucket-.*, photos")
    = Return sourceBuckets
    /\ (listed sourceBuckets (VString "bucket-evil")
        \/ is_fallback (env_of "bucket-.*, photos") (VString "bucket-evil")
        \/ by_pattern (rt := mini) unlisted RequestTypes.DEFAULT
             sourceBuckets (VString "bucket-evil"))
    /\ (by_alias (rt := mini) unlisted RequestTypes.DEFAULT ->
        listed sourceBuckets (VString "bucket-evil")
        \/ is_fallback (env_of "bucket-.*, photos") (VString "bucket-evil")).
Proof.
  apply (@BucketResolverFacts.parseImageBucket_allowed
           mini (env_of "bucket-.*, photos") unlisted
           RequestTypes.DEFAULT (VString "a/b.png") (VString "bucket-evil")).
  vm_compute. reflexivity.
Defined.

(** Two entries of the allowed list contain the alias: the last one is
    returned, not the first. *)
Lemma last_entry_returned :
  ~ returns_first_containing (rt := mini) (env_of "a-one, a-two")
      (request_of "/a/cat.jpg") RequestTypes.THUMBOR "a/cat.jpg".
Proof.
  intros H.
  assert (H1 : getAllowedSourceBuckets (rt := mini) (env_of "a-one, a-two")
               = Return ["a-one"; "a-two"])
    by (vm_compute; reflexivity).
  specialize (H _ H1 (or_introl eq_refl)).
  vm_compute in H. discriminate H.
Qed.

Lemma parseImageBucket_by_alias_witness :
  parseImageBucket (rt := mini) (env_of "a-one, a-two") (request_of "/a/cat.jpg")
    RequestTypes.THUMBOR (VString "a/cat.jpg")
  = Return (VString "a-two").
Proof.
  apply (@BucketResolverFacts.parseImageBucket_by_alias
           mini (env_of "a-one, a-two") (request_of "/a/cat.jpg")
           RequestTypes.THUMBOR "a/cat.jpg" ["a-one"; "a-two"]).
  - vm_compute. reflexivity.
  - left. reflexivity.
Defined.

End BucketResolverExamples.

(** ** The origin fetcher *)

Module OriginFetcherExamples.
Import Inputs MiniRuntime ImageRequest OriginFetcher.

(** The first fetch fails with AccessDenied, which is not a not-found, and
    the key is rewritten all the same. *)
Lemma rewritten_on_access_denied :
  ~ rewritten_iff_not_found (rt := mini) (mapper := no_edits)
      (env_of "allowed-bucket") (collaborators := store_collaborators)
      photo (start denied).
Proof.
  intros H.
  specialize (H (start denied) RequestTypes.DEFAULT "images/photo.jpg"
                (VString "allowed-bucket")
                (VObject [("grayscale", VBool true)])).
  assert (H' := H ltac:(vm_compute; reflexivity) ltac:(vm_compute; reflexivity)
                  ltac:(vm_compute; reflexivity)
                  ltac:(vm_compute; reflexivity)
                  ltac:(vm_compute; reflexivity)).
  vm_compute in H'. discriminate H'.
Qed.

(** The run on the store that denies the access: two fetches, the second
    one at the default image. *)
Example fetches_on_access_denied :
  fetches
    (snd (setup (rt := mini) (mapper := no_edits) (env_of "allowed-bucket")
            (collaborators := store_collaborators) photo (start denied)))
      .(trace)
  = [ {| Bucket := VString "allowed-bucket";
         Key := VString "images/photo.jpg" |};
      {| Bucket := VString "allowed-bucket";
         Key := VString "images/default.jpg" |} ].
Proof. vm_compute. reflexivity. Qed.

(** On the store without objects the photo is not found, the default image
    is fetched and is not found either: setup throws an error of status
    not found, after two fetches. *)
Lemma setup_fetches_witness :
  let first :=
    {| Bucket := VString "allowed-bucket";
       Key := VString "images/photo.jpg" |} in
  let second :=
    {| Bucket := VString "allowed-bucket";
       Key := VString "images/default.jpg" |} in
  snd (setup (rt := mini) (mapper := no_edits) (env_of "allowed-bucket")
         (collaborators := store_collaborators) photo (start empty))
  = {| world := empty; trace := [GetObject first; GetObject second] |}
  /\ fst (setup (rt := mini) (mapper := no_edits) (env_of "allowed-bucket")
            (collaborators := store_collaborators) photo (start empty))
     = Throw
         (ImageHandlerError NOT_FOUND (Some "NoSuchKey")
            "The image images/default.jpg does not exist or the request may not be base64 encoded properly.").
Proof.
  intros first second.
  destruct (@OriginFetcherFacts.setup_fetches mini no_edits
              (env_of "allowed-bucket") Store store_collaborators photo
              (start empty) (start empty) RequestTypes.DEFAULT
              "images/photo.jpg" (VString "allowed-bucket")
              ltac:(vm_compute; reflexivity) ltac:(vm_compute; reflexivity)
              ltac:(vm_compute; reflexivity) ltac:(vm_compute; reflexivity))
    as [_ [H _]].
  destruct (H (VObject [("grayscale", VBool true)])
              ltac:(vm_compute; reflexivity)) as [Hstate Herror].
  split.
  - rewrite Hstate. vm_compute. reflexivity.
  - rewrite (Herror NoSuchKey ltac:(vm_compute; reflexivity)).
    vm_compute. reflexivity.
Defined.

End OriginFetcherExamples.

(** ** The signature validator *)

Module SignatureValidatorExamples.
Import Inputs MiniRuntime ImageRequest SignatureValidator.


End SignatureValidatorExamples.

(** ** The rewrite of the Custom dialect *)

Module RewriteExamples.
Import Inputs MiniRuntime ImageRequest Rewrite.

(** The plain string thumb is taken apart like a literal: its pattern is
    hum, its flags are thumb. *)
Example plain_rule : rewrite_rule plain = ReplaceRegExp "hum" "thumb" "image".
Proof. vm_compute. reflexivity. Qed.

(** A match pattern that is not a delimited literal is not applied as a
    literal substring. *)
Lemma plain_string_not_literal : ~ literal_unless_delimited plain.
Proof.
  intros H. destruct (H "thumb" eq_refl) as [_ H'].
  assert (Hn : forall pattern flags, ~ delimited "thumb" pattern flags).
  { intros pattern flags [Hs _]. discriminate Hs. }
  specialize (H' Hn). vm_compute in H'. discriminate H'.
Qed.

(** The regular expression of the plain string has bad flags: the key of
    the request cannot be parsed. *)
Example plain_key :
  parseImageKey (rt := mini) plain (request_of "/thumb/cat.jpg") RequestTypes.CUSTOM
  = Throw SyntaxError.
Proof. vm_compute. reflexivity. Qed.

Lemma rewrite_rule_cases_witness :
  rewrite_rule rewriting = ReplaceRegExp "thumb" "g" "image"
  /\ rewrite_rule (env_of "allowed-bucket")
     = ReplaceString "undefined" "undefined"
  /\ parseImageKey (rt := mini) rewriting
       (request_of "/thumb/cat.jpg") RequestTypes.CUSTOM
     = Return (VString "image/cat.jpg").
Proof.
  split; [|split].
  - apply (proj1 (proj2 (RewriteFacts.rewrite_rule_cases
                           rewriting))
             "/thumb/g" "thumb" "g").
    + reflexivity.
    + split; [reflexivity|].
      intros [Hin | []]. discriminate Hin.
  - apply (proj1 (proj2 (proj2 (RewriteFacts.rewrite_rule_cases
                                  (env_of "allowed-bucket"))))).
    reflexivity.
  - rewrite (proj2 (proj2 (proj2 (RewriteFacts.rewrite_rule_cases
                                    rewriting)))).
    vm_compute. reflexivity.
Defined.

End RewriteExamples.

(** ** The content-type sniffer *)

Module SnifferExamples.
Import Inputs ImageRequest Sniffer Byte.

Lemma inferImageType_signatures_witness :
  inferImageType [x89; x50; x4e; x47; x0d; x0a; x1a; x0a] = Return "image/png"
  /\ inferImageType [xff; xd8; xff; xe0; x00; x10] = Return "image/jpeg"
  /\ sniff_failure (inferImageType [x47; x49; x46; x38; x39; x61])
  /\ sniff_failure (inferImageType [xff; xd8; xff])
  /\ sniff_failure (inferImageType []).
Proof.
  split; [|split; [|split; [|split]]].
  - apply (proj1 (proj2 (proj2 (SnifferFacts.inferImageType_signatures
                                  [x89; x50; x4e; x47; x0d; x0a; x1a; x0a])))
             [x89; x50; x4e; x47] "image/png").
    + simpl. tauto.
    + reflexivity.
  - apply (proj1 (proj2 (proj2 (SnifferFacts.inferImageType_signatures
                                  [xff; xd8; xff; xe0; x00; x10])))
             [xff; xd8; xff; xe0] "image/jpeg").
    + simpl. tauto.
    + reflexivity.
  - apply (proj1 (proj2 (proj2 (proj2
             (SnifferFacts.inferImageType_signatures
                [x47; x49; x46; x38; x39; x61]))))).
    intros sig type Hin Hsig. cbv [signatures In] in Hin. simpl in Hsig.
    subst sig.
    repeat (destruct Hin as [Hin | Hin]; [discriminate Hin|]).
    destruct Hin.
  - apply (proj2 (proj2 (proj2 (proj2
             (SnifferFacts.inferImageType_signatures [xff; xd8; xff]))))).
    simpl. lia.
  - apply (proj2 (proj2 (proj2 (proj2
             (SnifferFacts.inferImageType_signatures []))))).
    simpl. lia.
Defined.

End SnifferExamples.

(** ** The format negotiator *)

Module FormatNegotiatorExamples.
Import Inputs MiniRuntime ImageRequest.

(** The quality of JPEG becomes the quality of WebP. *)
Example quality_renamed :
  option_map Info.edits
    (match setup_quality (rt := mini) thumbor_info with
     | Return info => Some info
     | Throw _ => None
     end)
  = Some
      (VObject
         [("resize", VObject [("width", VNumber (Finite (100 # 1)))]);
          ("webp", VObject [("quality", VNumber (Finite (80 # 1)))])]).
Proof. vm_compute. reflexivity. Qed.


(** The reduction effort 3.5 is stored as 3, and 9 as the default 4. *)
Example efforts_stored :
  let run event :=
    match
      fst (setup (rt := mini) (mapper := no_edits) (env_of "images-bucket")
             (collaborators := store_collaborators) event (start photos))
    with
    | Return info => info.(Info.reductionEffort)
    | Throw _ => None
    end in
  run effort = Some (Finite (3 # 1))
  /\ run effort_out_of_range = Some (Finite (4 # 1)).
Proof. vm_compute. split; reflexivity. Qed.


End FormatNegotiatorExamples.

(** ** An SVG original and automatic WebP *)

Module SvgOutputExamples.
Import Inputs MiniRuntime ImageRequest SvgOutput.

(** Without the automatic WebP output the SVG original with edits comes out
    as PNG. *)
Example svg_to_png :
  match
    fst (setup (rt := mini) (mapper := no_edits) (env_of "images-bucket")
           (collaborators := store_collaborators) logo
           (start photos))
  with
  | Return info => (info.(Info.outputFormat), info.(Info.contentType))
  | Throw _ => (VUndefined, "")
  end
  = (VString "png", "image/png").
Proof. vm_compute. reflexivity. Qed.


End SvgOutputExamples.

(** ** The synchronous methods *)

Module MethodsExamples.
Import Inputs ExtraInputs MiniRuntime ImageRequest Extra.

(** The white space after the comma is removed, and the two entries are
    found. *)
Lemma getAllowedSourceBuckets_list_witness :
  exists sourceBuckets,
    getAllowedSourceBuckets (rt := mini) two_buckets = Return sourceBuckets
    /\ sourceBuckets <> []
    /\ Js.join "," sourceBuckets = "photos,logos".
Proof.
  destruct (proj2 (MethodsExtra.getAllowedSourceBuckets_list (rt := mini)
                     two_buckets) "photos, logos" eq_refl)
    as [sourceBuckets [H1 [H2 [_ H4]]]].
  exists sourceBuckets. split; [exact H1|]. split; [exact H2|].
  rewrite H4. vm_compute. reflexivity.
Defined.


(** With the rewrite configured a Thumbor path is a Custom request. *)
Lemma parseRequestType_range_witness :
  parseRequestType (rt := mini) rewriting (request_of "/thumb/cat.jpg")
  = Return RequestTypes.DEFAULT
  \/ parseRequestType (rt := mini) rewriting (request_of "/thumb/cat.jpg")
     = Return RequestTypes.CUSTOM.
Proof.
  apply (proj2 (proj2 (MethodsExtra.parseRequestType_range (rt := mini)
                         rewriting (request_of "/thumb/cat.jpg")))).
  exists "/thumb/g", "image". repeat split; discriminate.
Defined.

Lemma unknown_dialect_witness :
  ~ dialect "Unknown"
  /\ handler_error
       (parseImageKey (rt := mini) (env_of "allowed-bucket")
          (request_of "/thumb/cat.jpg") "Unknown")
       NOT_FOUND "ImageEdits::CannotFindImage"
  /\ handler_error
       (parseImageEdits (rt := mini) (mapper := no_edits)
          (request_of "/thumb/cat.jpg") "Unknown")
       BAD_REQUEST "ImageEdits::CannotParseEdits".
Proof.
  assert (H : ~ dialect "Unknown")
    by (intros [H | [H | H]]; discriminate H).
  split; [exact H|].
  destruct (@MethodsExtra.unknown_dialect mini no_edits
              (env_of "allowed-bucket") (request_of "/thumb/cat.jpg")
              "Unknown" H) as [H1 [H2 _]].
  split; assumption.
Defined.

(** A bucket of the list is returned. *)
Lemma parseImageBucket_errors_witness :
  parseImageBucket (rt := mini) (env_of "allowed-bucket") encoded
    RequestTypes.DEFAULT (VString "a/b.png")
  = Return (VString "allowed-bucket").
Proof.
  destruct (proj2 (proj2 (MethodsExtra.parseImageBucket_errors (rt := mini)
                            (env_of "allowed-bucket") encoded
                            RequestTypes.DEFAULT (VString "a/b.png")))
              ["allowed-bucket"] "a/b.png" encoded_record "allowed-bucket"
              ltac:(vm_compute; reflexivity) eq_refl eq_refl
              ltac:(vm_compute; reflexivity) ltac:(vm_compute; reflexivity))
    as [H _].
  apply H. left. reflexivity.
Defined.

(** A key that begins with a slash resolves to the last entry. *)
Lemma parseImageBucket_empty_alias_witness :
  parseImageBucket (rt := mini) (env_of "a-one, a-two")
    (request_of "/%2Fcat.jpg") RequestTypes.THUMBOR (VString "/cat.jpg")
  = Return (VString "a-two").
Proof.
  apply (@MethodsExtra.parseImageBucket_empty_alias mini
           (env_of "a-one, a-two") (request_of "/%2Fcat.jpg")
           RequestTypes.THUMBOR "/cat.jpg" ["a-one"; "a-two"]).
  - vm_compute. reflexivity.
  - left. reflexivity.
  - right. exists "cat.jpg". reflexivity.
Defined.

(** The key of the Custom request is the key of the rewritten path. *)
Lemma parseImageKey_dialects_witness :
  parseImageKey (rt := mini) rewriting (request_of "/thumb/cat.jpg")
    RequestTypes.CUSTOM
  = parseImageKey (rt := mini) rewriting
      (with_path (request_of "/thumb/cat.jpg") "/image/cat.jpg")
      RequestTypes.THUMBOR.
Proof.
  apply (proj1 (proj2 (proj2 (MethodsExtra.parseImageKey_dialects
                                (rt := mini) rewriting
                                (request_of "/thumb/cat.jpg"))))).
  vm_compute. reflexivity.
Defined.

Lemma parseImageHeaders_truthy_witness :
  parseImageHeaders (rt := mini) (request_of "/thumb/cat.jpg")
    RequestTypes.THUMBOR
  = Return VUndefined.
Proof.
  apply (proj1 (proj2 (MethodsExtra.parseImageHeaders_truthy (rt := mini)
                         (request_of "/thumb/cat.jpg")
                         RequestTypes.THUMBOR))).
  discriminate.
Defined.

(** WebP is negotiated for a Thumbor path as well. *)
Lemma getOutputFormat_priority_witness :
  getOutputFormat (rt := mini) webp_enabled accepting RequestTypes.THUMBOR
  = Return (VString ImageFormatTypes.WEBP).
Proof.
  apply (proj1 (MethodsExtra.getOutputFormat_priority (rt := mini)
                  webp_enabled accepting RequestTypes.THUMBOR)).
  split; [reflexivity|].
  exists "image/webp". split; reflexivity.
Defined.

End MethodsExamples.

(** ** The asynchronous methods *)

Module AsyncExamples.
Import Inputs ExtraInputs MiniRuntime ImageRequest Extra.


(** The object of unknown type is a PNG file by its first bytes. *)
Lemma getOriginalImage_contentType_witness :
  fst (getOriginalImage (rt := mini) (collaborators := store_collaborators)
         (VString "uploads") (VString "a/b") (start uploads))
  = Return (described (rt := mini) untyped "image/png").
Proof.
  apply (proj1 (proj2 (proj2
           (@AsyncExtra.getOriginalImage_contentType mini Store
              store_collaborators (VString "uploads") (VString "a/b")
              (start uploads) untyped uploads
              ltac:(vm_compute; reflexivity))))
           "binary/octet-stream" "image/png").
  - reflexivity.
  - left. reflexivity.
  - vm_compute. reflexivity.
Defined.

(** A path of no dialect: setup fails with the error of the classification
    and nothing was fetched. *)
Lemma setup_gated_witness :
  exists e,
    parseRequestType (rt := mini) (env_of "allowed-bucket")
      (request_of "/notes/cat.txt")
    = Throw e
    /\ setup (rt := mini) (mapper := no_edits) (env_of "allowed-bucket")
         (collaborators := store_collaborators)
         (request_of "/notes/cat.txt") (start empty)
       = (Throw e, start empty).
Proof.
  destruct (parseRequestType (rt := mini) (env_of "allowed-bucket")
              (request_of "/notes/cat.txt")) as [t|e] eqn:Ht.
  - vm_compute in Ht. discriminate Ht.
  - exists e. split; [reflexivity|].
    destruct (@AsyncExtra.setup_gated mini no_edits (env_of "allowed-bucket")
                Store store_collaborators (request_of "/notes/cat.txt")
                (start empty) (start empty) (Return tt)
                ltac:(vm_compute; reflexivity)) as [_ [_ [H _]]].
    exact (H e eq_refl Ht).
Defined.

Lemma setup_retrievals_witness :
  retrieves_at_most 0
    (setup (rt := mini) (mapper := no_edits) (env_of "allowed-bucket")
       (collaborators := store_collaborators) photo).
Proof.
  apply (proj2 (@AsyncExtra.setup_retrievals mini no_edits
                  (env_of "allowed-bucket") Store store_collaborators
                  photo)).
  intros H. discriminate H.
Defined.

End AsyncExamples.

(** ** The request information *)

Module SetupExamples.
Import Inputs ExtraInputs MiniRuntime ImageRequest Extra.

(** The run on the logo with its edit. *)
Lemma setup_invariants_witness :
  exists info s',
    setup (rt := mini) (mapper := no_edits) (env_of "images-bucket")
      (collaborators := store_collaborators) logo (start photos)
    = (Return info, s')
    /\ dialect info.(Info.requestType)
    /\ (exists key, info.(Info.key) = VString key)
    /\ (JsValue.truthy info.(Info.outputFormat) = true ->
        info.(Info.contentType)
        = "image/" ++ Js.ToString (rt := mini) info.(Info.outputFormat)).
Proof.
  destruct (setup (rt := mini) (mapper := no_edits) (env_of "images-bucket")
              (collaborators := store_collaborators) logo (start photos))
    as [[info|e] s'] eqn:Hrun.
  - exists info, s'. split; [reflexivity|].
    exact (SetupExtra.setup_invariants _ _ _ Hrun).
  - vm_compute in Hrun. discriminate Hrun.
Defined.

Lemma setup_payload_witness :
  exists info s' s2 object,
    setup (rt := mini) (mapper := no_edits) (env_of "images-bucket")
      (collaborators := store_collaborators) logo (start photos)
    = (Return info, s')
    /\ @s3Client_getObject Store store_collaborators
         {| Bucket := info.(Info.bucket); Key := info.(Info.key) |}
         s2.(world)
       = (Return object, s'.(world))
    /\ info.(Info.originalImage) = object.(Body).
Proof.
  destruct (setup (rt := mini) (mapper := no_edits) (env_of "images-bucket")
              (collaborators := store_collaborators) logo (start photos))
    as [[info|e] s'] eqn:Hrun.
  - destruct (SetupExtra.setup_payload _ _ _ Hrun)
      as [s2 [object [H1 [H2 _]]]].
    exists info, s', s2, object. split; [reflexivity|].
    split; assumption.
  - vm_compute in Hrun. discriminate Hrun.
Defined.

End SetupExamples.

(** ** The decision on the output format *)

Module FormatExamples.
Import Inputs ExtraInputs MiniRuntime ImageRequest Extra.


(** The reduction effort 3.5 is stored as its truncation, and 9 gives the
    default. *)
Lemma reductionEffort_window_witness :
  (exists stored,
     setup_reductionEffort (rt := mini) effort
       (VString ImageFormatTypes.WEBP) undecided
     = Return (Info.set_reductionEffort (Some stored) undecided)
     /\ stored = Js.Math_trunc (rt := mini) (VNumber (Finite (7 # 2)))
     /\ ReductionEffort.in_range stored)
  /\ (exists stored,
        setup_reductionEffort (rt := mini) effort_out_of_range
          (VString ImageFormatTypes.WEBP) undecided
        = Return (Info.set_reductionEffort (Some stored) undecided)
        /\ stored = DEFAULT_REDUCTION_EFFORT).
Proof.
  split.
  - destruct (@FormatExtra.reductionEffort_window mini effort effort_record
                (Finite (7 # 2)) undecided eq_refl
                ltac:(vm_compute; reflexivity) ltac:(vm_compute; reflexivity))
      as [stored [H [Hin _]]].
    exists stored. split; [exact H|].
    apply (Hin (Qmake 7 2) eq_refl). split; vm_compute; reflexivity.
  - destruct (@FormatExtra.reductionEffort_window mini effort_out_of_range
                effort_out_of_range_record (Finite (9 # 1)) undecided eq_refl
                ltac:(vm_compute; reflexivity) ltac:(vm_compute; reflexivity))
      as [stored [H [_ [Hout _]]]].
    exists stored. split; [exact H|].
    apply (Hout (Qmake 9 1) eq_refl).
    intros [_ H9]. vm_compute in H9. discriminate H9.
Defined.

(** The logo without edits comes out as it is, although WebP is
    negotiated. *)
Lemma setup_svg_unedited_witness :
  getOutputFormat (rt := mini) webp_enabled logo_unedited
    RequestTypes.DEFAULT
  = Return (VString ImageFormatTypes.WEBP)
  /\ exists info,
       setup (rt := mini) (mapper := no_edits) webp_enabled
         (collaborators := store_collaborators) logo_unedited (start photos)
       = (Return info, fetched)
       /\ info.(Info.outputFormat) = VUndefined
       /\ info.(Info.contentType) = "image/svg+xml".
Proof.
  split; [vm_compute; reflexivity|].
  destruct (@FormatExtra.setup_svg_unedited mini no_edits webp_enabled
              Store store_collaborators logo_unedited
              (start photos) (start photos) probed fetched
              RequestTypes.DEFAULT (VString "images/logo.svg")
              (VString "images/logo.svg") (VString "images-bucket")
              logo_original
              ltac:(vm_compute; reflexivity) ltac:(vm_compute; reflexivity)
              ltac:(vm_compute; reflexivity) ltac:(vm_compute; reflexivity)
              ltac:(vm_compute; reflexivity) ltac:(vm_compute; reflexivity)
              ltac:(vm_compute; reflexivity) eq_refl)
    as [headers [_ Hrun]].
  eexists. split; [exact Hrun|]. split; reflexivity.
Defined.


End FormatExamples.
